(** * Harvest Moon DS portrait reconstructor: a shallow embedding

    The definitions below follow [reconstruct_FINAL.py] function by
    function.  Python integers are [Z]; byte buffers are [list byte];
    Python floats are the kernel's binary64 floats; an exception is a
    value of [exn] carried by the [result] type; a Pillow image is a
    record of its size and its rows of RGBA pixels. *)

From Stdlib Require Import ZArith Lia.
From Stdlib.Strings Require Import Byte.
From Stdlib Require Import PrimFloat FloatOps SpecFloat Uint63.
From stdpp Require Import base list.

Open Scope Z_scope.

(** ** Exceptions and the error monad *)

Inductive exn : Type :=
| StructError    (* struct.error: unpack requires a buffer of 2 bytes *)
| IndexError     (* list or image index out of range *)
| ValueError     (* min()/max() of an empty sequence, negative image size *)
| KeyError       (* missing dictionary key *)
| OverflowError. (* int() of an infinite float *)

Inductive result (A : Type) : Type :=
| Ok (a : A)
| Err (e : exn).
Arguments Ok {A} a.
Arguments Err {A} e.

Definition bind {A B} (m : result A) (k : A -> result B) : result B :=
  match m with
  | Ok a => k a
  | Err e => Err e
  end.

Notation "x <- m ;; k" := (bind m (fun x => k))
  (at level 100, m at next level, right associativity,
   format "'[v' x  <-  m  ;;  '/' k ']'").

(** Control outcome of a loop body: fall through to the next iteration,
    or leave the loop ([break]). *)
Inductive ctl (S : Type) : Type :=
| Next (s : S)
| Break (s : S).
Arguments Next {S} s.
Arguments Break {S} s.

(** [for i in l: body] with a loop-carried state and [break]. *)
Fixpoint for_each {E S} (l : list E) (s : S) (body : E -> S -> result (ctl S))
  : result S :=
  match l with
  | [] => Ok s
  | i :: l' =>
      match body i s with
      | Err e => Err e
      | Ok (Break s') => Ok s'
      | Ok (Next s') => for_each l' s' body
      end
  end.

(** [range(n)] and [range(start, stop, step)] for a positive step. *)
Definition range (n : Z) : list Z :=
  map Z.of_nat (seq 0 (Z.to_nat n)).

Definition range3 (start stop step : Z) : list Z :=
  map (fun k => start + step * Z.of_nat k)
      (seq 0 (Z.to_nat ((stop - start + step - 1) / step))).

(** ** Byte buffers *)

Definition byte_val (b : byte) : Z := Z.of_N (Byte.to_N b).

Definition len {A} (l : list A) : Z := Z.of_nat (length l).

(** Python's [l[i:j]]: negative bounds count from the end, and both
    bounds are clamped to the sequence. *)
Definition clamp_index (n i : Z) : Z :=
  if i <? 0 then Z.max 0 (i + n) else Z.min i n.

Definition slice {A} (l : list A) (i j : Z) : list A :=
  let a := clamp_index (len l) i in
  let b := clamp_index (len l) j in
  take (Z.to_nat (b - a)) (drop (Z.to_nat a) l).

(** Python's [l[i]] for a non-negative or negative index. *)
Definition index {A} (l : list A) (i : Z) : result A :=
  let i' := if i <? 0 then i + len l else i in
  if (i' <? 0) || (len l <=? i') then Err IndexError
  else match l !! Z.to_nat i' with
       | Some a => Ok a
       | None => Err IndexError
       end.

(** [struct.unpack('<H', bs)[0]]: exactly two bytes, little-endian. *)
Definition unpack_H (bs : list byte) : result Z :=
  match bs with
  | [b0; b1] => Ok (byte_val b0 + 256 * byte_val b1)
  | _ => Err StructError
  end.

(** ** Floats *)

(** [float(z)] for the integers that occur here (|z| < 2^63). *)
Definition float_of_Z (z : Z) : float :=
  if z <? 0 then PrimFloat.opp (PrimFloat.of_uint63 (Uint63.of_Z (- z)))
  else PrimFloat.of_uint63 (Uint63.of_Z z).

(** [int(f)]: truncation towards zero. *)
Definition int_of_float (f : float) : result Z :=
  match Prim2SF f with
  | S754_zero _ => Ok 0
  | S754_finite s m e =>
      let mag := if 0 <=? e then Z.pos m * 2 ^ e else Z.pos m / 2 ^ (- e) in
      Ok (if s then - mag else mag)
  | S754_infinity _ => Err OverflowError
  | S754_nan => Err ValueError
  end.

(** ** load_ds_palette *)

Abbreviation color := (Z * Z * Z)%type.

(** [int((c / 31.0) * 255)], the conversion applied to each channel. *)
Definition to_8bit (c : Z) : result Z :=
  int_of_float (PrimFloat.mul (PrimFloat.div (float_of_Z c) 31%float)
                              (float_of_Z 255)).

Definition load_ds_palette (data : list byte) : result (list color) :=
  for_each (range3 0 (len data) 2) []
    (fun i palette =>
       color16 <- unpack_H (slice data i (i + 2)) ;;
       let r := Z.land color16 0x001F in
       let g := Z.shiftr (Z.land color16 0x03E0) 5 in
       let b := Z.shiftr (Z.land color16 0x7C00) 10 in
       r8 <- to_8bit r ;;
       g8 <- to_8bit g ;;
       b8 <- to_8bit b ;;
       Ok (Next (palette ++ [(r8, g8, b8)]))).


(** ** decode_4bpp_tile *)

Definition decode_4bpp_tile (tile_bytes : list byte) : result (list (list Z)) :=
  pixels <- for_each tile_bytes []
              (fun byte pixels =>
                 let pixel1 := Z.land (byte_val byte) 0x0F in
                 let pixel2 := Z.land (Z.shiftr (byte_val byte) 4) 0x0F in
                 Ok (Next ((pixels ++ [pixel1]) ++ [pixel2]))) ;;
  for_each (range 8) []
    (fun y tile =>
       row <- for_each (range 8) []
                (fun x row =>
                   p <- index pixels (y * 8 + x) ;;
                   Ok (Next (row ++ [p]))) ;;
       Ok (Next (tile ++ [row]))).

(** ** wrap_ds_coordinate *)

Definition wrap_ds_coordinate (x y : Z) : Z * Z :=
  let y := if y >=? 192 then y - 256 else y in
  let x := if x >=? 256 then x - 512 else x in
  (x, y).

(** ** parse_oam_attrs *)

(** The dictionary returned by [parse_oam_attrs], one field per key; the
    keys ['set'] and ['index'] are absent until the document parser adds
    them. *)
Record oam_obj : Type := {
  o_y : Z;
  o_rot_scaling : Z;
  o_double_size : Z;
  o_obj_disable : Z;
  o_obj_mode : Z;
  o_mosaic : Z;
  o_colors_palettes : Z;
  o_shape : Z;
  o_x : Z;
  o_rot_scaling_param : Z;
  o_h_flip : Z;
  o_v_flip : Z;
  o_size : Z;
  o_tile_number : Z;
  o_priority : Z;
  o_palette_number : Z;
  o_width : Z;
  o_height : Z;
  o_set : option Z;
  o_index : option Z
}.

(** Python truthiness of an integer. *)
Definition truthy (z : Z) : bool := negb (z =? 0).

Definition SIZE_TABLE (shape size : Z) : result (Z * Z) :=
  match shape, size with
  | 0, 0 => Ok (8, 8)   | 0, 1 => Ok (16, 16) | 0, 2 => Ok (32, 32) | 0, 3 => Ok (64, 64)
  | 1, 0 => Ok (16, 8)  | 1, 1 => Ok (32, 8)  | 1, 2 => Ok (32, 16) | 1, 3 => Ok (64, 32)
  | 2, 0 => Ok (8, 16)  | 2, 1 => Ok (8, 32)  | 2, 2 => Ok (16, 32) | 2, 3 => Ok (32, 64)
  | 3, 0 => Ok (8, 8)   | 3, 1 => Ok (8, 8)   | 3, 2 => Ok (8, 8)   | 3, 3 => Ok (8, 8)
  | _, _ => Err KeyError
  end.

Definition parse_oam_attrs (attr0 attr1 attr2 : Z) : result oam_obj :=
  let y_coord := Z.land attr0 0xFF in
  let rot_scaling := Z.land (Z.shiftr attr0 8) 0x1 in
  let double_size :=
    if truthy rot_scaling then Z.land (Z.shiftr attr0 9) 0x1 else 0 in
  let obj_disable :=
    if truthy rot_scaling then 0 else Z.land (Z.shiftr attr0 9) 0x1 in
  let obj_mode := Z.land (Z.shiftr attr0 10) 0x3 in
  let mosaic := Z.land (Z.shiftr attr0 12) 0x1 in
  let colors_palettes := Z.land (Z.shiftr attr0 13) 0x1 in
  let obj_shape := Z.land (Z.shiftr attr0 14) 0x3 in
  let x_coord := Z.land attr1 0x1FF in
  let rot_scaling_param :=
    if truthy rot_scaling then Z.land (Z.shiftr attr1 9) 0x1F else 0 in
  let h_flip :=
    if truthy rot_scaling then 0 else Z.land (Z.shiftr attr1 12) 0x1 in
  let v_flip :=
    if truthy rot_scaling then 0 else Z.land (Z.shiftr attr1 13) 0x1 in
  let obj_size := Z.land (Z.shiftr attr1 14) 0x3 in
  let tile_index := Z.land attr2 0x3FF in
  let priority := Z.land (Z.shiftr attr2 10) 0x3 in
  let palette_num := Z.land (Z.shiftr attr2 12) 0xF in
  wh <- SIZE_TABLE obj_shape obj_size ;;
  let width := fst wh in
  let height := snd wh in
  let xy := wrap_ds_coordinate x_coord y_coord in
  let x_coord := fst xy in
  let y_coord := snd xy in
  Ok {| o_y := y_coord;
        o_rot_scaling := rot_scaling;
        o_double_size := double_size;
        o_obj_disable := obj_disable;
        o_obj_mode := obj_mode;
        o_mosaic := mosaic;
        o_colors_palettes := colors_palettes;
        o_shape := obj_shape;
        o_x := x_coord;
        o_rot_scaling_param := rot_scaling_param;
        o_h_flip := h_flip;
        o_v_flip := v_flip;
        o_size := obj_size;
        o_tile_number := tile_index;
        o_priority := priority;
        o_palette_number := palette_num;
        o_width := width;
        o_height := height;
        o_set := None;
        o_index := None |}.

(** [obj['set'] = s; obj['index'] = i]. *)
Definition tag_obj (s i : Z) (obj : oam_obj) : oam_obj :=
  {| o_y := o_y obj;
     o_rot_scaling := o_rot_scaling obj;
     o_double_size := o_double_size obj;
     o_obj_disable := o_obj_disable obj;
     o_obj_mode := o_obj_mode obj;
     o_mosaic := o_mosaic obj;
     o_colors_palettes := o_colors_palettes obj;
     o_shape := o_shape obj;
     o_x := o_x obj;
     o_rot_scaling_param := o_rot_scaling_param obj;
     o_h_flip := o_h_flip obj;
     o_v_flip := o_v_flip obj;
     o_size := o_size obj;
     o_tile_number := o_tile_number obj;
     o_priority := o_priority obj;
     o_palette_number := o_palette_number obj;
     o_width := o_width obj;
     o_height := o_height obj;
     o_set := Some s;
     o_index := Some i |}.

(** ** Pillow images (mode RGBA) *)

Abbreviation rgba := (Z * Z * Z * Z)%type.

Definition alpha (p : rgba) : Z := snd p.

Record Image : Type := {
  im_width : Z;
  im_height : Z;
  im_rows : list (list rgba)
}.

(** [Image.new('RGBA', (w, h), c)]; a negative size is refused. *)
Definition Image_new (w h : Z) (c : rgba) : result Image :=
  if (w <? 0) || (h <? 0) then Err ValueError
  else Ok {| im_width := w;
             im_height := h;
             im_rows := replicate (Z.to_nat h) (replicate (Z.to_nat w) c) |}.

Definition in_image (img : Image) (x y : Z) : bool :=
  (0 <=? x) && (x <? im_width img) && (0 <=? y) && (y <? im_height img).

(** The pixel stored at column [x] of row [y], if there is one. *)
Definition pixel_at (img : Image) (x y : Z) : option rgba :=
  if in_image img x y then
    match im_rows img !! Z.to_nat y with
    | Some row => row !! Z.to_nat x
    | None => None
    end
  else None.

(** [img.putpixel((x, y), c)]: negative coordinates count from the far
    edge; a coordinate outside the image raises [IndexError]. *)
Definition putpixel (img : Image) (x y : Z) (c : rgba) : result Image :=
  let x := if x <? 0 then im_width img + x else x in
  let y := if y <? 0 then im_height img + y else y in
  if in_image img x y then
    Ok {| im_width := im_width img;
          im_height := im_height img;
          im_rows := alter (fun row => <[Z.to_nat x := c]> row)
                           (Z.to_nat y) (im_rows img) |}
  else Err IndexError.

(** Mixing of one channel under an intermediate mask value, with the
    rounding division by 255 of the imaging core. *)
Definition blend (mask d s : Z) : Z :=
  let tmp := d * (255 - mask) + s * mask + 128 in
  Z.shiftr (Z.shiftr tmp 8 + tmp) 8.

(** One pixel of [paste] under an RGBA mask: where the mask's alpha is
    255 the source is copied as is, where it is 0 the destination is
    kept, and intermediate values mix the two, alpha included. *)
Definition paste_pixel (mask s d : rgba) : rgba :=
  let a := alpha mask in
  if a =? 255 then s
  else if a =? 0 then d
  else
    let '(sr, sg, sb, sa) := s in
    let '(dr, dg, db, da) := d in
    (blend a dr sr, blend a dg sg, blend a db sb, blend a da sa).

(** [canvas.paste(src, (ox, oy), mask)] for a mask of the source's
    size: the part of the box that falls outside the canvas is clipped. *)
Definition paste (canvas src : Image) (ox oy : Z) (mask : Image) : Image :=
  {| im_width := im_width canvas;
     im_height := im_height canvas;
     im_rows :=
       imap (fun Y row =>
               imap (fun X d =>
                       let sx := Z.of_nat X - ox in
                       let sy := Z.of_nat Y - oy in
                       match pixel_at src sx sy, pixel_at mask sx sy with
                       | Some s, Some m => paste_pixel m s d
                       | _, _ => d
                       end) row)
            (im_rows canvas) |}.

(** ** render_sprite *)

Definition render_sprite (tile_data : list byte) (obj : oam_obj)
    (palette : list color) (tile_multiplier : Z) (show_transparent : bool)
  : result Image :=
  let TILE_SIZE := 32 in
  let width := o_width obj in
  let height := o_height obj in
  let tile_idx := o_tile_number obj in
  let h_flip := o_h_flip obj in
  let v_flip := o_v_flip obj in
  let tiles_wide := width / 8 in
  let tiles_tall := height / 8 in
  let actual_start_tile := tile_idx * tile_multiplier in
  img <- (if show_transparent
          then Image_new width height (255, 255, 255, 255)
          else Image_new width height (0, 0, 0, 0)) ;;
  st <- for_each (range tiles_tall) (img, 0)
    (fun ty st =>
       st <- for_each (range tiles_wide) st
         (fun tx st =>
            let img := fst st in
            let tile_num := snd st in
            let current_tile_idx := actual_start_tile + tile_num in
            let tile_offset := current_tile_idx * TILE_SIZE in
            if tile_offset + TILE_SIZE >? len tile_data then
              Ok (Next (img, tile_num + 1))
            else
              let tile_bytes :=
                slice tile_data tile_offset (tile_offset + TILE_SIZE) in
              tile <- decode_4bpp_tile tile_bytes ;;
              let tile_x := tx * 8 in
              let tile_y := ty * 8 in
              img <- for_each (range 8) img
                (fun py img =>
                   img <- for_each (range 8) img
                     (fun px img =>
                        row <- index tile py ;;
                        palette_idx <- index row px ;;
                        if negb show_transparent && (palette_idx =? 0) then
                          Ok (Next img)
                        else if palette_idx >=? len palette then
                          Ok (Next img)
                        else
                          color <- index palette palette_idx ;;
                          let color_rgba : rgba := (color, 255) in
                          let pixel_x := tile_x + px in
                          let pixel_y := tile_y + py in
                          let pixel_x :=
                            if truthy h_flip then (width - 1) - pixel_x
                            else pixel_x in
                          let pixel_y :=
                            if truthy v_flip then (height - 1) - pixel_y
                            else pixel_y in
                          img <- putpixel img pixel_x pixel_y color_rgba ;;
                          Ok (Next img)) ;;
                   Ok (Next img)) ;;
              Ok (Next (img, tile_num + 1))) ;;
       Ok (Next st)) ;;
  Ok (fst st).

(** ** parse_custom_oam_format *)

Record oam_header : Type := {
  h_total_size : Z;
  h_byte_2_3 : Z;
  h_multiplier : Z;
  h_set2_offset_adjust : Z;
  h_set1_count : Z
}.

(** The record loop, written out twice in the source (lines 247-260 for
    Set 1 and 267-280 for Set 2) and identical up to the set number:
    [count] iterations from byte [offset], each reading three words,
    leaving the loop at the first record that does not fit. *)
Definition parse_set (oam_data : list byte) (set_no count offset : Z)
  : result (Z * list oam_obj) :=
  for_each (range count) (offset, [])
    (fun i st =>
       let offset := fst st in
       let objects := snd st in
       if offset + 6 >? len oam_data then Ok (Break (offset, objects))
       else
         attr0 <- unpack_H (slice oam_data offset (offset + 2)) ;;
         attr1 <- unpack_H (slice oam_data (offset + 2) (offset + 4)) ;;
         attr2 <- unpack_H (slice oam_data (offset + 4) (offset + 6)) ;;
         obj <- parse_oam_attrs attr0 attr1 attr2 ;;
         let obj := tag_obj set_no i obj in
         Ok (Next (offset + 6, objects ++ [obj]))).

Definition parse_custom_oam_format (oam_data : list byte)
  : result (oam_header * list oam_obj * list oam_obj) :=
  total_size <- unpack_H (slice oam_data 0 2) ;;
  byte_2_3 <- unpack_H (slice oam_data 2 4) ;;
  multiplier <- unpack_H (slice oam_data 4 6) ;;
  set2_offset_adjust <- unpack_H (slice oam_data 6 8) ;;
  set1_count <- unpack_H (slice oam_data 8 10) ;;
  let header := {| h_total_size := total_size;
                   h_byte_2_3 := byte_2_3;
                   h_multiplier := multiplier;
                   h_set2_offset_adjust := set2_offset_adjust;
                   h_set1_count := set1_count |} in
  st <- parse_set oam_data 1 (h_set1_count header) 10 ;;
  let offset := fst st in
  let set1_objects := snd st in
  if offset + 2 <=? len oam_data then
    set2_count <- unpack_H (slice oam_data offset (offset + 2)) ;;
    let offset := offset + 2 in
    st <- parse_set oam_data 2 set2_count offset ;;
    Ok (header, set1_objects, snd st)
  else Ok (header, set1_objects, []).

(** ** reconstruct_portrait *)

(** [min(...)] and [max(...)] of a sequence; empty sequences raise. *)
Definition py_min (l : list Z) : result Z :=
  match l with
  | [] => Err ValueError
  | a :: l' => Ok (foldl Z.min a l')
  end.

Definition py_max (l : list Z) : result Z :=
  match l with
  | [] => Err ValueError
  | a :: l' => Ok (foldl Z.max a l')
  end.

(** Lines 321-358 of [reconstruct_portrait]: bounds, canvas, and the
    painting loop.  [debug] only guards console output, which is not
    modelled. *)
Definition composite (tile_data : list byte) (palettes : list (list color))
    (multiplier : Z) (objects : list oam_obj) (debug show_transparent : bool)
  : result Image :=
  min_x <- py_min (map (fun obj => o_x obj) objects) ;;
  max_x <- py_max (map (fun obj => o_x obj + o_width obj) objects) ;;
  min_y <- py_min (map (fun obj => o_y obj) objects) ;;
  max_y <- py_max (map (fun obj => o_y obj + o_height obj) objects) ;;
  let width := max_x - min_x in
  let height := max_y - min_y in
  canvas <- Image_new width height (0, 0, 0, 0) ;;
  for_each (reverse objects) canvas
    (fun obj canvas =>
       if truthy (o_obj_disable obj) then Ok (Next canvas)
       else
         let pal_idx := o_palette_number obj in
         let pal_idx := if pal_idx >=? len palettes then 0 else pal_idx in
         palette <- index palettes pal_idx ;;
         sprite <- render_sprite tile_data obj palette multiplier
                                 show_transparent ;;
         let paste_x := o_x obj - min_x in
         let paste_y := o_y obj - min_y in
         Ok (Next (paste canvas sprite paste_x paste_y sprite))).

(** The whole function, on the contents of the four input files; the
    result is the canvas that is saved. *)
Definition reconstruct_portrait (tile_data oam_data palette1_data
    palette2_data : list byte) (use_set : Z) (debug show_transparent : bool)
  : result Image :=
  palette1 <- load_ds_palette palette1_data ;;
  palette2 <- load_ds_palette palette2_data ;;
  let palettes := [palette1; palette2] in
  parsed <- parse_custom_oam_format oam_data ;;
  let '(header, set1_objects, set2_objects) := parsed in
  let objects := if use_set =? 1 then set1_objects else set2_objects in
  composite tile_data palettes (h_multiplier header) objects debug
            show_transparent.


(** ** Definitions used to state the properties *)

(** The little-endian word at byte offset [off] of a buffer. *)
Definition word_at (data : list byte) (off : Z) : Z :=
  match data !! Z.to_nat off, data !! Z.to_nat (off + 1) with
  | Some b0, Some b1 => byte_val b0 + 256 * byte_val b1
  | _, _ => 0
  end.


(** The colour the spec assigns to a 16-bit word: three 5-bit fields
    (bits 0-4, 5-9, 10-14), each scaled by [floor (c * 255 / 31)]. *)
Definition spec_color (w : Z) : color :=
  ((w mod 32) * 255 / 31,
   ((w / 32) mod 32) * 255 / 31,
   ((w / 1024) mod 32) * 255 / 31).

(** Does the float computation of [to_8bit] agree with the exact
    integer formula at [c]? *)
Definition to_8bit_check (c : Z) : bool :=
  match to_8bit c with
  | Ok v => v =? c * 255 / 31
  | Err _ => false
  end.

(** The 64 values the spec derives from a tile: for each source byte in
    order, its low nibble first and then its high nibble. *)
Definition nibble_values (tile_bytes : list byte) : list Z :=
  flat_map (fun b => [byte_val b mod 16; byte_val b / 16]) tile_bytes.

(** A tile whose first byte is 0x21 and whose other bytes are zero. *)
Definition tile_0x21 : list byte := x21 :: replicate 31 x00.

(** The object described by the three words at byte offset [off]. *)
Definition record_at (data : list byte) (off : Z) : result oam_obj :=
  parse_oam_attrs (word_at data off) (word_at data (off + 2))
                  (word_at data (off + 4)).

(** The spec's round-trip document: a 10-byte header declaring one
    Set-1 record, that record, and a zero Set-2 count. *)
Definition doc_one_record : list byte :=
  [x12; x00; x00; x00; x04; x00; x00; x00; x01; x00;
   xc8; x00; x2c; x01; x01; x0c;
   x00; x00].

(** An image is well formed when its rows match its declared size. *)
Definition wf_image (img : Image) : Prop :=
  0 <= im_width img /\ 0 <= im_height img
  /\ length (im_rows img) = Z.to_nat (im_height img)
  /\ (forall (i : nat) row, im_rows img !! i = Some row ->
        length row = Z.to_nat (im_width img)).

(** The background a sprite raster starts from. *)
Definition background (show_transparent : bool) : rgba :=
  if show_transparent then (255, 255, 255, 255) else (0, 0, 0, 0).

(** The palette index of pixel [j] (0..63, row-major) of the tile that
    starts at byte [off]: low nibble for even [j], high nibble for odd. *)
Definition tile_value (tile_data : list byte) (off j : Z) : Z :=
  match tile_data !! Z.to_nat (off + j / 2) with
  | Some b => if Z.even j then byte_val b mod 16 else byte_val b / 16
  | None => 0
  end.

(** What a decoded palette index shows: nothing for index 0 (unless the
    debug override is on) and for an index outside the palette, the
    palette colour at full opacity otherwise. *)
Definition shade (palette : list color) (show_transparent : bool) (idx : Z)
  : rgba :=
  if negb show_transparent && (idx =? 0) then background show_transparent
  else match palette !! Z.to_nat idx with
       | Some c => (c, 255)
       | None => background show_transparent
       end.

(** Source position of the raster pixel [(X, Y)] before the flips. *)
Definition unflip_x (obj : oam_obj) (X : Z) : Z :=
  if truthy (o_h_flip obj) then (o_width obj - 1) - X else X.

Definition unflip_y (obj : oam_obj) (Y : Z) : Z :=
  if truthy (o_v_flip obj) then (o_height obj - 1) - Y else Y.

(** The destination tile cell (row-major number) of a source position. *)
Definition cell_of (obj : oam_obj) (x y : Z) : Z :=
  (y / 8) * (o_width obj / 8) + x / 8.

Definition in_cells (obj : oam_obj) (x y : Z) : bool :=
  (0 <=? x) && (x <? 8 * (o_width obj / 8))
  && (0 <=? y) && (y <? 8 * (o_height obj / 8)).

(** The raster the spec describes, pixel by pixel: cell [k] shows source
    tile [tile_number * multiplier + k], or nothing when that tile does
    not fit in the tile buffer. *)
Definition sprite_pixel (tile_data : list byte) (obj : oam_obj)
    (palette : list color) (tile_multiplier : Z) (show_transparent : bool)
    (X Y : Z) : rgba :=
  let x := unflip_x obj X in
  let y := unflip_y obj Y in
  if in_cells obj x y then
    let off :=
      (o_tile_number obj * tile_multiplier + cell_of obj x y) * 32 in
    if off + 32 >? len tile_data then background show_transparent
    else shade palette show_transparent
               (tile_value tile_data off ((y mod 8) * 8 + x mod 8))
  else background show_transparent.

(** Position of a source pixel in the order in which the renderer visits
    pixels: cell by cell, and row-major inside a cell. *)
Definition visit_order (obj : oam_obj) (X Y : Z) : Z :=
  let x := unflip_x obj X in
  let y := unflip_y obj Y in
  cell_of obj x y * 64 + (y mod 8) * 8 + x mod 8.

(** The raster after the first [n] pixel visits. *)
Definition partial_pixel (tile_data : list byte) (obj : oam_obj)
    (palette : list color) (tile_multiplier : Z) (show_transparent : bool)
    (n : Z) (X Y : Z) : rgba :=
  if visit_order obj X Y <? n
  then sprite_pixel tile_data obj palette tile_multiplier show_transparent X Y
  else background show_transparent.

Definition raster_after (tile_data : list byte) (obj : oam_obj)
    (palette : list color) (tile_multiplier : Z) (show_transparent : bool)
    (n : Z) (img : Image) : Prop :=
  wf_image img
  /\ im_width img = o_width obj /\ im_height img = o_height obj
  /\ (forall X Y, 0 <= X < o_width obj -> 0 <= Y < o_height obj ->
        pixel_at img X Y
        = Some (partial_pixel tile_data obj palette tile_multiplier
                              show_transparent n X Y)).

(** Objects as the parser produces them: sizes, tile number and palette
    number are never negative. *)
Definition wf_obj (o : oam_obj) : Prop :=
  0 <= o_width o /\ 0 <= o_height o
  /\ 0 <= o_tile_number o /\ 0 <= o_palette_number o.

(** The same object with another value in its ['priority'] key. *)
Definition set_priority (p : Z) (obj : oam_obj) : oam_obj :=
  {| o_y := o_y obj;
     o_rot_scaling := o_rot_scaling obj;
     o_double_size := o_double_size obj;
     o_obj_disable := o_obj_disable obj;
     o_obj_mode := o_obj_mode obj;
     o_mosaic := o_mosaic obj;
     o_colors_palettes := o_colors_palettes obj;
     o_shape := o_shape obj;
     o_x := o_x obj;
     o_rot_scaling_param := o_rot_scaling_param obj;
     o_h_flip := o_h_flip obj;
     o_v_flip := o_v_flip obj;
     o_size := o_size obj;
     o_tile_number := o_tile_number obj;
     o_priority := p;
     o_palette_number := o_palette_number obj;
     o_width := o_width obj;
     o_height := o_height obj;
     o_set := o_set obj;
     o_index := o_index obj |}.

(** The sprite the painting loop renders for one object (lines 346-353):
    palette selection, then [render_sprite]. *)
Definition obj_sprite (tile_data : list byte) (palettes : list (list color))
    (multiplier : Z) (show_transparent : bool) (obj : oam_obj)
  : result Image :=
  let pal_idx := o_palette_number obj in
  let pal_idx := if pal_idx >=? len palettes then 0 else pal_idx in
  palette <- index palettes pal_idx ;;
  render_sprite tile_data obj palette multiplier show_transparent.

(** The painting loop of [composite] (lines 340-358) on its own, for a
    given canvas and paste origin. *)
Definition paint_loop (tile_data : list byte) (palettes : list (list color))
    (multiplier : Z) (show_transparent : bool) (min_x min_y : Z)
    (objects : list oam_obj) (canvas : Image) : result Image :=
  for_each (reverse objects) canvas
    (fun obj canvas =>
       if truthy (o_obj_disable obj) then Ok (Next canvas)
       else
         let pal_idx := o_palette_number obj in
         let pal_idx := if pal_idx >=? len palettes then 0 else pal_idx in
         palette <- index palettes pal_idx ;;
         sprite <- render_sprite tile_data obj palette multiplier
                                 show_transparent ;;
         let paste_x := o_x obj - min_x in
         let paste_y := o_y obj - min_y in
         Ok (Next (paste canvas sprite paste_x paste_y sprite))).

(** One iteration of the painting loop. *)
Definition paint_obj (tile_data : list byte) (palettes : list (list color))
    (multiplier : Z) (show_transparent : bool) (min_x min_y : Z)
    (obj : oam_obj) (canvas : Image) : result (ctl Image) :=
  if truthy (o_obj_disable obj) then Ok (Next canvas)
  else
    sprite <- obj_sprite tile_data palettes multiplier show_transparent obj ;;
    Ok (Next (paste canvas sprite (o_x obj - min_x) (o_y obj - min_y) sprite)).

(** The enclosing box of a set of objects: min x, max x+width, min y,
    max y+height, over all the objects. *)
Definition bounds (objects : list oam_obj) : result (Z * Z * Z * Z) :=
  min_x <- py_min (map (fun obj => o_x obj) objects) ;;
  max_x <- py_max (map (fun obj => o_x obj + o_width obj) objects) ;;
  min_y <- py_min (map (fun obj => o_y obj) objects) ;;
  max_y <- py_max (map (fun obj => o_y obj + o_height obj) objects) ;;
  Ok (min_x, max_x, min_y, max_y).

(** ** Sample data *)

(** An 8x8 object (shape 0, size 0) at [(x, y)]. *)
Definition sample_obj (x y tile_number priority obj_disable : Z) : oam_obj :=
  {| o_y := y;
     o_rot_scaling := 0;
     o_double_size := 0;
     o_obj_disable := obj_disable;
     o_obj_mode := 0;
     o_mosaic := 0;
     o_colors_palettes := 0;
     o_shape := 0;
     o_x := x;
     o_rot_scaling_param := 0;
     o_h_flip := 0;
     o_v_flip := 0;
     o_size := 0;
     o_tile_number := tile_number;
     o_priority := priority;
     o_palette_number := 0;
     o_width := 8;
     o_height := 8;
     o_set := Some 1;
     o_index := None |}.

Definition sample_palette : list color :=
  [(0, 0, 0); (255, 0, 0); (0, 255, 0); (0, 0, 255)].

(** Two tiles: every pixel of tile 0 has index 1, of tile 1 index 2. *)
Definition sample_tiles : list byte :=
  replicate 32 x11 ++ replicate 32 x22.

(** A document whose header declares no Set-1 record, followed by a
    zero Set-2 count. *)
Definition doc_no_records : list byte :=
  [x0c; x00; x00; x00; x04; x00; x00; x00; x00; x00; x00; x00].

(** ** Definitions used to state further properties *)

(** The bit field of [m] bits that starts at bit [k] of a word. *)
Definition bits (a k m : Z) : Z := (a / 2 ^ k) mod 2 ^ m.

(** An 8x8 object at the origin whose h_flip and v_flip are given. *)
Definition sample_flipped (h_flip v_flip : Z) : oam_obj :=
  {| o_y := 0;
     o_rot_scaling := 0;
     o_double_size := 0;
     o_obj_disable := 0;
     o_obj_mode := 0;
     o_mosaic := 0;
     o_colors_palettes := 0;
     o_shape := 0;
     o_x := 0;
     o_rot_scaling_param := 0;
     o_h_flip := h_flip;
     o_v_flip := v_flip;
     o_size := 0;
     o_tile_number := 0;
     o_priority := 0;
     o_palette_number := 0;
     o_width := 8;
     o_height := 8;
     o_set := Some 1;
     o_index := Some 0 |}.

(** What an object's sprite shows at canvas position [(X, Y)], when the
    canvas origin is [(min_x, min_y)]: nothing outside the object's box
    or when the object is disabled. *)
Definition sprite_on_canvas (tile_data : list byte)
    (palette1 palette2 : list color) (mult : Z) (show : bool)
    (min_x min_y : Z) (obj : oam_obj) (X Y : Z) : option rgba :=
  let sx := X - (o_x obj - min_x) in
  let sy := Y - (o_y obj - min_y) in
  if truthy (o_obj_disable obj) then None
  else if (0 <=? sx) && (sx <? o_width obj)
          && (0 <=? sy) && (sy <? o_height obj)
  then Some (sprite_pixel tile_data obj
               (if o_palette_number obj =? 1 then palette2 else palette1)
               mult show sx sy)
  else None.

(** The pixel seen at a canvas position over a background pixel [d]:
    that of the first object of the sequence whose sprite is opaque
    there. *)
Fixpoint visible (sprite_at : oam_obj -> Z -> Z -> option rgba)
    (objects : list oam_obj) (X Y : Z) (d : rgba) : rgba :=
  match objects with
  | [] => d
  | obj :: rest =>
      match sprite_at obj X Y with
      | Some p => if alpha p =? 255 then p
                  else visible sprite_at rest X Y d
      | None => visible sprite_at rest X Y d
      end
  end.

(** A document that declares two Set-1 records but holds one and four
    more bytes. *)
Definition doc_truncated : list byte :=
  [x00; x00; x00; x00; x04; x00; x00; x00; x02; x00;
   xc8; x00; x2c; x01; x01; x0c;
   x01; x00; xc8; x00].

(** A document is complete when it holds every record that its two
    counts declare. *)
Definition complete (oam_data : list byte) : Prop :=
  let set1_count := word_at oam_data 8 in
  let set2_at := 10 + 6 * set1_count in
  set2_at + 2 + 6 * word_at oam_data set2_at <= len oam_data.

(** The header bytes that only the header record keeps: the total size,
    bytes 2-3 and the Set-2 offset adjustment. *)
Definition unused_header_byte (i : nat) : Prop :=
  (i < 4)%nat \/ i = 6%nat \/ i = 7%nat.

(** Whether the renderer writes the raster pixel [(X, Y)] (lines
    174-216): its source position lies in a tile cell whose tile fits in
    the buffer, and its palette index is inside the palette and, unless
    the override is on, not 0. *)
Definition written (tile_data : list byte) (obj : oam_obj)
    (palette : list color) (tile_multiplier : Z) (show_transparent : bool)
    (X Y : Z) : bool :=
  let x := unflip_x obj X in
  let y := unflip_y obj Y in
  let off := (o_tile_number obj * tile_multiplier + cell_of obj x y) * 32 in
  let idx := tile_value tile_data off ((y mod 8) * 8 + x mod 8) in
  in_cells obj x y
  && (off + 32 <=? len tile_data)
  && (show_transparent || negb (idx =? 0))
  && (idx <? len palette).

(** * walk_reconstruct.py: the batch driver

    File and directory names are Python strings; they are modelled as
    byte strings holding their UTF-8 encoding, on which the operations
    used here (concatenation, [endswith] and [replace] with an ASCII
    argument, and the code-point order of [sort]) act as they do on the
    code points.  [os.path.join] is the POSIX one.

    The operating system is a record of answers: what the directory
    listings, the tests and the reads return during the run, [None] or
    [false] standing for a raised [OSError].  The images written by the
    run are kept in the log, not in the record: a name written ends in
    [.png], while the files read and tested end in [.bin] and a listing
    of [binFiles] is searched for names ending in [_tiles.bin] only, so
    a write changes no answer that the run uses.

    What the run prints is not modelled.  A print can itself raise (a
    listed name or a symbol that the console cannot encode, a closed
    stream), and lines 27, 42, 55 and 73 of the driver are not inside
    the [try]: such a run stops earlier than the model says, having
    reported a prefix of the model's events.  The properties of the
    driver are therefore stated for the events of a run and for the
    runs that end without an exception. *)

From Stdlib Require String Ascii.
Import String.StringSyntax.
Delimit Scope string_scope with string.
From stdpp Require Import sorting.

Open Scope Z_scope.

Definition path : Type := String.string.
Bind Scope string_scope with path.

(** [s.startswith(prefix)] and [s.endswith(suffix)]. *)
Definition startswith (s prefix : path) : bool := String.prefix prefix s.

Fixpoint endswith (s suffix : path) : bool :=
  String.eqb s suffix
  || match s with
     | String.EmptyString => false
     | String.String _ s' => endswith s' suffix
     end.

(** [s.replace(old, '')] for a non-empty [old]: the occurrences of [old]
    are removed from left to right; [skip] counts the characters of an
    occurrence that are still to be dropped. *)
Fixpoint remove_from (old : path) (skip : nat) (s : path) : path :=
  match s with
  | String.EmptyString => String.EmptyString
  | String.String c s' =>
      match skip with
      | S k => remove_from old k s'
      | O =>
          if String.prefix old s
          then remove_from old (String.length old - 1) s'
          else String.String c (remove_from old 0 s')
      end
  end.

Definition str_remove (s old : path) : path :=
  match old with
  | String.EmptyString => s
  | _ => remove_from old 0 s
  end.

(** [old in s]. *)
Fixpoint str_contains (s old : path) : bool :=
  String.prefix old s
  || match s with
     | String.EmptyString => false
     | String.String _ s' => str_contains s' old
     end.

(** [os.path.join(a, b)] of [posixpath]; a call with three components
    joins from the left. *)
Definition path_join (a b : path) : path :=
  if startswith b "/"%string then b
  else if String.eqb a ""%string || endswith a "/"%string
       then String.append a b
       else String.append a (String.append "/"%string b).

(** [list.sort()] on strings: ascending in the lexicographic order of
    the characters. *)
Definition str_le (a b : path) : Prop := Is_true (String.leb a b).

Definition sort (l : list path) : list path := merge_sort str_le l.

(** The answers of the operating system. *)
Record file_system : Type := {
  fs_makedirs : path -> bool;              (* os.makedirs(p, exist_ok=True) *)
  fs_listdir : path -> option (list path); (* os.listdir(p) *)
  fs_isdir : path -> bool;                 (* os.path.isdir(p) *)
  fs_exists : path -> bool;                (* os.path.exists(p) *)
  fs_read : path -> option (list byte);    (* open(p, 'rb').read() *)
  fs_save : path -> bool                   (* Image.save(p) *)
}.

(** What a run can raise: an [OSError] of a file operation, or one of
    the exceptions of the reconstruction itself. *)
Inductive io_exn : Type :=
| OSError
| Raised (e : exn).

Definition io (A : Type) : Type := (io_exn + A)%type.

Definition io_bind {A B} (m : io A) (k : A -> io B) : io B :=
  match m with
  | inl e => inl e
  | inr a => k a
  end.

Notation "x <<- m ;; k" := (io_bind m (fun x => k))
  (at level 100, m at next level, right associativity,
   format "'[v' x  <<-  m  ;;  '/' k ']'").

Definition lift {A} (m : result A) : io A :=
  match m with
  | Ok a => inr a
  | Err e => inl (Raised e)
  end.

Definition read_file (fs : file_system) (filepath : path) : io (list byte) :=
  match fs_read fs filepath with
  | Some data => inr data
  | None => inl OSError
  end.

(** [load_ds_palette] on a file name: the read, then the decoding. *)
Definition load_ds_palette_file (fs : file_system) (filepath : path)
  : io (list color) :=
  data <<- read_file fs filepath ;;
  lift (load_ds_palette data).

(** [reconstruct_portrait] on file names, in the order of the source:
    the two reads, the two palettes, the parse, the compositing, the
    save.  The result is the canvas that was saved.  [fs_save] answers
    for an output name whose extension Pillow knows, as are those of
    the driver, which end in [.png]: a failed save is then a failed
    write.  (For a name without a known extension [Image.save] raises
    [ValueError] instead; no such name is used here.) *)
Definition reconstruct_portrait_files (fs : file_system)
    (tiles_path oam_path palette1_path palette2_path output_path : path)
    (use_set : Z) (debug show_transparent : bool) : io Image :=
  tile_data <<- read_file fs tiles_path ;;
  oam_data <<- read_file fs oam_path ;;
  palette1 <<- load_ds_palette_file fs palette1_path ;;
  palette2 <<- load_ds_palette_file fs palette2_path ;;
  let palettes := [palette1; palette2] in
  parsed <<- lift (parse_custom_oam_format oam_data) ;;
  let '(header, set1_objects, set2_objects) := parsed in
  let objects := if use_set =? 1 then set1_objects else set2_objects in
  canvas <<- lift (composite tile_data palettes (h_multiplier header) objects
                             debug show_transparent) ;;
  if fs_save fs output_path then inr canvas else inl OSError.

(** What the run reports for one expression: the file it wrote, with the
    canvas it holds; that it skipped the expression; or the exception it
    caught. *)
Inductive event : Type :=
| Saved (output_path : path) (canvas : Image)
| Skipped (expr_name : path)
| Failed (expr_name : path) (e : io_exn).

(** The name of the expression of a tiles file. *)
Definition expr_name_of (expr_file : path) : path :=
  str_remove expr_file "_tiles.bin"%string.

(** The body of the loop over the expression files of one folder. *)
Definition expression (fs : file_system) (output_dir char_folder bin_dir
    expr_file : path) : event :=
  let expr_name := expr_name_of expr_file in
  let tiles_path :=
    path_join bin_dir (String.append expr_name "_tiles.bin"%string) in
  let oam_path :=
    path_join bin_dir (String.append expr_name "_oam.bin"%string) in
  let palette1_path := path_join bin_dir "palette1.bin"%string in
  let palette2_path := path_join bin_dir "palette2.bin"%string in
  if negb (fs_exists fs oam_path) then Skipped expr_name
  else
    let output_filename :=
      String.append char_folder
        (String.append "_"%string
           (String.append expr_name ".png"%string)) in
    let output_path := path_join output_dir output_filename in
    match reconstruct_portrait_files fs tiles_path oam_path palette1_path
            palette2_path output_path 1 true false with
    | inr canvas => Saved output_path canvas
    | inl e => Failed expr_name e
    end.

Definition bin_dir_of (characters_dir char_folder : path) : path :=
  path_join (path_join characters_dir char_folder) "binFiles"%string.

(** The loop over the character folders.  The listing of a folder's
    [binFiles] is outside the [try]: when it raises, the run ends with
    the events reported so far. *)
Fixpoint characters (fs : file_system) (characters_dir output_dir : path)
    (character_folders : list path) (log : list event)
  : list event * option io_exn :=
  match character_folders with
  | [] => (log, None)
  | char_folder :: rest =>
      let bin_dir := bin_dir_of characters_dir char_folder in
      match fs_listdir fs bin_dir with
      | None => (log, Some OSError)
      | Some names =>
          let expression_files :=
            sort (filter (fun filename =>
                            Is_true (endswith filename "_tiles.bin"%string))
                         names) in
          characters fs characters_dir output_dir rest
            (log ++ map (expression fs output_dir char_folder bin_dir)
                        expression_files)
      end
  end.

(** The events of a run, and the exception that ended it, if any. *)
Definition reconstruct_all_characters (fs : file_system)
    (characters_dir output_dir : path) : list event * option io_exn :=
  if negb (fs_makedirs fs output_dir) then ([], Some OSError)
  else
    match fs_listdir fs characters_dir with
    | None => ([], Some OSError)
    | Some items =>
        let character_folders :=
          sort (filter (fun item =>
                          Is_true (fs_isdir fs (path_join characters_dir item)))
                       items) in
        characters fs characters_dir output_dir character_folders []
    end.

(** ** A small directory tree *)

Fixpoint assoc {A} (l : list (path * A)) (p : path) : option A :=
  match l with
  | [] => None
  | (q, a) :: l' => if String.eqb p q then Some a else assoc l' p
  end.

(** The file system that holds the directories [dirs], given with their
    listings, and the files [files], and on which every write
    succeeds. *)
Definition tree (dirs : list (path * list path))
    (files : list (path * list byte)) : file_system :=
  {| fs_makedirs := fun _ => true;
     fs_listdir := assoc dirs;
     fs_isdir := fun p => bool_decide (is_Some (assoc dirs p));
     fs_exists := fun p => bool_decide (is_Some (assoc dirs p))
                           || bool_decide (is_Some (assoc files p));
     fs_read := assoc files;
     fs_save := fun _ => true |}.

(** The image of the sample palette: its first four colours as words. *)
Definition sample_palette_file : list byte :=
  [x00; x00; x1f; x00; xe0; x03; x00; x7c].

(** One character folder with two expressions, the second without its
    OAM file, and a stray file next to it; [listing] is the order in
    which the expression folder is listed. *)
Definition sample_tree (listing : list path) : file_system :=
  tree [("chars"%string, ["readme.txt"; "00_Claire"]%string);
        ("chars/00_Claire"%string, ["binFiles"%string]);
        ("chars/00_Claire/binFiles"%string, listing)]
       [("chars/readme.txt"%string, []);
        ("chars/00_Claire/binFiles/00_neutral_tiles.bin"%string, sample_tiles);
        ("chars/00_Claire/binFiles/00_neutral_oam.bin"%string, doc_one_record);
        ("chars/00_Claire/binFiles/01_happy_tiles.bin"%string, sample_tiles);
        ("chars/00_Claire/binFiles/palette1.bin"%string, sample_palette_file);
        ("chars/00_Claire/binFiles/palette2.bin"%string, sample_palette_file)].


Definition sample_listing : list path :=
  ["palette2.bin"; "01_happy_tiles.bin"; "00_neutral_oam.bin";
   "palette1.bin"; "00_neutral_tiles.bin"]%string.

(** ** Definitions used to state the properties of the driver *)

(** [expr_file] is a tiles file of the character folder [char_folder]:
    the folder is a directory listed in [characters_dir], and the file
    is listed in the folder's [binFiles] under a name that ends in
    [_tiles.bin]. *)
Definition listed (fs : file_system) (characters_dir char_folder
    expr_file : path) : Prop :=
  exists items names,
    fs_listdir fs characters_dir = Some items
    /\ char_folder ∈ items
    /\ fs_isdir fs (path_join characters_dir char_folder) = true
    /\ fs_listdir fs (bin_dir_of characters_dir char_folder) = Some names
    /\ expr_file ∈ names
    /\ endswith expr_file "_tiles.bin" = true.

(** Two file systems that give the same answers, except that their
    directory listings may come in different orders. *)
Definition same_up_to_listing_order (fs fs' : file_system) : Prop :=
  (forall p, fs_makedirs fs p = fs_makedirs fs' p)
  /\ (forall p, match fs_listdir fs p, fs_listdir fs' p with
                | Some l, Some l' => l ≡ₚ l'
                | None, None => True
                | _, _ => False
                end)
  /\ (forall p, fs_isdir fs p = fs_isdir fs' p)
  /\ (forall p, fs_exists fs p = fs_exists fs' p)
  /\ (forall p, fs_read fs p = fs_read fs' p)
  /\ (forall p, fs_save fs p = fs_save fs' p).
(** * Properties *)

(** ** The error monad and loops *)

Lemma bind_assoc {A B C} (m : result A) (f : A -> result B)
    (g : B -> result C) :
  bind (bind m f) g = bind m (fun a => bind (f a) g).
Proof. now destruct m. Qed.

Lemma bind_assoc3 {A B C D E} (m1 : result A) (m2 : result B)
    (m3 : result C) (f : A -> B -> C -> result D) (g : D -> result E) :
  bind (a <- m1 ;; b <- m2 ;; c <- m3 ;; f a b c) g
  = (a <- m1 ;; b <- m2 ;; c <- m3 ;; bind (f a b c) g).
Proof. now destruct m1, m2, m3. Qed.

(** Invariant rule for a loop whose body never breaks: if [I] holds
    before the first element and every iteration carries it one step
    further, the loop returns a state satisfying [I] at the end. *)
Lemma for_each_seq_inv {E S} (f : nat -> E) (I : nat -> S -> Prop)
    (body : E -> S -> result (ctl S)) (m : nat) :
  forall (a : nat) (s : S),
    I a s ->
    (forall k s, (a <= k < a + m)%nat -> I k s ->
                 exists s', body (f k) s = Ok (Next s') /\ I (Datatypes.S k) s') ->
    exists s', for_each (map f (seq a m)) s body = Ok s' /\ I (a + m)%nat s'.
Proof.
  induction m as [|m IH]; intros a s H0 Hstep; simpl.
  - exists s. split; [reflexivity|]. now rewrite Nat.add_0_r.
  - destruct (Hstep a s) as (s1 & Hb & H1); [lia | assumption |].
    rewrite Hb.
    destruct (IH (Datatypes.S a) s1) as (s2 & Hf & H2); [assumption | |].
    + intros k s' Hk. apply Hstep. lia.
    + exists s2. split; [assumption|].
      now replace (a + Datatypes.S m)%nat with (Datatypes.S a + m)%nat by lia.
Qed.

(** The same loop when the iteration after [m] good ones raises. *)
Lemma for_each_seq_err {E S} (f : nat -> E) (I : nat -> S -> Prop)
    (body : E -> S -> result (ctl S)) (e : exn) (m : nat) :
  forall (a : nat) (s : S),
    I a s ->
    (forall k s, (a <= k < a + m)%nat -> I k s ->
                 exists s', body (f k) s = Ok (Next s') /\ I (Datatypes.S k) s') ->
    (forall s, I (a + m)%nat s -> body (f (a + m)%nat) s = Err e) ->
    for_each (map f (seq a (Datatypes.S m))) s body = Err e.
Proof.
  induction m as [|m IH]; intros a s H0 Hstep Herr.
  - simpl. rewrite <- (Nat.add_0_r a) at 1. now rewrite Herr by now rewrite Nat.add_0_r.
  - change (seq a (Datatypes.S (Datatypes.S m)))
      with (a :: seq (Datatypes.S a) (Datatypes.S m)).
    cbn [map for_each].
    destruct (Hstep a s) as (s1 & Hb & H1); [lia | assumption |].
    rewrite Hb. apply (IH (Datatypes.S a) s1); [assumption | |].
    + intros k s' Hk. apply Hstep. lia.
    + intros s' Hs'.
      replace (Datatypes.S a + m)%nat with (a + Datatypes.S m)%nat in * by lia.
      now apply Herr.
Qed.

Lemma for_range_inv {S} (I : Z -> S -> Prop)
    (body : Z -> S -> result (ctl S)) (n : Z) (s : S) :
  0 <= n ->
  I 0 s ->
  (forall i s, 0 <= i < n -> I i s ->
               exists s', body i s = Ok (Next s') /\ I (i + 1) s') ->
  exists s', for_each (range n) s body = Ok s' /\ I n s'.
Proof.
  intros Hn H0 Hstep. unfold range.
  destruct (for_each_seq_inv Z.of_nat (fun k => I (Z.of_nat k)) body
              (Z.to_nat n) 0 s) as (s' & Hf & Hs').
  - exact H0.
  - intros k s1 Hk Hi. destruct (Hstep (Z.of_nat k) s1) as (s2 & Hb & H2);
      [lia | assumption |].
    exists s2. split; [assumption|].
    now replace (Z.of_nat (Datatypes.S k)) with (Z.of_nat k + 1) by lia.
  - exists s'. split; [assumption|].
    replace (Z.of_nat (0 + Z.to_nat n)) with n in Hs' by lia. exact Hs'.
Qed.

(** ** Bytes, slices and words *)

Lemma byte_val_range (b : byte) : 0 <= byte_val b < 256.
Proof. destruct b; vm_compute; split; congruence. Qed.

Lemma len_nonneg {A} (l : list A) : 0 <= len l.
Proof. unfold len. lia. Qed.

Lemma slice_in_range {A} (l : list A) (i j : Z) :
  0 <= i <= j -> j <= len l ->
  slice l i j = take (Z.to_nat (j - i)) (drop (Z.to_nat i) l).
Proof.
  intros Hij Hj. unfold slice, clamp_index.
  destruct (Z.ltb_spec i 0), (Z.ltb_spec j 0); try lia.
  now rewrite !Z.min_l by lia.
Qed.

Lemma slice_length {A} (l : list A) (i j : Z) :
  0 <= i <= j -> j <= len l -> length (slice l i j) = Z.to_nat (j - i).
Proof.
  intros Hij Hj. rewrite slice_in_range by assumption.
  rewrite length_take, length_drop. unfold len in Hj. lia.
Qed.

Lemma slice_lookup {A} (l : list A) (i j : Z) (k : nat) :
  0 <= i <= j -> j <= len l -> Z.of_nat k < j - i ->
  slice l i j !! k = l !! (Z.to_nat i + k)%nat.
Proof.
  intros Hij Hj Hk. rewrite slice_in_range by assumption.
  rewrite lookup_take_lt by lia. now rewrite lookup_drop.
Qed.

Lemma unpack_H_slice (data : list byte) (off : Z) :
  0 <= off -> off + 2 <= len data ->
  unpack_H (slice data off (off + 2)) = Ok (word_at data off).
Proof.
  intros H0 H2.
  pose proof (slice_length data off (off + 2) ltac:(lia) H2) as Hl.
  pose proof (slice_lookup data off (off + 2) 0 ltac:(lia) H2 ltac:(lia)) as L0.
  pose proof (slice_lookup data off (off + 2) 1 ltac:(lia) H2 ltac:(lia)) as L1.
  destruct (slice data off (off + 2)) as [|b0 [|b1 [|b2 t]]];
    simpl in Hl; try lia.
  simpl in L0, L1. unfold word_at.
  replace (Z.to_nat (off + 1)) with (Z.to_nat off + 1)%nat by lia.
  replace (Z.to_nat off + 0)%nat with (Z.to_nat off) in L0 by lia.
  now rewrite <- L0, <- L1.
Qed.

Lemma unpack_H_slice_to (data : list byte) (off hi : Z) :
  0 <= off -> hi = off + 2 -> hi <= len data ->
  unpack_H (slice data off hi) = Ok (word_at data off).
Proof. intros H0 -> H2. now apply unpack_H_slice. Qed.

Lemma unpack_H_short (data : list byte) (off : Z) :
  0 <= off -> len data < off + 2 ->
  unpack_H (slice data off (off + 2)) = Err StructError.
Proof.
  intros H0 H2.
  assert (length (slice data off (off + 2)) < 2)%nat as Hl.
  { unfold slice, clamp_index.
    destruct (Z.ltb_spec off 0), (Z.ltb_spec (off + 2) 0); try lia.
    rewrite length_take, length_drop. unfold len in *. lia. }
  destruct (slice data off (off + 2)) as [|b0 [|b1 [|b2 t]]];
    simpl in Hl; try lia; reflexivity.
Qed.

(** ** load_ds_palette *)

Lemma to_8bit_table : forallb to_8bit_check (range 32) = true.
Proof. vm_compute. reflexivity. Qed.

Lemma to_8bit_exact (c : Z) : 0 <= c <= 31 -> to_8bit c = Ok (c * 255 / 31).
Proof.
  intros Hc.
  pose proof to_8bit_table as T. rewrite forallb_forall in T.
  assert (In c (range 32)) as Hin.
  { unfold range. apply in_map_iff. exists (Z.to_nat c).
    split; [lia|]. apply in_seq. lia. }
  specialize (T c Hin). unfold to_8bit_check in T.
  destruct (to_8bit c) as [v|e]; [|discriminate].
  apply Z.eqb_eq in T. now subst.
Qed.

Lemma red_field (w : Z) : Z.land w 0x001F = w mod 32.
Proof. change 0x001F with (Z.ones 5). now rewrite Z.land_ones by lia. Qed.

Lemma green_field (w : Z) : Z.shiftr (Z.land w 0x03E0) 5 = (w / 32) mod 32.
Proof.
  rewrite Z.shiftr_land. change (Z.shiftr 0x03E0 5) with (Z.ones 5).
  rewrite Z.land_ones by lia. now rewrite Z.shiftr_div_pow2 by lia.
Qed.

Lemma blue_field (w : Z) : Z.shiftr (Z.land w 0x7C00) 10 = (w / 1024) mod 32.
Proof.
  rewrite Z.shiftr_land. change (Z.shiftr 0x7C00 10) with (Z.ones 5).
  rewrite Z.land_ones by lia. now rewrite Z.shiftr_div_pow2 by lia.
Qed.

(** One iteration of the palette loop on a complete byte pair. *)
Lemma palette_step (data : list byte) (i : Z) (palette : list color) :
  0 <= i -> i + 2 <= len data ->
  (color16 <- unpack_H (slice data i (i + 2)) ;;
   let r := Z.land color16 0x001F in
   let g := Z.shiftr (Z.land color16 0x03E0) 5 in
   let b := Z.shiftr (Z.land color16 0x7C00) 10 in
   r8 <- to_8bit r ;;
   g8 <- to_8bit g ;;
   b8 <- to_8bit b ;;
   Ok (Next (palette ++ [(r8, g8, b8)])))
  = Ok (Next (palette ++ [spec_color (word_at data i)])).
Proof.
  intros H0 H2. rewrite unpack_H_slice by assumption. cbn [bind].
  rewrite red_field, green_field, blue_field.
  assert (forall v, 0 <= v mod 32 <= 31) as Hm
    by (intros v; pose proof (Z.mod_pos_bound v 32); lia).
  rewrite !to_8bit_exact by apply Hm.
  reflexivity.
Qed.

(** The colours of the complete byte pairs of a buffer, in order. *)
Lemma load_ds_palette_even (data : list byte) :
  Z.even (len data) = true ->
  load_ds_palette data
  = Ok (map (fun k => spec_color (word_at data (2 * Z.of_nat k)))
            (seq 0 (Z.to_nat (len data / 2)))).
Proof.
  intros Hev. unfold load_ds_palette, range3.
  apply Z.even_spec in Hev. destruct Hev as [h Hh].
  pose proof (len_nonneg data) as Hl.
  replace ((len data - 0 + 2 - 1) / 2) with h by (rewrite Hh; Z.div_mod_to_equations; lia).
  replace (len data / 2) with h by (rewrite Hh; Z.div_mod_to_equations; lia).
  destruct (for_each_seq_inv (fun k => 0 + 2 * Z.of_nat k)
              (fun k pal => pal = map (fun k => spec_color (word_at data (2 * Z.of_nat k))) (seq 0 k))
              (fun i palette =>
                 color16 <- unpack_H (slice data i (i + 2)) ;;
                 let r := Z.land color16 0x001F in
                 let g := Z.shiftr (Z.land color16 0x03E0) 5 in
                 let b := Z.shiftr (Z.land color16 0x7C00) 10 in
                 r8 <- to_8bit r ;;
                 g8 <- to_8bit g ;;
                 b8 <- to_8bit b ;;
                 Ok (Next (palette ++ [(r8, g8, b8)])))
              (Z.to_nat h) 0%nat []) as (pal & Hf & Hpal).
  - reflexivity.
  - intros k pal Hk ->. eexists. split.
    + apply palette_step; lia.
    + rewrite seq_S, map_app. reflexivity.
  - subst pal. exact Hf.
Qed.

(** A buffer of odd length makes the last [unpack] fail. *)
Lemma load_ds_palette_odd (data : list byte) :
  Z.odd (len data) = true -> load_ds_palette data = Err StructError.
Proof.
  intros Hodd. unfold load_ds_palette, range3.
  apply Z.odd_spec in Hodd. destruct Hodd as [h Hh].
  pose proof (len_nonneg data) as Hl.
  replace ((len data - 0 + 2 - 1) / 2) with (h + 1) by (rewrite Hh; Z.div_mod_to_equations; lia).
  replace (Z.to_nat (h + 1)) with (Datatypes.S (Z.to_nat h)) by lia.
  apply (for_each_seq_err (fun k => 0 + 2 * Z.of_nat k) (fun _ _ => True)
           _ StructError (Z.to_nat h) 0%nat []); [exact I | |].
  - intros k pal Hk _. eexists. split; [|exact I].
    apply palette_step; lia.
  - intros pal _. rewrite unpack_H_short by lia. reflexivity.
Qed.

(** C2 (as stated, refuted): a buffer of three bytes does not decode to
    the one colour of its complete byte pair; the trailing byte is not
    ignored, it makes the decoder raise. *)
Lemma load_ds_palette_odd_buffer_refuted :
  ~ (exists palette, load_ds_palette [x1f; x00; xe0] = Ok palette
                     /\ len palette = len [x1f; x00; xe0] / 2).
Proof. intros (palette & H & _). vm_compute in H. discriminate. Qed.

(** C2 (amended): palette decoding succeeds exactly on the buffers of
    even length, where it returns the colours of the byte pairs in
    order, [len data / 2] of them; on every buffer of odd length the
    last read raises [struct.error]. *)
Theorem load_ds_palette_by_parity (data : list byte) :
  load_ds_palette data
  = (if Z.even (len data)
     then Ok (map (fun k => spec_color (word_at data (2 * Z.of_nat k)))
                  (seq 0 (Z.to_nat (len data / 2))))
     else Err StructError)
  /\ (forall palette, load_ds_palette data = Ok palette ->
        Z.even (len data) = true /\ len palette = len data / 2).
Proof.
  assert (load_ds_palette data
          = if Z.even (len data)
            then Ok (map (fun k => spec_color (word_at data (2 * Z.of_nat k)))
                         (seq 0 (Z.to_nat (len data / 2))))
            else Err StructError) as Hres.
  { destruct (Z.even (len data)) eqn:Hev.
    - now apply load_ds_palette_even.
    - apply load_ds_palette_odd. now rewrite <- Z.negb_even, Hev. }
  split; [exact Hres|].
  intros palette Hok. rewrite Hres in Hok.
  destruct (Z.even (len data)); [|discriminate].
  split; [reflexivity|]. injection Hok as <-.
  unfold len at 1. rewrite length_map, length_seq.
  pose proof (len_nonneg data). rewrite Z2Nat.id; [reflexivity|].
  apply Z.div_pos; lia.
Qed.

Lemma load_ds_palette_by_parity_witness :
  load_ds_palette [x1f; x00; xe0; x03] = Ok [(255, 0, 0); (0, 255, 0)].
Proof. exact (proj1 (load_ds_palette_by_parity [x1f; x00; xe0; x03])). Defined.

(** C3: for every 5-bit component [c], the float computation
    [int((c / 31.0) * 255)] of the palette decoder yields exactly
    [floor (c * 255 / 31)]; a single colour word therefore decodes to
    the three floors of its fields, and 0, 31 and 16 give 0, 255, 131. *)
Theorem to_8bit_is_floor (c : Z) :
  0 <= c <= 31 ->
  to_8bit c = Ok (c * 255 / 31)
  /\ (forall b0 b1 : byte,
        load_ds_palette [b0; b1]
        = Ok [spec_color (byte_val b0 + 256 * byte_val b1)])
  /\ to_8bit 0 = Ok 0 /\ to_8bit 31 = Ok 255 /\ to_8bit 16 = Ok 131.
Proof.
  intros Hc. split; [now apply to_8bit_exact|]. split.
  - intros b0 b1. rewrite load_ds_palette_even by reflexivity. reflexivity.
  - repeat split; apply to_8bit_exact; lia.
Qed.

Lemma to_8bit_is_floor_witness : 0 <= 16 <= 31 /\ to_8bit 16 = Ok 131.
Proof.
  split; [lia|]. exact (proj1 (to_8bit_is_floor 16 ltac:(lia))).
Defined.

(** ** parse_oam_attrs *)

Lemma land_ones_range (v : Z) (n : Z) :
  0 <= n -> 0 <= Z.land v (Z.ones n) < 2 ^ n.
Proof.
  intros Hn. rewrite Z.land_ones by assumption.
  apply Z.mod_pos_bound. now apply Z.pow_pos_nonneg.
Qed.

Lemma SIZE_TABLE_total (shape size : Z) :
  0 <= shape < 4 -> 0 <= size < 4 ->
  exists w h, SIZE_TABLE shape size = Ok (w, h)
              /\ 8 <= w <= 64 /\ 8 <= h <= 64
              /\ w mod 8 = 0 /\ h mod 8 = 0.
Proof.
  intros Hs Hz.
  assert (shape = 0 \/ shape = 1 \/ shape = 2 \/ shape = 3) as Hs' by lia.
  assert (size = 0 \/ size = 1 \/ size = 2 \/ size = 3) as Hz' by lia.
  destruct Hs' as [-> | [-> | [-> | ->]]], Hz' as [-> | [-> | [-> | ->]]];
    do 2 eexists; (split; [reflexivity|]); repeat split; lia.
Qed.

(** The parser is total, and every field of its result is the bit field
    the source extracts. *)
Lemma parse_oam_attrs_total (attr0 attr1 attr2 : Z) :
  exists obj, parse_oam_attrs attr0 attr1 attr2 = Ok obj
    /\ o_x obj = fst (wrap_ds_coordinate (Z.land attr1 0x1FF) (Z.land attr0 0xFF))
    /\ o_y obj = snd (wrap_ds_coordinate (Z.land attr1 0x1FF) (Z.land attr0 0xFF))
    /\ 8 <= o_width obj <= 64 /\ 8 <= o_height obj <= 64
    /\ o_width obj mod 8 = 0 /\ o_height obj mod 8 = 0
    /\ 0 <= o_tile_number obj < 1024
    /\ 0 <= o_palette_number obj < 16
    /\ o_set obj = None /\ o_index obj = None.
Proof.
  unfold parse_oam_attrs.
  destruct (SIZE_TABLE_total (Z.land (Z.shiftr attr0 14) 0x3)
                             (Z.land (Z.shiftr attr1 14) 0x3))
    as (w & h & Hwh & Hw & Hh & Hw8 & Hh8);
    try apply (land_ones_range _ 2); try lia.
  rewrite Hwh. cbn [bind fst snd]. eexists. split; [reflexivity|].
  cbn [o_x o_y o_width o_height o_tile_number o_palette_number o_set o_index].
  pose proof (land_ones_range attr2 10 ltac:(lia)).
  pose proof (land_ones_range (Z.shiftr attr2 12) 4 ltac:(lia)).
  change (Z.ones 10) with 1023 in *. change (Z.ones 4) with 15 in *.
  repeat split; try assumption; lia.
Qed.

(** C4: the parsed object's screen coordinates are the 9-bit raw x
    (attr1 bits 0-8) lowered by 512 when it is at least 256, and the
    8-bit raw y (attr0 bits 0-7) lowered by 256 when it is at least 192;
    so 300 gives -212, 200 gives -56, and 100 stays 100 on both axes. *)
Theorem parse_oam_attrs_screen_coordinates (attr0 attr1 attr2 : Z) :
  (exists obj, parse_oam_attrs attr0 attr1 attr2 = Ok obj
     /\ o_x obj = (let raw_x := attr1 mod 2 ^ 9 in
                   if 256 <=? raw_x then raw_x - 512 else raw_x)
     /\ o_y obj = (let raw_y := attr0 mod 2 ^ 8 in
                   if 192 <=? raw_y then raw_y - 256 else raw_y))
  /\ wrap_ds_coordinate 300 200 = (-212, -56)
  /\ wrap_ds_coordinate 100 100 = (100, 100).
Proof.
  split; [|split; reflexivity].
  destruct (parse_oam_attrs_total attr0 attr1 attr2)
    as (obj & Hobj & Hx & Hy & _).
  exists obj. split; [assumption|].
  rewrite Hx, Hy. unfold wrap_ds_coordinate. cbn [fst snd].
  change 0x1FF with (Z.ones 9). change 0xFF with (Z.ones 8).
  rewrite !Z.land_ones by lia. cbv zeta.
  rewrite !Z.geb_leb. split; reflexivity.
Qed.

(** ** decode_4bpp_tile *)

Lemma nibbles_of_byte (b : byte) :
  Z.land (byte_val b) 0x0F = byte_val b mod 16
  /\ Z.land (Z.shiftr (byte_val b) 4) 0x0F = byte_val b / 16.
Proof. destruct b; split; reflexivity. Qed.

(** The first loop of the decoder collects the nibbles of every byte. *)
Lemma decode_pixels_loop (tile_bytes : list byte) :
  forall pixels,
    for_each tile_bytes pixels
      (fun byte pixels =>
         let pixel1 := Z.land (byte_val byte) 0x0F in
         let pixel2 := Z.land (Z.shiftr (byte_val byte) 4) 0x0F in
         Ok (Next ((pixels ++ [pixel1]) ++ [pixel2])))
    = Ok (pixels ++ nibble_values tile_bytes).
Proof.
  induction tile_bytes as [|b l IH]; intros pixels; simpl.
  - now rewrite app_nil_r.
  - rewrite IH. destruct (nibbles_of_byte b) as [-> ->].
    now rewrite <- !app_assoc.
Qed.

(** Row-major layout of any 64 values. *)
Lemma grid_of_64 (pixels : list Z) :
  length pixels = 64%nat ->
  for_each (range 8) []
    (fun y tile =>
       row <- for_each (range 8) []
                (fun x row =>
                   p <- index pixels (y * 8 + x) ;;
                   Ok (Next (row ++ [p]))) ;;
       Ok (Next (tile ++ [row])))
  = Ok (map (fun y => take 8 (drop (8 * y) pixels)) (seq 0 8)).
Proof.
  intros Hl.
  do 64 (destruct pixels as [|? pixels]; [discriminate Hl|]).
  destruct pixels; [|discriminate Hl].
  reflexivity.
Qed.

Lemma decode_4bpp_tile_rows (tile_bytes : list byte) :
  length tile_bytes = 32%nat ->
  decode_4bpp_tile tile_bytes
  = Ok (map (fun y => take 8 (drop (8 * y) (nibble_values tile_bytes)))
            (seq 0 8)).
Proof.
  intros Hl. unfold decode_4bpp_tile.
  rewrite decode_pixels_loop. cbn [bind app].
  apply grid_of_64. unfold nibble_values.
  rewrite (flat_map_constant_length (c := 2)) by reflexivity. lia.
Qed.

Lemma lookup_map {A B} (f : A -> B) (l : list A) (i : nat) :
  map f l !! i = f <$> (l !! i).
Proof. exact (list_lookup_fmap f l i). Qed.

Lemma nibble_values_length (tile_bytes : list byte) :
  length (nibble_values tile_bytes) = (2 * length tile_bytes)%nat.
Proof.
  unfold nibble_values.
  rewrite (flat_map_constant_length (c := 2)) by reflexivity. lia.
Qed.

Lemma nibble_values_range (tile_bytes : list byte) (i : nat) (v : Z) :
  nibble_values tile_bytes !! i = Some v -> 0 <= v < 16.
Proof.
  intros Hv. apply list_elem_of_lookup_2, list_elem_of_In in Hv.
  unfold nibble_values in Hv. apply in_flat_map in Hv.
  destruct Hv as (b & _ & Hb). pose proof (byte_val_range b) as Hr.
  destruct Hb as [<- | [<- | []]]; Z.div_mod_to_equations; lia.
Qed.

(** C5: a 32-byte tile decodes to an 8x8 grid with
    [grid[y][x] = values[y*8 + x]], where [values] lists, byte by byte,
    the low nibble and then the high nibble; every entry lies in [0,16),
    and a leading byte 0x21 yields the consecutive values 1 then 2. *)
Theorem decode_4bpp_tile_layout (tile_bytes : list byte) :
  length tile_bytes = 32%nat ->
  exists grid, decode_4bpp_tile tile_bytes = Ok grid
    /\ length grid = 8%nat
    /\ (forall y x : nat, (y < 8)%nat -> (x < 8)%nat ->
          exists row v, grid !! y = Some row /\ length row = 8%nat
            /\ row !! x = Some v
            /\ nibble_values tile_bytes !! (y * 8 + x)%nat = Some v
            /\ 0 <= v < 16)
    /\ (forall rest, tile_bytes = x21 :: rest ->
          exists row, grid !! 0%nat = Some row
            /\ row !! 0%nat = Some 1 /\ row !! 1%nat = Some 2).
Proof.
  intros Hl. eexists. split; [now apply decode_4bpp_tile_rows|].
  pose proof (nibble_values_length tile_bytes) as Hn. rewrite Hl in Hn.
  split; [now rewrite length_map, length_seq|]. split.
  - intros y x Hy Hx.
    destruct (lookup_lt_is_Some_2 (nibble_values tile_bytes) (y * 8 + x))
      as [v Hv]; [lia|].
    exists (take 8 (drop (8 * y) (nibble_values tile_bytes))), v.
    split; [|split; [|split; [|split]]].
    + rewrite lookup_map, lookup_seq_lt by lia. reflexivity.
    + rewrite length_take, length_drop. lia.
    + rewrite lookup_take_lt by lia. rewrite lookup_drop.
      now replace (8 * y + x)%nat with (y * 8 + x)%nat by lia.
    + assumption.
    + eapply nibble_values_range, Hv.
  - intros rest ->. eexists. split; [reflexivity|]. split; reflexivity.
Qed.

Lemma decode_4bpp_tile_layout_witness :
  length tile_0x21 = 32%nat
  /\ exists grid, decode_4bpp_tile tile_0x21 = Ok grid
       /\ length grid = 8%nat
       /\ (forall y x : nat, (y < 8)%nat -> (x < 8)%nat ->
             exists row v, grid !! y = Some row /\ length row = 8%nat
               /\ row !! x = Some v
               /\ nibble_values tile_0x21 !! (y * 8 + x)%nat = Some v
               /\ 0 <= v < 16)
       /\ (forall rest, tile_0x21 = x21 :: rest ->
             exists row, grid !! 0%nat = Some row
               /\ row !! 0%nat = Some 1 /\ row !! 1%nat = Some 2).
Proof.
  split; [reflexivity|]. apply (decode_4bpp_tile_layout tile_0x21). reflexivity.
Defined.

(** ** parse_custom_oam_format *)

Lemma unpack_H_short_to (data : list byte) (off hi : Z) :
  0 <= off -> hi = off + 2 -> len data < hi ->
  unpack_H (slice data off hi) = Err StructError.
Proof. intros H0 -> H2. now apply unpack_H_short. Qed.

Lemma word_at_range (data : list byte) (off : Z) : 0 <= word_at data off < 65536.
Proof.
  unfold word_at.
  destruct (data !! Z.to_nat off) as [b0|]; [|lia].
  destruct (data !! Z.to_nat (off + 1)) as [b1|]; [|lia].
  pose proof (byte_val_range b0). pose proof (byte_val_range b1). lia.
Qed.

(** One iteration of the record loop when a whole record fits. *)
Lemma parse_set_step (data : list byte) (off : Z) :
  0 <= off -> off + 6 <= len data ->
  exists obj, record_at data off = Ok obj
    /\ (attr0 <- unpack_H (slice data off (off + 2)) ;;
        attr1 <- unpack_H (slice data (off + 2) (off + 4)) ;;
        attr2 <- unpack_H (slice data (off + 4) (off + 6)) ;;
        parse_oam_attrs attr0 attr1 attr2) = Ok obj.
Proof.
  intros H0 H6.
  rewrite (unpack_H_slice_to data off (off + 2)) by lia.
  rewrite (unpack_H_slice_to data (off + 2) (off + 4)) by lia.
  rewrite (unpack_H_slice_to data (off + 4) (off + 6)) by lia.
  cbn [bind]. fold (record_at data off).
  destruct (parse_oam_attrs_total (word_at data off) (word_at data (off + 2))
              (word_at data (off + 4))) as (obj & Hobj & _).
  exists obj. split; assumption.
Qed.

(** The record loop reads as many records as are declared and fit, and
    tags the [j]-th of them with the set number and [j]. *)
Lemma parse_set_loop (data : list byte) (set_no : Z)
    (body : Z -> Z * list oam_obj -> result (ctl (Z * list oam_obj))) :
  (forall i off acc,
      body i (off, acc)
      = if off + 6 >? len data then Ok (Break (off, acc))
        else obj <- (attr0 <- unpack_H (slice data off (off + 2)) ;;
                     attr1 <- unpack_H (slice data (off + 2) (off + 4)) ;;
                     attr2 <- unpack_H (slice data (off + 4) (off + 6)) ;;
                     parse_oam_attrs attr0 attr1 attr2) ;;
             Ok (Next (off + 6, acc ++ [tag_obj set_no i obj]))) ->
  forall (n a : nat) (off : Z) (acc : list oam_obj),
    0 <= off <= len data ->
    exists (m : nat) (news : list oam_obj),
      for_each (map Z.of_nat (seq a n)) (off, acc) body
      = Ok (off + 6 * Z.of_nat m, acc ++ news)
      /\ length news = m
      /\ Z.of_nat m = Z.min (Z.of_nat n) ((len data - off) / 6)
      /\ (forall j : nat, (j < m)%nat ->
            exists obj, record_at data (off + 6 * Z.of_nat j) = Ok obj
              /\ news !! j = Some (tag_obj set_no (Z.of_nat (a + j)) obj)).
Proof.
  intros Hbody.
  induction n as [|n IH]; intros a off acc Hoff.
  - exists 0%nat, []. simpl. rewrite Z.add_0_r, app_nil_r.
    split; [reflexivity|]. split; [reflexivity|]. split.
    + assert (0 <= (len data - off) / 6) by (apply Z.div_pos; lia). lia.
    + intros j Hj. lia.
  - cbn [seq map for_each]. rewrite Hbody.
    destruct (Z.gtb_spec (off + 6) (len data)) as [Hgt|Hle].
    + exists 0%nat, []. rewrite Z.add_0_r, app_nil_r.
      split; [reflexivity|]. split; [reflexivity|]. split.
      * assert ((len data - off) / 6 = 0) by (apply Z.div_small; lia). lia.
      * intros j Hj. lia.
    + destruct (parse_set_step data off) as (obj & Hrec & Hrun); try lia.
      rewrite Hrun. cbn [bind].
      destruct (IH (Datatypes.S a) (off + 6)
                  (acc ++ [tag_obj set_no (Z.of_nat a) obj]))
        as (m & news & Hf & Hlen & Hm & Hall); [lia|].
      exists (Datatypes.S m), (tag_obj set_no (Z.of_nat a) obj :: news).
      rewrite Hf. split; [|split; [|split]].
      * f_equal. f_equal; [lia|]. now rewrite <- app_assoc.
      * simpl. now rewrite Hlen.
      * replace ((len data - off) / 6) with ((len data - (off + 6)) / 6 + 1)
          by (Z.div_mod_to_equations; lia).
        lia.
      * intros [|j] Hj.
        -- exists obj. rewrite Z.mul_0_r, Z.add_0_r, Nat.add_0_r.
           split; [assumption | reflexivity].
        -- destruct (Hall j) as (o & Ho & Hn); [lia|].
           exists o. split.
           ++ now replace (off + 6 * Z.of_nat (Datatypes.S j))
                with (off + 6 + 6 * Z.of_nat j) by lia.
           ++ simpl. now replace (a + Datatypes.S j)%nat
                with (Datatypes.S a + j)%nat by lia.
Qed.

Lemma parse_set_spec (data : list byte) (set_no count off : Z) :
  0 <= off <= len data -> 0 <= count ->
  exists objs : list oam_obj,
    parse_set data set_no count off = Ok (off + 6 * len objs, objs)
    /\ len objs = Z.min count ((len data - off) / 6)
    /\ (forall j : nat, (j < length objs)%nat ->
          exists obj, record_at data (off + 6 * Z.of_nat j) = Ok obj
            /\ objs !! j = Some (tag_obj set_no (Z.of_nat j) obj)).
Proof.
  intros Hoff Hcount. unfold parse_set, range.
  match goal with
  | |- context [for_each _ _ ?b] =>
      destruct (parse_set_loop data set_no b) with
        (n := Z.to_nat count) (a := 0%nat) (off := off) (acc := @nil oam_obj)
        as (m & news & Hf & Hlen & Hm & Hall)
  end.
  - intros i o acc. cbn [fst snd].
    destruct (o + 6 >? len data); [reflexivity|].
    now rewrite bind_assoc3.
  - exact Hoff.
  - assert (len news = Z.of_nat m) as Hn by (unfold len; now rewrite Hlen).
    exists news. rewrite Hn, Hlen. split; [exact Hf|].
    split; [|exact Hall]. rewrite Hm, Z2Nat.id by lia. reflexivity.
Qed.

Lemma parse_custom_oam_format_short (oam_data : list byte) :
  len oam_data < 10 -> parse_custom_oam_format oam_data = Err StructError.
Proof.
  intros Hlen. unfold parse_custom_oam_format.
  pose proof (len_nonneg oam_data) as H0.
  destruct (Z_le_gt_dec 2 (len oam_data));
    [rewrite (unpack_H_slice_to oam_data 0 2) by lia
    | now rewrite (unpack_H_short_to oam_data 0 2) by lia].
  destruct (Z_le_gt_dec 4 (len oam_data));
    [rewrite (unpack_H_slice_to oam_data 2 4) by lia
    | now rewrite (unpack_H_short_to oam_data 2 4) by lia].
  destruct (Z_le_gt_dec 6 (len oam_data));
    [rewrite (unpack_H_slice_to oam_data 4 6) by lia
    | now rewrite (unpack_H_short_to oam_data 4 6) by lia].
  destruct (Z_le_gt_dec 8 (len oam_data));
    [rewrite (unpack_H_slice_to oam_data 6 8) by lia
    | now rewrite (unpack_H_short_to oam_data 6 8) by lia].
  now rewrite (unpack_H_short_to oam_data 8 10) by lia.
Qed.

Lemma tagged_lookup (data : list byte) (set_no off : Z)
    (objs : list oam_obj) :
  (forall j : nat, (j < length objs)%nat ->
     exists obj, record_at data (off + 6 * Z.of_nat j) = Ok obj
       /\ objs !! j = Some (tag_obj set_no (Z.of_nat j) obj)) ->
  forall (j : nat) (obj : oam_obj),
    objs !! j = Some obj ->
    o_set obj = Some set_no /\ o_index obj = Some (Z.of_nat j)
    /\ exists o, record_at data (off + 6 * Z.of_nat j) = Ok o
                 /\ obj = tag_obj set_no (Z.of_nat j) o.
Proof.
  intros Hall j obj Hj.
  destruct (Hall j) as (o & Ho & Hl); [now apply lookup_lt_Some in Hj|].
  rewrite Hj in Hl. injection Hl as ->.
  split; [reflexivity|]. split; [reflexivity|]. now exists o.
Qed.

(** A buffer that holds the whole header is always parsed. *)
Lemma parse_custom_oam_format_long (oam_data : list byte) :
  10 <= len oam_data ->
  exists header set1 set2,
    parse_custom_oam_format oam_data = Ok (header, set1, set2)
    /\ h_multiplier header = word_at oam_data 4
    /\ h_set1_count header = word_at oam_data 8
    /\ len set1 = Z.min (h_set1_count header) ((len oam_data - 10) / 6)
    /\ (let off := 10 + 6 * len set1 in
        len set2 = if off + 2 <=? len oam_data
                   then Z.min (word_at oam_data off)
                              ((len oam_data - (off + 2)) / 6)
                   else 0)
    /\ (forall (j : nat) obj, set1 !! j = Some obj ->
          o_set obj = Some 1 /\ o_index obj = Some (Z.of_nat j)
          /\ exists o, record_at oam_data (10 + 6 * Z.of_nat j) = Ok o
                       /\ obj = tag_obj 1 (Z.of_nat j) o)
    /\ (forall (j : nat) obj, set2 !! j = Some obj ->
          o_set obj = Some 2 /\ o_index obj = Some (Z.of_nat j)
          /\ exists o,
               record_at oam_data
                 (10 + 6 * len set1 + 2 + 6 * Z.of_nat j) = Ok o
               /\ obj = tag_obj 2 (Z.of_nat j) o).
Proof.
  intros Hlen. unfold parse_custom_oam_format.
  rewrite (unpack_H_slice_to oam_data 0 2) by lia.
  rewrite (unpack_H_slice_to oam_data 2 4) by lia.
  rewrite (unpack_H_slice_to oam_data 4 6) by lia.
  rewrite (unpack_H_slice_to oam_data 6 8) by lia.
  rewrite (unpack_H_slice_to oam_data 8 10) by lia.
  cbn [bind h_set1_count].
  pose proof (word_at_range oam_data 8) as Hc1.
  destruct (parse_set_spec oam_data 1 (word_at oam_data 8) 10)
    as (set1 & Hp1 & Hn1 & Hall1); try lia.
  rewrite Hp1. cbn [bind fst snd].
  pose proof (len_nonneg set1) as Hs1.
  assert (10 + 6 * len set1 <= len oam_data) as Hfit1.
  { assert (6 * ((len oam_data - 10) / 6) <= len oam_data - 10)
      by (Z.div_mod_to_equations; lia). lia. }
  destruct (Z.leb_spec (10 + 6 * len set1 + 2) (len oam_data)) as [Hle|Hgt].
  - rewrite (unpack_H_slice_to oam_data (10 + 6 * len set1)) by lia.
    cbn [bind].
    pose proof (word_at_range oam_data (10 + 6 * len set1)) as Hc2.
    destruct (parse_set_spec oam_data 2 (word_at oam_data (10 + 6 * len set1))
                (10 + 6 * len set1 + 2))
      as (set2 & Hp2 & Hn2 & Hall2); try lia.
    rewrite Hp2. cbn [bind snd].
    eexists _, set1, set2. split; [reflexivity|].
    cbn [h_set1_count h_multiplier]. split; [reflexivity|].
    split; [reflexivity|]. split; [assumption|].
    split; [|split].
    + cbv zeta. destruct (Z.leb_spec (10 + 6 * len set1 + 2) (len oam_data));
        [assumption | lia].
    + now apply tagged_lookup.
    + now apply tagged_lookup.
  - eexists _, set1, []. split; [reflexivity|].
    cbn [h_set1_count h_multiplier]. split; [reflexivity|].
    split; [reflexivity|]. split; [assumption|].
    split; [|split].
    + cbv zeta. destruct (Z.leb_spec (10 + 6 * len set1 + 2) (len oam_data));
        [lia | reflexivity].
    + now apply tagged_lookup.
    + intros j obj Hj. rewrite lookup_nil in Hj. discriminate.
Qed.


(** Every object the parsers produce is well formed, and so is the
    header's multiplier. *)
Lemma parse_oam_attrs_wf (attr0 attr1 attr2 : Z) (obj : oam_obj) :
  parse_oam_attrs attr0 attr1 attr2 = Ok obj -> wf_obj obj.
Proof.
  intros Hp.
  destruct (parse_oam_attrs_total attr0 attr1 attr2)
    as (o & Ho & _ & _ & Hw & Hh & _ & _ & Ht & Hn & _).
  rewrite Hp in Ho. injection Ho as <-. unfold wf_obj. lia.
Qed.

Lemma parse_custom_oam_format_wf (oam_data : list byte) (header : oam_header)
    (set1 set2 : list oam_obj) :
  parse_custom_oam_format oam_data = Ok (header, set1, set2) ->
  Forall wf_obj set1 /\ Forall wf_obj set2 /\ 0 <= h_multiplier header.
Proof.
  intros Hp.
  destruct (Z_lt_ge_dec (len oam_data) 10) as [Hlt|Hge].
  { rewrite parse_custom_oam_format_short in Hp by assumption. discriminate. }
  destruct (parse_custom_oam_format_long oam_data ltac:(lia))
    as (h & s1 & s2 & Hp' & Hm & _ & _ & _ & H1 & H2).
  rewrite Hp in Hp'. injection Hp' as <- <- <-.
  split; [|split].
  - apply Forall_lookup. intros j obj Hj.
    destruct (H1 j obj Hj) as (_ & _ & o & Ho & ->).
    exact (parse_oam_attrs_wf _ _ _ o Ho).
  - apply Forall_lookup. intros j obj Hj.
    destruct (H2 j obj Hj) as (_ & _ & o & Ho & ->).
    exact (parse_oam_attrs_wf _ _ _ o Ho).
  - rewrite Hm. apply word_at_range.
Qed.

(** C6: the document parser fails exactly on buffers of fewer than 10
    bytes; on any longer buffer it succeeds, each set holding as many
    complete 6-byte records as are declared and fit in the remaining
    bytes, and every object carries its set number and its zero-based
    index within that set. *)
Theorem parse_custom_oam_format_truncates (oam_data : list byte) :
  (len oam_data < 10 -> parse_custom_oam_format oam_data = Err StructError)
  /\ (10 <= len oam_data ->
      exists header set1 set2,
        parse_custom_oam_format oam_data = Ok (header, set1, set2)
        /\ h_set1_count header = word_at oam_data 8
        /\ len set1 = Z.min (h_set1_count header) ((len oam_data - 10) / 6)
        /\ (let off := 10 + 6 * len set1 in
            len set2 = if off + 2 <=? len oam_data
                       then Z.min (word_at oam_data off)
                                  ((len oam_data - (off + 2)) / 6)
                       else 0)
        /\ (forall (j : nat) obj, set1 !! j = Some obj ->
              o_set obj = Some 1 /\ o_index obj = Some (Z.of_nat j)
              /\ exists o, record_at oam_data (10 + 6 * Z.of_nat j) = Ok o
                           /\ obj = tag_obj 1 (Z.of_nat j) o)
        /\ (forall (j : nat) obj, set2 !! j = Some obj ->
              o_set obj = Some 2 /\ o_index obj = Some (Z.of_nat j)
              /\ exists o,
                   record_at oam_data
                     (10 + 6 * len set1 + 2 + 6 * Z.of_nat j) = Ok o
                   /\ obj = tag_obj 2 (Z.of_nat j) o)).
Proof.
  split; [apply parse_custom_oam_format_short|].
  intros Hlen.
  destruct (parse_custom_oam_format_long oam_data Hlen)
    as (header & set1 & set2 & Hp & _ & Hrest).
  now exists header, set1, set2.
Qed.

(** The spec's round trip: one Set-1 object tagged (1, 0), no Set-2
    object. *)
Example parse_doc_one_record :
  exists header obj,
    parse_custom_oam_format doc_one_record = Ok (header, [obj], [])
    /\ o_set obj = Some 1 /\ o_index obj = Some 0
    /\ o_x obj = -212 /\ o_y obj = -56 /\ h_multiplier header = 4.
Proof. do 2 eexists. split; [reflexivity|]. repeat split. Qed.

(** ** Images *)

Lemma in_image_spec (img : Image) (x y : Z) :
  in_image img x y = true
  <-> 0 <= x < im_width img /\ 0 <= y < im_height img.
Proof.
  unfold in_image. rewrite !andb_true_iff, !Z.leb_le, !Z.ltb_lt. lia.
Qed.

Lemma pixel_at_outside (img : Image) (x y : Z) :
  ~ (0 <= x < im_width img /\ 0 <= y < im_height img) ->
  pixel_at img x y = None.
Proof.
  intros Hout. unfold pixel_at.
  destruct (in_image img x y) eqn:Hin; [|reflexivity].
  apply in_image_spec in Hin. contradiction.
Qed.

Lemma pixel_at_inside (img : Image) (x y : Z) :
  wf_image img -> 0 <= x < im_width img -> 0 <= y < im_height img ->
  exists row p, im_rows img !! Z.to_nat y = Some row
                /\ row !! Z.to_nat x = Some p
                /\ pixel_at img x y = Some p.
Proof.
  intros (Hw & Hh & Hrows & Hrow) Hx Hy. unfold pixel_at.
  replace (in_image img x y) with true
    by (symmetry; apply in_image_spec; lia).
  destruct (lookup_lt_is_Some_2 (im_rows img) (Z.to_nat y)) as [row Hr];
    [lia|].
  destruct (lookup_lt_is_Some_2 row (Z.to_nat x)) as [p Hp];
    [rewrite (Hrow _ _ Hr); lia|].
  exists row, p. rewrite Hr. auto.
Qed.

Lemma Image_new_spec (w h : Z) (c : rgba) :
  0 <= w -> 0 <= h ->
  exists img, Image_new w h c = Ok img
    /\ wf_image img /\ im_width img = w /\ im_height img = h
    /\ (forall x y, 0 <= x < w -> 0 <= y < h -> pixel_at img x y = Some c).
Proof.
  intros Hw Hh. unfold Image_new.
  destruct (Z.ltb_spec w 0), (Z.ltb_spec h 0); try lia. cbn [orb].
  eexists. split; [reflexivity|]. cbn [im_width im_height].
  split; [|split; [reflexivity|split; [reflexivity|]]].
  - unfold wf_image. cbn [im_width im_height im_rows].
    split; [assumption|]. split; [assumption|].
    split; [apply length_replicate|].
    intros i row Hr. apply lookup_replicate in Hr as [-> _].
    apply length_replicate.
  - intros x y Hx Hy. unfold pixel_at.
    replace (in_image _ x y) with true
      by (symmetry; apply in_image_spec; cbn; lia).
    cbn [im_rows]. rewrite lookup_replicate_2 by lia.
    apply lookup_replicate_2. lia.
Qed.

Lemma Image_new_negative (w h : Z) (c : rgba) :
  w < 0 \/ h < 0 -> Image_new w h c = Err ValueError.
Proof.
  intros Hneg. unfold Image_new.
  destruct (Z.ltb_spec w 0), (Z.ltb_spec h 0); try reflexivity; lia.
Qed.

Lemma putpixel_spec (img : Image) (x y : Z) (c : rgba) :
  wf_image img -> 0 <= x < im_width img -> 0 <= y < im_height img ->
  exists img', putpixel img x y c = Ok img'
    /\ wf_image img'
    /\ im_width img' = im_width img /\ im_height img' = im_height img
    /\ (forall x' y', pixel_at img' x' y'
          = if (x' =? x) && (y' =? y) then Some c else pixel_at img x' y').
Proof.
  intros Hwf Hx Hy. pose proof Hwf as (Hw & Hh & Hrows & Hrow).
  unfold putpixel.
  destruct (Z.ltb_spec x 0), (Z.ltb_spec y 0); try lia.
  replace (in_image img x y) with true
    by (symmetry; apply in_image_spec; lia).
  eexists. split; [reflexivity|]. cbn [im_width im_height].
  split; [|split; [reflexivity|split; [reflexivity|]]].
  - unfold wf_image. cbn [im_width im_height im_rows].
    split; [assumption|]. split; [assumption|].
    split; [now rewrite length_alter|].
    intros i row Hr. rewrite list_lookup_alter in Hr.
    destruct (decide (Z.to_nat y = i)) as [<-|Hne].
    + destruct (im_rows img !! Z.to_nat y) as [r|] eqn:Hr0; [|discriminate].
      injection Hr as <-. rewrite length_insert. eauto.
    + eauto.
  - intros x' y'. unfold pixel_at, in_image. cbn [im_width im_height im_rows].
    destruct ((0 <=? x') && (x' <? im_width img) && (0 <=? y')
              && (y' <? im_height img)) eqn:Hin.
    2:{ destruct ((x' =? x) && (y' =? y)) eqn:Heq; [|reflexivity].
        apply andb_true_iff in Heq as [Hx' Hy'].
        apply Z.eqb_eq in Hx', Hy'. subst.
        assert (in_image img x y = true) as Hin'
          by (apply in_image_spec; lia).
        unfold in_image in Hin'. congruence. }
    assert (0 <= x' < im_width img /\ 0 <= y' < im_height img) as [Hx' Hy']
      by (now apply in_image_spec).
    rewrite list_lookup_alter.
    destruct (Z.eqb_spec y' y) as [->|Hny].
    + rewrite decide_True by reflexivity.
      destruct (im_rows img !! Z.to_nat y) as [r|] eqn:Hr0.
      * cbn [fmap option_fmap option_map].
        destruct (Z.eqb_spec x' x) as [->|Hnx]; cbn [andb].
        -- apply list_lookup_insert_eq. rewrite (Hrow _ _ Hr0). lia.
        -- apply list_lookup_insert_ne. lia.
      * apply lookup_ge_None in Hr0. lia.
    + rewrite decide_False by lia. now rewrite andb_false_r.
Qed.

Lemma paste_spec (canvas src mask : Image) (ox oy : Z) :
  wf_image canvas ->
  wf_image (paste canvas src ox oy mask)
  /\ im_width (paste canvas src ox oy mask) = im_width canvas
  /\ im_height (paste canvas src ox oy mask) = im_height canvas
  /\ (forall X Y,
        pixel_at (paste canvas src ox oy mask) X Y
        = match pixel_at canvas X Y with
          | None => None
          | Some d =>
              match pixel_at src (X - ox) (Y - oy),
                    pixel_at mask (X - ox) (Y - oy) with
              | Some s, Some m => Some (paste_pixel m s d)
              | _, _ => Some d
              end
          end).
Proof.
  intros (Hw & Hh & Hrows & Hrow).
  split; [|split; [reflexivity|split; [reflexivity|]]].
  - unfold wf_image, paste. cbn [im_width im_height im_rows].
    split; [assumption|]. split; [assumption|].
    split; [now rewrite length_imap|].
    intros i row Hr. rewrite list_lookup_imap in Hr.
    destruct (im_rows canvas !! i) as [r|] eqn:Hr0; [|discriminate].
    injection Hr as <-. rewrite length_imap. eauto.
  - intros X Y. unfold pixel_at at 1 2. unfold in_image, paste.
    cbn [im_width im_height im_rows].
    destruct ((0 <=? X) && (X <? im_width canvas) && (0 <=? Y)
              && (Y <? im_height canvas)) eqn:Hin; [|reflexivity].
    assert (0 <= X < im_width canvas /\ 0 <= Y < im_height canvas)
      as [HX HY] by (now apply in_image_spec).
    rewrite list_lookup_imap.
    destruct (im_rows canvas !! Z.to_nat Y) as [r|]; [|reflexivity].
    cbn [fmap option_fmap option_map]. rewrite list_lookup_imap.
    destruct (r !! Z.to_nat X) as [d|]; [|reflexivity].
    cbn [fmap option_fmap option_map]. rewrite !Z2Nat.id by lia.
    destruct (pixel_at src (X - ox) (Y - oy)),
             (pixel_at mask (X - ox) (Y - oy)); reflexivity.
Qed.

(** ** render_sprite *)

Lemma nibble_values_lookup (l : list byte) :
  forall i : nat,
    nibble_values l !! (2 * i)%nat = (fun b => byte_val b mod 16) <$> l !! i
    /\ nibble_values l !! (2 * i + 1)%nat
       = (fun b => byte_val b / 16) <$> l !! i.
Proof.
  induction l as [|b l IH]; intros i.
  - split; reflexivity.
  - destruct i as [|i].
    + split; reflexivity.
    + replace (2 * Datatypes.S i)%nat with (Datatypes.S (Datatypes.S (2 * i)))
        by lia.
      destruct (IH i) as [He Ho]. split; [exact He|].
      exact Ho.
Qed.

Lemma index_ok {A} (l : list A) (i : Z) (a : A) :
  0 <= i -> l !! Z.to_nat i = Some a -> index l i = Ok a.
Proof.
  intros Hi Ha. unfold index.
  destruct (Z.ltb_spec i 0); [lia|].
  pose proof (lookup_lt_Some _ _ _ Ha) as Hlt.
  destruct (Z.ltb_spec i 0); [lia|].
  destruct (Z.leb_spec (len l) i); [unfold len in *; lia|].
  cbn [orb]. now rewrite Ha.
Qed.

Lemma tile_value_range (tile_data : list byte) (off j : Z) :
  0 <= tile_value tile_data off j < 16.
Proof.
  unfold tile_value.
  destruct (tile_data !! Z.to_nat (off + j / 2)) as [b|]; [|lia].
  pose proof (byte_val_range b).
  destruct (Z.even j); Z.div_mod_to_equations; lia.
Qed.

(** Decoding the tile at byte [off] and reading entry [(py, px)] gives
    the nibble the spec names. *)
Lemma decode_tile_at (tile_data : list byte) (off : Z) :
  0 <= off -> off + 32 <= len tile_data ->
  exists tile,
    decode_4bpp_tile (slice tile_data off (off + 32)) = Ok tile
    /\ (forall py px, 0 <= py < 8 -> 0 <= px < 8 ->
          exists row, index tile py = Ok row
            /\ index row px = Ok (tile_value tile_data off (py * 8 + px))).
Proof.
  intros H0 H32.
  pose proof (slice_length tile_data off (off + 32) ltac:(lia) H32) as Hl.
  replace (Z.to_nat (off + 32 - off)) with 32%nat in Hl by lia.
  eexists. split; [now apply decode_4bpp_tile_rows|].
  intros py px Hpy Hpx.
  set (vals := nibble_values (slice tile_data off (off + 32))).
  assert (length vals = 64%nat) as Hv
    by (unfold vals; rewrite nibble_values_length; lia).
  exists (take 8 (drop (8 * Z.to_nat py) vals)). split.
  - apply index_ok; [lia|].
    rewrite lookup_map, lookup_seq_lt by lia. reflexivity.
  - apply index_ok; [lia|].
    rewrite lookup_take_lt by lia. rewrite lookup_drop.
    set (j := (py * 8 + px)).
    replace (8 * Z.to_nat py + Z.to_nat px)%nat with (Z.to_nat j)
      by (unfold j; lia).
    assert (0 <= j < 64) as Hj by (unfold j; lia).
    unfold tile_value.
    assert (slice tile_data off (off + 32) !! Z.to_nat (j / 2)
            = tile_data !! Z.to_nat (off + j / 2)) as Hs.
    { rewrite slice_lookup; try lia.
      - f_equal. Z.div_mod_to_equations; lia.
      - Z.div_mod_to_equations; lia. }
    destruct (nibble_values_lookup (slice tile_data off (off + 32))
                (Z.to_nat (j / 2))) as [He Ho].
    rewrite Hs in He, Ho. fold vals in He, Ho.
    destruct (Z.even j) eqn:Hev.
    + apply Z.even_spec in Hev as [q Hq].
      replace (Z.to_nat j) with (2 * Z.to_nat (j / 2))%nat
        by (Z.div_mod_to_equations; lia).
      rewrite He.
      destruct (lookup_lt_is_Some_2 tile_data (Z.to_nat (off + j / 2)))
        as [b Hb]; [unfold len in *; Z.div_mod_to_equations; lia|].
      now rewrite Hb.
    + assert (Z.odd j = true) as Hod by (now rewrite <- Z.negb_even, Hev).
      apply Z.odd_spec in Hod as [q Hq].
      replace (Z.to_nat j) with (2 * Z.to_nat (j / 2) + 1)%nat
        by (Z.div_mod_to_equations; lia).
      rewrite Ho.
      destruct (lookup_lt_is_Some_2 tile_data (Z.to_nat (off + j / 2)))
        as [b Hb]; [unfold len in *; Z.div_mod_to_equations; lia|].
      now rewrite Hb.
Qed.

Section Render.
Variables (tile_data : list byte) (obj : oam_obj) (palette : list color)
          (mult : Z) (show : bool).
Hypothesis Hwidth : 0 <= o_width obj.
Hypothesis Hheight : 0 <= o_height obj.
Hypothesis Hstart : 0 <= o_tile_number obj * mult.

Local Abbreviation W := (o_width obj).
Local Abbreviation H := (o_height obj).
Local Abbreviation tw := (o_width obj / 8).
Local Abbreviation th := (o_height obj / 8).
Local Abbreviation RA := (raster_after tile_data obj palette mult show).
Local Abbreviation PP := (partial_pixel tile_data obj palette mult show).
Local Abbreviation SP := (sprite_pixel tile_data obj palette mult show).

Lemma unflip_x_range (X : Z) : 0 <= X < W -> 0 <= unflip_x obj X < W.
Proof. unfold unflip_x. destruct (truthy (o_h_flip obj)); lia. Qed.

Lemma unflip_y_range (Y : Z) : 0 <= Y < H -> 0 <= unflip_y obj Y < H.
Proof. unfold unflip_y. destruct (truthy (o_v_flip obj)); lia. Qed.

Lemma unflip_x_involutive (X : Z) : unflip_x obj (unflip_x obj X) = X.
Proof. unfold unflip_x. destruct (truthy (o_h_flip obj)); lia. Qed.

Lemma unflip_y_involutive (Y : Z) : unflip_y obj (unflip_y obj Y) = Y.
Proof. unfold unflip_y. destruct (truthy (o_v_flip obj)); lia. Qed.

Lemma in_cells_spec (x y : Z) :
  in_cells obj x y = true <-> 0 <= x < 8 * tw /\ 0 <= y < 8 * th.
Proof.
  unfold in_cells. rewrite !andb_true_iff, !Z.leb_le, !Z.ltb_lt. lia.
Qed.

Lemma tiles_fit : 0 <= tw /\ 8 * tw <= W /\ 0 <= th /\ 8 * th <= H.
Proof. Z.div_mod_to_equations; lia. Qed.

Lemma cell_of_at (tx ty px py : Z) :
  0 <= px < 8 -> 0 <= py < 8 ->
  cell_of obj (tx * 8 + px) (ty * 8 + py) = ty * tw + tx
  /\ (tx * 8 + px) mod 8 = px /\ (ty * 8 + py) mod 8 = py.
Proof.
  intros Hpx Hpy. unfold cell_of.
  assert ((tx * 8 + px) / 8 = tx) as -> by (Z.div_mod_to_equations; lia).
  assert ((ty * 8 + py) / 8 = ty) as -> by (Z.div_mod_to_equations; lia).
  split; [reflexivity|]. split; Z.div_mod_to_equations; lia.
Qed.

Lemma cell_of_bounds (x y : Z) :
  in_cells obj x y = true -> 0 <= cell_of obj x y < th * tw.
Proof.
  intros Hin. apply in_cells_spec in Hin as [Hx Hy]. unfold cell_of.
  assert (0 <= x / 8 < tw) by (Z.div_mod_to_equations; lia).
  assert (0 <= y / 8 < th) by (Z.div_mod_to_equations; lia).
  nia.
Qed.

(** A pixel of the cell area is visited at step [n] only if it is the
    pixel the loop indices name. *)
Lemma visit_order_unique (X Y tx ty px py : Z) :
  in_cells obj (unflip_x obj X) (unflip_y obj Y) = true ->
  0 <= tx < tw -> 0 <= ty -> 0 <= px < 8 -> 0 <= py < 8 ->
  visit_order obj X Y = ((ty * tw + tx) * 8 + py) * 8 + px ->
  unflip_x obj X = tx * 8 + px /\ unflip_y obj Y = ty * 8 + py.
Proof.
  intros Hin Htx Hty Hpx Hpy. unfold visit_order, cell_of.
  apply in_cells_spec in Hin as [Hx Hy].
  set (x := unflip_x obj X) in *. set (y := unflip_y obj Y) in *.
  pose proof (Z.div_mod x 8 ltac:(lia)) as Ex.
  pose proof (Z.div_mod y 8 ltac:(lia)) as Ey.
  pose proof (Z.mod_pos_bound x 8 ltac:(lia)) as Bx.
  pose proof (Z.mod_pos_bound y 8 ltac:(lia)) as By.
  set (qx := x / 8) in *. set (rx := x mod 8) in *.
  set (qy := y / 8) in *. set (ry := y mod 8) in *.
  intros Heq.
  assert (0 <= qx < tw) by lia.
  assert (qy * tw + qx = ty * tw + tx /\ ry = py /\ rx = px)
    as (Hc & -> & ->) by lia.
  assert (qy = ty) by nia.
  subst qy. lia.
Qed.

Lemma visit_order_nonneg (X Y : Z) :
  0 <= X < W -> 0 <= Y < H -> 0 <= visit_order obj X Y.
Proof.
  intros HX HY. unfold visit_order, cell_of.
  pose proof (unflip_x_range X HX). pose proof (unflip_y_range Y HY).
  pose proof tiles_fit.
  assert (0 <= unflip_x obj X / 8) by (apply Z.div_pos; lia).
  assert (0 <= unflip_y obj Y / 8) by (apply Z.div_pos; lia).
  pose proof (Z.mod_pos_bound (unflip_x obj X) 8 ltac:(lia)).
  pose proof (Z.mod_pos_bound (unflip_y obj Y) 8 ltac:(lia)).
  nia.
Qed.

Lemma sprite_pixel_outside_cells (X Y : Z) :
  in_cells obj (unflip_x obj X) (unflip_y obj Y) = false ->
  SP X Y = background show.
Proof. intros Hout. unfold sprite_pixel. now rewrite Hout. Qed.


Lemma sprite_pixel_target (tx ty px py : Z) :
  0 <= tx < tw -> 0 <= ty < th -> 0 <= px < 8 -> 0 <= py < 8 ->
  SP (unflip_x obj (tx * 8 + px)) (unflip_y obj (ty * 8 + py))
  = if (o_tile_number obj * mult + (ty * tw + tx)) * 32 + 32
       >? len tile_data
    then background show
    else shade palette show
           (tile_value tile_data
              ((o_tile_number obj * mult + (ty * tw + tx)) * 32)
              (py * 8 + px)).
Proof.
  intros Htx Hty Hpx Hpy. unfold sprite_pixel.
  rewrite unflip_x_involutive, unflip_y_involutive.
  replace (in_cells obj (tx * 8 + px) (ty * 8 + py)) with true
    by (symmetry; apply in_cells_spec; lia).
  destruct (cell_of_at tx ty px py Hpx Hpy) as (-> & -> & ->).
  reflexivity.
Qed.

(** Visiting one pixel changes the raster at that pixel only. *)
Lemma partial_pixel_step (tx ty px py X Y : Z) :
  0 <= tx < tw -> 0 <= ty < th -> 0 <= px < 8 -> 0 <= py < 8 ->
  0 <= X < W -> 0 <= Y < H ->
  PP ((((ty * tw + tx) * 8 + py) * 8 + px) + 1) X Y
  = if (X =? unflip_x obj (tx * 8 + px)) && (Y =? unflip_y obj (ty * 8 + py))
    then SP (unflip_x obj (tx * 8 + px)) (unflip_y obj (ty * 8 + py))
    else PP (((ty * tw + tx) * 8 + py) * 8 + px) X Y.
Proof.
  intros Htx Hty Hpx Hpy HX HY. unfold partial_pixel.
  set (N := ((ty * tw + tx) * 8 + py) * 8 + px).
  destruct (Z.eqb_spec X (unflip_x obj (tx * 8 + px))) as [->|HnX];
    [destruct (Z.eqb_spec Y (unflip_y obj (ty * 8 + py))) as [->|HnY]|];
    cbn [andb].
  - assert (visit_order obj (unflip_x obj (tx * 8 + px))
              (unflip_y obj (ty * 8 + py)) = N) as ->.
    { unfold visit_order.
      rewrite unflip_x_involutive, unflip_y_involutive.
      destruct (cell_of_at tx ty px py Hpx Hpy) as (-> & -> & ->).
      unfold N. lia. }
    destruct (Z.ltb_spec N (N + 1)); [reflexivity | lia].
  - destruct (Z.ltb_spec (visit_order obj (unflip_x obj (tx * 8 + px)) Y) N),
             (Z.ltb_spec (visit_order obj (unflip_x obj (tx * 8 + px)) Y)
                         (N + 1)); try reflexivity; try lia.
    destruct (in_cells obj (unflip_x obj (unflip_x obj (tx * 8 + px)))
                (unflip_y obj Y)) eqn:Hin.
    + destruct (visit_order_unique _ Y tx ty px py Hin) as [_ Hy];
        try lia.
      exfalso. apply HnY. now rewrite <- Hy, unflip_y_involutive.
    + now apply sprite_pixel_outside_cells.
  - destruct (Z.ltb_spec (visit_order obj X Y) N),
             (Z.ltb_spec (visit_order obj X Y) (N + 1));
      try reflexivity; try lia.
    destruct (in_cells obj (unflip_x obj X) (unflip_y obj Y)) eqn:Hin.
    + destruct (visit_order_unique X Y tx ty px py Hin) as [Hx _];
        try lia.
      exfalso. apply HnX. now rewrite <- Hx, unflip_x_involutive.
    + now apply sprite_pixel_outside_cells.
Qed.

(** Skipping a cell whose tile does not fit leaves the raster as it
    is, and that is what the cell shows. *)
Lemma partial_pixel_skip (k X Y : Z) :
  (o_tile_number obj * mult + k) * 32 + 32 > len tile_data ->
  PP ((k + 1) * 64) X Y = PP (k * 64) X Y.
Proof.
  intros Hskip. unfold partial_pixel.
  destruct (Z.ltb_spec (visit_order obj X Y) (k * 64)),
           (Z.ltb_spec (visit_order obj X Y) ((k + 1) * 64));
    try reflexivity; try lia.
  unfold sprite_pixel.
  destruct (in_cells obj (unflip_x obj X) (unflip_y obj Y)); [|reflexivity].
  unfold visit_order in *.
  pose proof (Z.mod_pos_bound (unflip_x obj X) 8 ltac:(lia)).
  pose proof (Z.mod_pos_bound (unflip_y obj Y) 8 ltac:(lia)).
  assert (cell_of obj (unflip_x obj X) (unflip_y obj Y) = k) as -> by lia.
  destruct (Z.gtb_spec ((o_tile_number obj * mult + k) * 32 + 32)
                       (len tile_data)); [reflexivity | lia].
Qed.

Lemma partial_pixel_all (X Y : Z) : PP (th * tw * 64) X Y = SP X Y.
Proof.
  unfold partial_pixel.
  destruct (Z.ltb_spec (visit_order obj X Y) (th * tw * 64));
    [reflexivity|].
  destruct (in_cells obj (unflip_x obj X) (unflip_y obj Y)) eqn:Hin.
  - pose proof (cell_of_bounds _ _ Hin). unfold visit_order in *.
    pose proof (Z.mod_pos_bound (unflip_x obj X) 8 ltac:(lia)).
    pose proof (Z.mod_pos_bound (unflip_y obj Y) 8 ltac:(lia)).
    lia.
  - symmetry. now apply sprite_pixel_outside_cells.
Qed.

Lemma raster_after_same (n n' : Z) (img : Image) :
  RA n img ->
  (forall X Y, 0 <= X < W -> 0 <= Y < H -> PP n' X Y = PP n X Y) ->
  RA n' img.
Proof.
  intros (Hwf & Hw & Hh & Hpix) Hsame.
  split; [assumption|]. split; [assumption|]. split; [assumption|].
  intros X Y HX HY. rewrite Hsame by assumption. now apply Hpix.
Qed.

Lemma raster_after_put (n n' Xt Yt : Z) (c : rgba) (img : Image) :
  RA n img -> 0 <= Xt < W -> 0 <= Yt < H ->
  (forall X Y, 0 <= X < W -> 0 <= Y < H ->
     PP n' X Y = if (X =? Xt) && (Y =? Yt) then c else PP n X Y) ->
  exists img', putpixel img Xt Yt c = Ok img' /\ RA n' img'.
Proof.
  intros (Hwf & Hw & Hh & Hpix) HXt HYt Hnew.
  destruct (putpixel_spec img Xt Yt c Hwf) as (img' & Hput & Hwf' & Hw' & Hh' & Hpix');
    [lia | lia |].
  exists img'. split; [assumption|].
  split; [assumption|]. split; [congruence|]. split; [congruence|].
  intros X Y HX HY. rewrite Hpix', Hnew by assumption.
  destruct ((X =? Xt) && (Y =? Yt)); [reflexivity|]. now apply Hpix.
Qed.


Lemma partial_pixel_target_before (tx ty px py : Z) :
  0 <= px < 8 -> 0 <= py < 8 ->
  PP (((ty * tw + tx) * 8 + py) * 8 + px)
     (unflip_x obj (tx * 8 + px)) (unflip_y obj (ty * 8 + py))
  = background show.
Proof.
  intros Hpx Hpy. unfold partial_pixel, visit_order.
  rewrite unflip_x_involutive, unflip_y_involutive.
  destruct (cell_of_at tx ty px py Hpx Hpy) as (-> & -> & ->).
  match goal with |- (if ?a <? ?b then _ else _) = _ =>
    destruct (Z.ltb_spec a b); [lia | reflexivity] end.
Qed.

(** A visit that writes nothing, because the pixel shows nothing. *)
Lemma partial_pixel_step_blank (tx ty px py X Y : Z) :
  0 <= tx < tw -> 0 <= ty < th -> 0 <= px < 8 -> 0 <= py < 8 ->
  0 <= X < W -> 0 <= Y < H ->
  SP (unflip_x obj (tx * 8 + px)) (unflip_y obj (ty * 8 + py))
  = background show ->
  PP ((((ty * tw + tx) * 8 + py) * 8 + px) + 1) X Y
  = PP (((ty * tw + tx) * 8 + py) * 8 + px) X Y.
Proof.
  intros Htx Hty Hpx Hpy HX HY Hblank.
  rewrite partial_pixel_step by assumption.
  destruct (Z.eqb_spec X (unflip_x obj (tx * 8 + px))) as [->|];
    [|reflexivity].
  destruct (Z.eqb_spec Y (unflip_y obj (ty * 8 + py))) as [->|];
    [|reflexivity].
  cbn [andb]. now rewrite Hblank, partial_pixel_target_before.
Qed.

Lemma shade_blank (v : Z) :
  0 <= v ->
  negb show && (v =? 0) = true \/ len palette <= v ->
  shade palette show v = background show.
Proof.
  intros Hv Hcase. unfold shade.
  destruct (negb show && (v =? 0)); [reflexivity|].
  destruct Hcase as [|Hge]; [discriminate|].
  destruct (palette !! Z.to_nat v) eqn:Hc; [|reflexivity].
  apply lookup_lt_Some in Hc. unfold len in Hge. lia.
Qed.

(** The renderer returns, and what it returns is the raster the spec
    describes. *)
Lemma render_sprite_raster :
  exists img,
    render_sprite tile_data obj palette mult show = Ok img
    /\ wf_image img /\ im_width img = W /\ im_height img = H
    /\ (forall X Y, 0 <= X < W -> 0 <= Y < H ->
          pixel_at img X Y = Some (SP X Y)).
Proof.
  pose proof tiles_fit as (Htw & Htw8 & Hth & Hth8).
  unfold render_sprite. cbv zeta.
  destruct (Image_new_spec W H (background show) Hwidth Hheight)
    as (img0 & Hnew & Hwf0 & Hw0 & Hh0 & Hpix0).
  match goal with
  | |- context [bind (if show then ?a else ?b) _] =>
      replace (if show then a else b) with (Ok img0)
        by (destruct show; symmetry; exact Hnew)
  end.
  cbn [bind].
  match goal with
  | |- context [for_each (range ?n) ?s ?b] =>
      destruct (for_range_inv
                  (fun ty st => snd st = ty * tw /\ RA (ty * tw * 64) (fst st))
                  b n s) as (st & Hloop & Hnum & Hst)
  end.
  { assumption. }
  { cbn [fst snd]. split; [lia|].
    split; [assumption|]. split; [assumption|]. split; [assumption|].
    intros X Y HX HY. rewrite Hpix0 by assumption. f_equal.
    unfold partial_pixel. pose proof (visit_order_nonneg X Y HX HY).
    match goal with |- _ = (if ?a <? ?b then _ else _) =>
      destruct (Z.ltb_spec a b); [lia | reflexivity] end. }
  2:{ rewrite Hloop. cbn [bind]. exists (fst st).
      destruct Hst as (Hwf & Hw & Hh & Hpix).
      split; [reflexivity|]. split; [assumption|].
      split; [assumption|]. split; [assumption|].
      intros X Y HX HY. rewrite Hpix by assumption.
      now rewrite partial_pixel_all. }
  intros ty st Hty (Hnum & Hst). cbv beta.
  match goal with
  | |- context [for_each (range ?n) ?s ?b] =>
      destruct (for_range_inv
                  (fun tx st => snd st = ty * tw + tx
                                /\ RA ((ty * tw + tx) * 64) (fst st))
                  b n s) as (st1 & Hloop1 & Hnum1 & Hst1)
  end.
  { assumption. }
  { split; [lia|]. now replace ((ty * tw + 0) * 64) with (ty * tw * 64) by lia. }
  2:{ rewrite Hloop1. cbn [bind]. exists st1. split; [reflexivity|].
      split; [lia|].
      now replace ((ty + 1) * tw * 64) with ((ty * tw + tw) * 64) by lia. }
  clear st Hnum Hst.
  intros tx [img tile_num] Htx (Hnum & Hst). cbn [fst snd] in *. subst tile_num.
  assert (0 <= ty * tw) as Hrow by nia.
  set (k := ty * tw + tx) in *.
  destruct (Z.gtb_spec ((o_tile_number obj * mult + k) * 32 + 32)
                       (len tile_data)) as [Hskip|Hfit].
  { exists (img, k + 1). split; [reflexivity|]. cbn [fst snd].
    split; [unfold k; lia|].
    replace (ty * tw + (tx + 1)) with (k + 1) by (unfold k; lia).
    apply (raster_after_same (k * 64)); [assumption|].
    intros X Y _ _. apply partial_pixel_skip. lia. }
  destruct (decode_tile_at tile_data ((o_tile_number obj * mult + k) * 32))
    as (tile & Hdec & Hidx); [unfold k; lia | lia |].
  rewrite Hdec. cbn [bind].
  match goal with
  | |- context [for_each (range ?n) ?s ?b] =>
      destruct (for_range_inv (fun py img => RA ((k * 8 + py) * 8) img)
                  b n s) as (img1 & Hloop2 & Himg1)
  end.
  { lia. }
  { now replace ((k * 8 + 0) * 8) with (k * 64) by lia. }
  2:{ rewrite Hloop2. cbn [bind]. exists (img1, k + 1).
      split; [reflexivity|]. cbn [fst snd]. split; [unfold k; lia|].
      replace (ty * tw + (tx + 1)) with (k + 1) by (unfold k; lia).
      now replace ((k + 1) * 64) with ((k * 8 + 8) * 8) by lia. }
  clear img Hst.
  intros py img Hpy Hst. cbv beta.
  match goal with
  | |- context [for_each (range ?n) ?s ?b] =>
      destruct (for_range_inv (fun px img => RA ((k * 8 + py) * 8 + px) img)
                  b n s) as (img2 & Hloop3 & Himg2)
  end.
  { lia. }
  { now rewrite Z.add_0_r. }
  2:{ rewrite Hloop3. cbn [bind]. exists img2. split; [reflexivity|].
      now replace ((k * 8 + (py + 1)) * 8) with ((k * 8 + py) * 8 + 8) by lia. }
  clear img Hst.
  intros px img Hpx Hst. cbv beta.
  replace ((k * 8 + py) * 8 + (px + 1)) with ((k * 8 + py) * 8 + px + 1)
    by lia.
  destruct (Hidx py px Hpy Hpx) as (row & Hrow_ok & Hval).
  rewrite Hrow_ok. cbn [bind]. rewrite Hval. cbn [bind].
  set (v := tile_value tile_data ((o_tile_number obj * mult + k) * 32)
                       (py * 8 + px)) in *.
  pose proof (tile_value_range tile_data
                ((o_tile_number obj * mult + k) * 32) (py * 8 + px)) as Hv.
  fold v in Hv.
  pose proof (sprite_pixel_target tx ty px py Htx Hty Hpx Hpy) as Htarget.
  fold k in Htarget. fold v in Htarget.
  destruct (Z.gtb_spec ((o_tile_number obj * mult + k) * 32 + 32)
                       (len tile_data)) as [|_] in Htarget; [lia|].
  destruct (negb show && (v =? 0)) eqn:Hzero.
  { exists img. split; [reflexivity|].
    apply (raster_after_same ((k * 8 + py) * 8 + px)); [assumption|].
    intros X Y HX HY.
    apply (partial_pixel_step_blank tx ty px py X Y); try assumption.
    rewrite Htarget. apply shade_blank; [lia|]. now left. }
  destruct (Z.geb_spec v (len palette)) as [Hbig|Hsmall].
  { exists img. split; [reflexivity|].
    apply (raster_after_same ((k * 8 + py) * 8 + px)); [assumption|].
    intros X Y HX HY.
    apply (partial_pixel_step_blank tx ty px py X Y); try assumption.
    rewrite Htarget. apply shade_blank; [lia|]. now right. }
  destruct (lookup_lt_is_Some_2 palette (Z.to_nat v)) as [c Hc];
    [unfold len in Hsmall; lia|].
  rewrite (index_ok palette v c) by (lia || assumption). cbn [bind].
  pose proof (unflip_x_range (tx * 8 + px) ltac:(lia)) as HXt.
  pose proof (unflip_y_range (ty * 8 + py) ltac:(lia)) as HYt.
  destruct (raster_after_put ((k * 8 + py) * 8 + px) ((k * 8 + py) * 8 + px + 1)
              (unflip_x obj (tx * 8 + px)) (unflip_y obj (ty * 8 + py))
              (c, 255) img Hst HXt HYt) as (img' & Hput & Himg').
  { intros X Y HX HY. unfold k. rewrite partial_pixel_step by assumption.
    fold k. rewrite Htarget. unfold shade. rewrite Hzero, Hc. reflexivity. }
  unfold unflip_x, unflip_y in Hput. rewrite Hput. cbn [bind].
  exists img'. split; [reflexivity | assumption].
Qed.

End Render.

(** ** reconstruct_portrait *)

Lemma for_each_inv {E S} (I : S -> Prop) (body : E -> S -> result (ctl S))
    (l : list E) :
  forall s,
    I s ->
    (forall x s, x ∈ l -> I s -> exists s', body x s = Ok (Next s') /\ I s') ->
    exists s', for_each l s body = Ok s' /\ I s'.
Proof.
  induction l as [|x l IH]; intros s Hs Hstep; simpl.
  - eauto.
  - destruct (Hstep x s) as (s1 & Hb & Hs1); [left | assumption |].
    rewrite Hb. apply IH; [assumption|].
    intros y s' Hy. apply Hstep. now right.
Qed.

Lemma for_each_app {E S} (body : E -> S -> result (ctl S)) (l1 l2 : list E) :
  (forall x s s', body x s <> Ok (Break s')) ->
  forall s, for_each (l1 ++ l2) s body
            = (s1 <- for_each l1 s body ;; for_each l2 s1 body).
Proof.
  intros Hnb. induction l1 as [|x l1 IH]; intros s; simpl; [reflexivity|].
  destruct (body x s) as [[s'|s']|e] eqn:Hb.
  - apply IH.
  - now apply Hnb in Hb.
  - reflexivity.
Qed.

Lemma for_each_filter {E S} (P : E -> Prop) `{forall x, Decision (P x)}
    (body : E -> S -> result (ctl S)) (l : list E) :
  (forall x s, ~ P x -> body x s = Ok (Next s)) ->
  forall s, for_each (filter P l) s body = for_each l s body.
Proof.
  intros Hskip. induction l as [|x l IH]; intros s; [reflexivity|].
  rewrite filter_cons. destruct (decide (P x)) as [HP|HP]; simpl.
  - destruct (body x s) as [[s'|s']|e]; [apply IH | reflexivity | reflexivity].
  - rewrite (Hskip x s HP). apply IH.
Qed.

Lemma for_each_Forall2 {E S} (R : E -> E -> Prop)
    (body body' : E -> S -> result (ctl S)) (l l' : list E) :
  Forall2 R l l' ->
  (forall x x' s, R x x' -> body x s = body' x' s) ->
  forall s, for_each l s body = for_each l' s body'.
Proof.
  intros HR Hbody. induction HR as [|x x' l l' Hx _ IH]; intros s; simpl;
    [reflexivity|].
  rewrite (Hbody x x' s Hx).
  destruct (body' x' s) as [[s'|s']|e]; [apply IH | reflexivity | reflexivity].
Qed.

Lemma foldl_min_spec (l : list Z) :
  forall a, (forall x, x ∈ a :: l -> foldl Z.min a l <= x)
            /\ foldl Z.min a l ∈ a :: l.
Proof.
  induction l as [|b l IH]; intros a; simpl.
  - split; [|left]. intros x Hx. apply list_elem_of_singleton in Hx. lia.
  - destruct (IH (Z.min a b)) as [Hle Hin]. split.
    + intros x Hx.
      assert (foldl Z.min (Z.min a b) l <= Z.min a b) by (apply Hle; left).
      apply elem_of_cons in Hx as [->|Hx]; [lia|].
      apply elem_of_cons in Hx as [->|Hx]; [lia|].
      apply Hle. now right.
    + apply elem_of_cons in Hin as [Hm|Hin].
      * rewrite Hm. destruct (Z.min_spec a b) as [[_ ->]|[_ ->]];
          [left | right; left].
      * right. now right.
Qed.

Lemma foldl_max_spec (l : list Z) :
  forall a, (forall x, x ∈ a :: l -> x <= foldl Z.max a l)
            /\ foldl Z.max a l ∈ a :: l.
Proof.
  induction l as [|b l IH]; intros a; simpl.
  - split; [|left]. intros x Hx. apply list_elem_of_singleton in Hx. lia.
  - destruct (IH (Z.max a b)) as [Hle Hin]. split.
    + intros x Hx.
      assert (Z.max a b <= foldl Z.max (Z.max a b) l) by (apply Hle; left).
      apply elem_of_cons in Hx as [->|Hx]; [lia|].
      apply elem_of_cons in Hx as [->|Hx]; [lia|].
      apply Hle. now right.
    + apply elem_of_cons in Hin as [Hm|Hin].
      * rewrite Hm. destruct (Z.max_spec a b) as [[_ ->]|[_ ->]];
          [right; left | left].
      * right. now right.
Qed.

Lemma py_min_spec (l : list Z) :
  l <> [] ->
  exists m, py_min l = Ok m /\ (forall x, x ∈ l -> m <= x) /\ m ∈ l.
Proof.
  destruct l as [|a l]; [congruence|]. intros _.
  exists (foldl Z.min a l). split; [reflexivity|]. apply foldl_min_spec.
Qed.

Lemma py_max_spec (l : list Z) :
  l <> [] ->
  exists m, py_max l = Ok m /\ (forall x, x ∈ l -> x <= m) /\ m ∈ l.
Proof.
  destruct l as [|a l]; [congruence|]. intros _.
  exists (foldl Z.max a l). split; [reflexivity|]. apply foldl_max_spec.
Qed.

Lemma elem_of_map_1 {A B} (f : A -> B) (l : list A) (x : A) :
  x ∈ l -> f x ∈ map f l.
Proof. intros Hx. apply list_elem_of_In, in_map, list_elem_of_In, Hx. Qed.

Lemma elem_of_map_inv {A B} (f : A -> B) (l : list A) (y : B) :
  y ∈ map f l -> exists x, y = f x /\ x ∈ l.
Proof.
  intros Hy. apply list_elem_of_In, in_map_iff in Hy as (x & <- & Hx).
  exists x. split; [reflexivity|]. now apply list_elem_of_In.
Qed.

(** The sprite of a well-formed object is always rendered, from
    palette 0 or 1 of the two palettes. *)
Lemma obj_sprite_ok (tile_data : list byte) (palette1 palette2 : list color)
    (mult : Z) (show : bool) (obj : oam_obj) :
  wf_obj obj -> 0 <= mult ->
  exists palette sprite,
    obj_sprite tile_data [palette1; palette2] mult show obj = Ok sprite
    /\ palette = (if o_palette_number obj =? 1 then palette2 else palette1)
    /\ wf_image sprite
    /\ im_width sprite = o_width obj /\ im_height sprite = o_height obj
    /\ (forall X Y, 0 <= X < o_width obj -> 0 <= Y < o_height obj ->
          pixel_at sprite X Y
          = Some (sprite_pixel tile_data obj palette mult show X Y)).
Proof.
  intros (Hw & Hh & Ht & Hp) Hm.
  set (palette := if o_palette_number obj =? 1 then palette2 else palette1).
  destruct (render_sprite_raster tile_data obj palette mult show Hw Hh)
    as (sprite & Hr & Hwf & Hdims); [nia|].
  exists palette, sprite. split; [|split; [reflexivity|exact (conj Hwf Hdims)]].
  unfold obj_sprite. cbv zeta.
  change (len [palette1; palette2]) with 2.
  assert (index [palette1; palette2]
            (if o_palette_number obj >=? 2 then 0 else o_palette_number obj)
          = Ok palette) as ->; [|exact Hr].
  unfold palette.
  destruct (Z.geb_spec (o_palette_number obj) 2); [|].
  - destruct (Z.eqb_spec (o_palette_number obj) 1); [lia | reflexivity].
  - assert (o_palette_number obj = 0 \/ o_palette_number obj = 1)
      as [-> | ->] by lia; reflexivity.
Qed.

Lemma for_each_ext {E S} (body body' : E -> S -> result (ctl S)) (l : list E) :
  (forall x s, body x s = body' x s) ->
  forall s, for_each l s body = for_each l s body'.
Proof.
  intros Hext. induction l as [|x l IH]; intros s; simpl; [reflexivity|].
  rewrite Hext. destruct (body' x s) as [[s'|s']|e];
    [apply IH | reflexivity | reflexivity].
Qed.

Lemma paint_loop_eq (tile_data : list byte) (palettes : list (list color))
    (mult : Z) (show : bool) (min_x min_y : Z) (objects : list oam_obj)
    (canvas : Image) :
  paint_loop tile_data palettes mult show min_x min_y objects canvas
  = for_each (reverse objects) canvas
             (paint_obj tile_data palettes mult show min_x min_y).
Proof.
  unfold paint_loop. apply for_each_ext. intros obj c.
  unfold paint_obj, obj_sprite. cbv zeta.
  destruct (truthy (o_obj_disable obj)); [reflexivity|].
  now rewrite bind_assoc.
Qed.

Lemma composite_eq (tile_data : list byte) (palettes : list (list color))
    (mult : Z) (objects : list oam_obj) (debug show : bool) :
  composite tile_data palettes mult objects debug show
  = (b <- bounds objects ;;
     let '(min_x, max_x, min_y, max_y) := b in
     canvas <- Image_new (max_x - min_x) (max_y - min_y) (0, 0, 0, 0) ;;
     paint_loop tile_data palettes mult show min_x min_y objects canvas).
Proof.
  unfold composite, bounds.
  destruct (py_min (map (fun obj => o_x obj) objects)); [|reflexivity].
  destruct (py_max (map (fun obj => o_x obj + o_width obj) objects));
    [|reflexivity].
  destruct (py_min (map (fun obj => o_y obj) objects)); [|reflexivity].
  destruct (py_max (map (fun obj => o_y obj + o_height obj) objects));
    reflexivity.
Qed.

Lemma paint_obj_no_break (tile_data : list byte)
    (palettes : list (list color)) (mult : Z) (show : bool)
    (min_x min_y : Z) (obj : oam_obj) (c c' : Image) :
  paint_obj tile_data palettes mult show min_x min_y obj c <> Ok (Break c').
Proof.
  unfold paint_obj. destruct (truthy (o_obj_disable obj)); [discriminate|].
  destruct (obj_sprite tile_data palettes mult show obj); discriminate.
Qed.

(** The box encloses every object, disabled or not. *)
Lemma bounds_spec (objects : list oam_obj) :
  objects <> [] -> Forall wf_obj objects ->
  exists min_x max_x min_y max_y,
    bounds objects = Ok (min_x, max_x, min_y, max_y)
    /\ (forall o, o ∈ objects ->
          min_x <= o_x o /\ o_x o + o_width o <= max_x
          /\ min_y <= o_y o /\ o_y o + o_height o <= max_y)
    /\ (exists o, o ∈ objects /\ o_x o = min_x)
    /\ (exists o, o ∈ objects /\ o_x o + o_width o = max_x)
    /\ (exists o, o ∈ objects /\ o_y o = min_y)
    /\ (exists o, o ∈ objects /\ o_y o + o_height o = max_y)
    /\ min_x <= max_x /\ min_y <= max_y.
Proof.
  intros Hne Hwf. unfold bounds.
  assert (forall {B} (f : oam_obj -> B), map f objects <> []) as Hmap
    by (intros B f; destruct objects; [congruence | discriminate]).
  destruct (py_min_spec _ (Hmap _ (fun obj => o_x obj)))
    as (min_x & -> & Hminx & Hminx').
  destruct (py_max_spec _ (Hmap _ (fun obj => o_x obj + o_width obj)))
    as (max_x & -> & Hmaxx & Hmaxx').
  destruct (py_min_spec _ (Hmap _ (fun obj => o_y obj)))
    as (min_y & -> & Hminy & Hminy').
  destruct (py_max_spec _ (Hmap _ (fun obj => o_y obj + o_height obj)))
    as (max_y & -> & Hmaxy & Hmaxy').
  cbn [bind]. exists min_x, max_x, min_y, max_y. split; [reflexivity|].
  assert (forall o, o ∈ objects ->
            min_x <= o_x o /\ o_x o + o_width o <= max_x
            /\ min_y <= o_y o /\ o_y o + o_height o <= max_y) as Hall.
  { intros o Ho. repeat split.
    - apply Hminx. now apply (elem_of_map_1 (fun obj => o_x obj)).
    - apply Hmaxx. now apply (elem_of_map_1 (fun obj => o_x obj + o_width obj)).
    - apply Hminy. now apply (elem_of_map_1 (fun obj => o_y obj)).
    - apply Hmaxy.
      now apply (elem_of_map_1 (fun obj => o_y obj + o_height obj)). }
  split; [exact Hall|].
  apply elem_of_map_inv in Hminx' as (o1 & E1 & Ho1).
  apply elem_of_map_inv in Hmaxx' as (o2 & E2 & Ho2).
  apply elem_of_map_inv in Hminy' as (o3 & E3 & Ho3).
  apply elem_of_map_inv in Hmaxy' as (o4 & E4 & Ho4).
  split; [now exists o1|]. split; [now exists o2|].
  split; [now exists o3|]. split; [now exists o4|].
  pose proof (Hall o1 Ho1). pose proof (Hall o3 Ho3).
  rewrite Forall_forall in Hwf.
  destruct (Hwf o1 Ho1) as (? & ? & _). destruct (Hwf o3 Ho3) as (? & ? & _).
  lia.
Qed.

(** Painting well-formed objects never fails and keeps the canvas size. *)
Lemma paint_objs_ok (tile_data : list byte) (palette1 palette2 : list color)
    (mult : Z) (show : bool) (min_x min_y : Z) (objs : list oam_obj)
    (canvas : Image) :
  Forall wf_obj objs -> 0 <= mult -> wf_image canvas ->
  exists canvas',
    for_each objs canvas
      (paint_obj tile_data [palette1; palette2] mult show min_x min_y)
    = Ok canvas'
    /\ wf_image canvas'
    /\ im_width canvas' = im_width canvas
    /\ im_height canvas' = im_height canvas.
Proof.
  intros Hwf Hm Hc. rewrite Forall_forall in Hwf.
  apply (for_each_inv
           (fun c => wf_image c /\ im_width c = im_width canvas
                     /\ im_height c = im_height canvas)); [auto|].
  intros o c Ho (Hwc & Hw & Hh). unfold paint_obj.
  destruct (truthy (o_obj_disable o)); [eauto|].
  destruct (obj_sprite_ok tile_data palette1 palette2 mult show o (Hwf o Ho) Hm)
    as (pal & sprite & -> & _).
  cbn [bind]. eexists. split; [reflexivity|].
  destruct (paste_spec c sprite sprite (o_x o - min_x) (o_y o - min_y) Hwc)
    as (Hwf' & Hw' & Hh' & _).
  split; [assumption|]. split; congruence.
Qed.

(** Compositing a non-empty sequence of well-formed objects returns a
    canvas of the size of the enclosing box. *)
Lemma composite_ok (tile_data : list byte) (palette1 palette2 : list color)
    (mult : Z) (objects : list oam_obj) (debug show : bool) :
  objects <> [] -> Forall wf_obj objects -> 0 <= mult ->
  exists min_x max_x min_y max_y canvas,
    bounds objects = Ok (min_x, max_x, min_y, max_y)
    /\ composite tile_data [palette1; palette2] mult objects debug show
       = Ok canvas
    /\ wf_image canvas
    /\ im_width canvas = max_x - min_x
    /\ im_height canvas = max_y - min_y.
Proof.
  intros Hne Hwf Hm.
  destruct (bounds_spec objects Hne Hwf)
    as (min_x & max_x & min_y & max_y & Hb & _ & _ & _ & _ & _ & Hx & Hy).
  exists min_x, max_x, min_y, max_y.
  rewrite composite_eq, Hb. cbn [bind].
  destruct (Image_new_spec (max_x - min_x) (max_y - min_y) (0, 0, 0, 0))
    as (c0 & -> & Hwf0 & Hw0 & Hh0 & _); [lia | lia |].
  cbn [bind]. rewrite paint_loop_eq.
  destruct (paint_objs_ok tile_data palette1 palette2 mult show min_x min_y
              (reverse objects) c0) as (c & Hc & Hwfc & Hwc & Hhc);
    [now apply Forall_reverse | assumption | assumption |].
  exists c. split; [reflexivity|]. split; [assumption|].
  split; [assumption|]. split; congruence.
Qed.

(** The object at index 0 is painted last: wherever its sprite is
    opaque, the canvas shows the sprite. *)
Lemma composite_front_wins (tile_data : list byte)
    (palette1 palette2 : list color) (mult : Z) (o0 : oam_obj)
    (rest : list oam_obj) (debug show : bool)
    (min_x max_x min_y max_y : Z) (s0 : Image) (X Y : Z) (p0 : rgba) :
  Forall wf_obj (o0 :: rest) -> 0 <= mult ->
  o_obj_disable o0 = 0 ->
  bounds (o0 :: rest) = Ok (min_x, max_x, min_y, max_y) ->
  obj_sprite tile_data [palette1; palette2] mult show o0 = Ok s0 ->
  pixel_at s0 (X - (o_x o0 - min_x)) (Y - (o_y o0 - min_y)) = Some p0 ->
  alpha p0 = 255 ->
  exists canvas,
    composite tile_data [palette1; palette2] mult (o0 :: rest) debug show
    = Ok canvas
    /\ pixel_at canvas X Y = Some p0.
Proof.
  intros Hwf Hm Hen Hb Hs0 Hp0 Ha.
  destruct (bounds_spec (o0 :: rest) ltac:(discriminate) Hwf)
    as (mx & Mx & my & My & Hb' & Hall & _ & _ & _ & _ & Hx & Hy).
  rewrite Hb in Hb'. injection Hb' as <- <- <- <-.
  destruct (Hall o0 ltac:(left)) as (Hx0 & Hx1 & Hy0 & Hy1).
  pose proof Hwf as Hwf'. apply Forall_cons in Hwf' as [Hwf0 Hwfr].
  destruct (obj_sprite_ok tile_data palette1 palette2 mult show o0 Hwf0 Hm)
    as (pal & s & Hs & _ & Hwfs & Hws & Hhs & _).
  rewrite Hs0 in Hs. injection Hs as <-.
  rewrite composite_eq, Hb. cbn [bind].
  destruct (Image_new_spec (max_x - min_x) (max_y - min_y) (0, 0, 0, 0))
    as (c0 & -> & Hwfc0 & Hw0 & Hh0 & _); [lia | lia |].
  cbn [bind]. rewrite paint_loop_eq, reverse_cons.
  rewrite for_each_app by (intros; apply paint_obj_no_break).
  destruct (paint_objs_ok tile_data palette1 palette2 mult show min_x min_y
              (reverse rest) c0) as (c1 & -> & Hwfc1 & Hw1 & Hh1);
    [now apply Forall_reverse | assumption | assumption |].
  cbn [bind for_each]. unfold paint_obj at 1. unfold truthy.
  rewrite Hen. cbn [Z.eqb negb]. rewrite Hs0. cbn [bind].
  eexists. split; [reflexivity|].
  destruct (paste_spec c1 s0 s0 (o_x o0 - min_x) (o_y o0 - min_y) Hwfc1)
    as (_ & _ & _ & Hpix).
  rewrite Hpix, Hp0.
  assert (0 <= X - (o_x o0 - min_x) < im_width s0
          /\ 0 <= Y - (o_y o0 - min_y) < im_height s0) as [HX HY].
  { destruct (Z_lt_dec (X - (o_x o0 - min_x)) 0);
      [rewrite pixel_at_outside in Hp0 by lia; discriminate|].
    destruct (Z_lt_dec (X - (o_x o0 - min_x)) (im_width s0));
      [|rewrite pixel_at_outside in Hp0 by lia; discriminate].
    destruct (Z_lt_dec (Y - (o_y o0 - min_y)) 0);
      [rewrite pixel_at_outside in Hp0 by lia; discriminate|].
    destruct (Z_lt_dec (Y - (o_y o0 - min_y)) (im_height s0));
      [|rewrite pixel_at_outside in Hp0 by lia; discriminate].
    lia. }
  destruct (pixel_at_inside c1 X Y Hwfc1) as (row & d & _ & _ & ->);
    [lia | lia |].
  unfold paste_pixel. rewrite Ha. reflexivity.
Qed.

Lemma Forall2_map_eq {A B} (R : A -> A -> Prop) (f : A -> B) (l l' : list A) :
  Forall2 R l l' -> (forall x x', R x x' -> f x = f x') -> map f l = map f l'.
Proof.
  intros HR Hf. induction HR as [|x x' l l' Hx _ IH]; [reflexivity|].
  simpl. now rewrite (Hf x x' Hx), IH.
Qed.

(** Compositing never reads the ['priority'] key. *)
Lemma composite_priority_blind (tile_data : list byte)
    (palettes : list (list color)) (mult : Z)
    (objects objects' : list oam_obj) (debug show : bool) :
  Forall2 (fun o o' => o' = set_priority (o_priority o') o) objects objects' ->
  composite tile_data palettes mult objects debug show
  = composite tile_data palettes mult objects' debug show.
Proof.
  intros HR. unfold composite.
  rewrite (Forall2_map_eq _ (fun obj => o_x obj) _ _ HR)
    by (intros o o' ->; reflexivity).
  rewrite (Forall2_map_eq _ (fun obj => o_x obj + o_width obj) _ _ HR)
    by (intros o o' ->; reflexivity).
  rewrite (Forall2_map_eq _ (fun obj => o_y obj) _ _ HR)
    by (intros o o' ->; reflexivity).
  rewrite (Forall2_map_eq _ (fun obj => o_y obj + o_height obj) _ _ HR)
    by (intros o o' ->; reflexivity).
  destruct (py_min (map (fun obj => o_x obj) objects')); [|reflexivity].
  destruct (py_max (map (fun obj => o_x obj + o_width obj) objects'));
    [|reflexivity].
  destruct (py_min (map (fun obj => o_y obj) objects')); [|reflexivity].
  destruct (py_max (map (fun obj => o_y obj + o_height obj) objects'));
    [|reflexivity].
  cbn [bind]. destruct (Image_new _ _ _) as [c|]; [|reflexivity].
  cbn [bind].
  apply (for_each_Forall2
           (fun o o' => o' = set_priority (o_priority o') o));
    [now apply Forall2_reverse|].
  intros o o' c' ->. reflexivity.
Qed.

(** Two attr2 words that agree outside bits 10-11 parse to objects that
    differ in ['priority'] only. *)
Lemma parse_oam_attrs_priority_bits (attr0 attr1 attr2 attr2' : Z) :
  attr2 mod 2 ^ 10 = attr2' mod 2 ^ 10 ->
  attr2 / 2 ^ 12 = attr2' / 2 ^ 12 ->
  exists obj,
    parse_oam_attrs attr0 attr1 attr2 = Ok obj
    /\ parse_oam_attrs attr0 attr1 attr2'
       = Ok (set_priority (Z.land (Z.shiftr attr2' 10) 0x3) obj).
Proof.
  intros Hlow Hhigh. unfold parse_oam_attrs.
  destruct (SIZE_TABLE_total (Z.land (Z.shiftr attr0 14) 0x3)
                             (Z.land (Z.shiftr attr1 14) 0x3))
    as (w & h & -> & _); try apply (land_ones_range _ 2); try lia.
  cbn [bind]. eexists. split; [reflexivity|].
  unfold set_priority. cbn.
  change 1023 with (Z.ones 10). rewrite !Z.land_ones by lia.
  rewrite !(Z.shiftr_div_pow2 _ 12) by lia.
  rewrite Hlow, Hhigh. reflexivity.
Qed.

(** Records that agree outside attr2 bits 10-11 parse to object
    sequences that differ in ['priority'] only. *)
Lemma parsed_records_priority_only (recs recs' : list (Z * Z * Z)) :
  Forall2 (fun r r' => fst (fst r) = fst (fst r')
                       /\ snd (fst r) = snd (fst r')
                       /\ snd r mod 2 ^ 10 = snd r' mod 2 ^ 10
                       /\ snd r / 2 ^ 12 = snd r' / 2 ^ 12) recs recs' ->
  forall objs objs',
    Forall2 (fun r o => parse_oam_attrs (fst (fst r)) (snd (fst r)) (snd r)
                        = Ok o) recs objs ->
    Forall2 (fun r o => parse_oam_attrs (fst (fst r)) (snd (fst r)) (snd r)
                        = Ok o) recs' objs' ->
    Forall2 (fun o o' => o' = set_priority (o_priority o') o) objs objs'.
Proof.
  induction 1 as [|[[a0 a1] a2] [[b0 b1] b2] recs recs' Hr _ IH];
    intros objs objs' Ho Ho'.
  - apply Forall2_nil_inv_l in Ho, Ho'. subst. constructor.
  - apply Forall2_cons_inv_l in Ho as (o & t & Hpo & Ht & ->).
    apply Forall2_cons_inv_l in Ho' as (o' & t' & Hpo' & Ht' & ->).
    cbn [fst snd] in *. destruct Hr as (<- & <- & Hlow & Hhigh).
    constructor; [|now apply IH].
    destruct (parse_oam_attrs_priority_bits a0 a1 a2 b2 Hlow Hhigh)
      as (obj & Hobj & Hobj').
    rewrite Hpo in Hobj. injection Hobj as <-.
    rewrite Hpo' in Hobj'. injection Hobj' as ->. reflexivity.
Qed.

(** End to end: palettes of even length, a readable header and a
    non-empty selected set are all the reconstruction needs. *)
Lemma reconstruct_portrait_ok (tile_data oam_data palette1_data
    palette2_data : list byte) (use_set : Z) (debug show : bool)
    (header : oam_header) (set1 set2 : list oam_obj) :
  Z.even (len palette1_data) = true ->
  Z.even (len palette2_data) = true ->
  parse_custom_oam_format oam_data = Ok (header, set1, set2) ->
  (if use_set =? 1 then set1 else set2) <> [] ->
  exists canvas,
    reconstruct_portrait tile_data oam_data palette1_data palette2_data
                         use_set debug show = Ok canvas.
Proof.
  intros Hp1 Hp2 Hparse Hne. unfold reconstruct_portrait.
  rewrite (load_ds_palette_even _ Hp1), (load_ds_palette_even _ Hp2).
  cbn [bind]. rewrite Hparse. cbn [bind].
  destruct (parse_custom_oam_format_wf _ _ _ _ Hparse) as (Hw1 & Hw2 & Hm).
  match goal with
  | |- context [composite _ [?p1; ?p2] _ ?objs _ _] =>
      destruct (composite_ok tile_data p1 p2 (h_multiplier header) objs
                  debug show Hne) as (? & ? & ? & ? & canvas & _ & Hc & _)
  end; [now destruct (use_set =? 1) | assumption |].
  exists canvas. exact Hc.
Qed.

(** ** Rendering and compositing: main results *)

(** C1: when the enabled objects at indices 0 and 1 both write an opaque
    pixel at one canvas location, the composited pixel there is object
    0's; and compositing is blind to priority: object sequences that
    differ only in the priority key, as produced by records that differ
    only in attr2 bits 10-11, composite to the same canvas. *)
Theorem composite_index0_on_top_priority_unused :
  (forall (tile_data : list byte) (palette1 palette2 : list color)
          (mult : Z) (debug show : bool) (o0 o1 : oam_obj)
          (rest : list oam_obj) (min_x max_x min_y max_y : Z)
          (s0 s1 : Image) (X Y : Z) (p0 p1 : rgba),
      Forall wf_obj (o0 :: o1 :: rest) -> 0 <= mult ->
      o_obj_disable o0 = 0 -> o_obj_disable o1 = 0 ->
      bounds (o0 :: o1 :: rest) = Ok (min_x, max_x, min_y, max_y) ->
      obj_sprite tile_data [palette1; palette2] mult show o0 = Ok s0 ->
      obj_sprite tile_data [palette1; palette2] mult show o1 = Ok s1 ->
      pixel_at s0 (X - (o_x o0 - min_x)) (Y - (o_y o0 - min_y)) = Some p0 ->
      alpha p0 = 255 ->
      pixel_at s1 (X - (o_x o1 - min_x)) (Y - (o_y o1 - min_y)) = Some p1 ->
      alpha p1 = 255 ->
      exists canvas,
        composite tile_data [palette1; palette2] mult (o0 :: o1 :: rest)
                  debug show = Ok canvas
        /\ pixel_at canvas X Y = Some p0)
  /\ (forall (tile_data : list byte) (palettes : list (list color))
             (mult : Z) (debug show : bool) (objects objects' : list oam_obj),
        Forall2 (fun o o' => o' = set_priority (o_priority o') o)
                objects objects' ->
        composite tile_data palettes mult objects debug show
        = composite tile_data palettes mult objects' debug show)
  /\ (forall attr0 attr1 attr2 attr2' : Z,
        attr2 mod 2 ^ 10 = attr2' mod 2 ^ 10 ->
        attr2 / 2 ^ 12 = attr2' / 2 ^ 12 ->
        exists obj,
          parse_oam_attrs attr0 attr1 attr2 = Ok obj
          /\ parse_oam_attrs attr0 attr1 attr2'
             = Ok (set_priority (Z.land (Z.shiftr attr2' 10) 0x3) obj))
  /\ (forall (tile_data : list byte) (palettes : list (list color))
             (mult : Z) (debug show : bool) (recs recs' : list (Z * Z * Z))
             (objs objs' : list oam_obj),
        Forall2 (fun r r' => fst (fst r) = fst (fst r')
                             /\ snd (fst r) = snd (fst r')
                             /\ snd r mod 2 ^ 10 = snd r' mod 2 ^ 10
                             /\ snd r / 2 ^ 12 = snd r' / 2 ^ 12)
                recs recs' ->
        Forall2 (fun r o => parse_oam_attrs (fst (fst r)) (snd (fst r))
                                            (snd r) = Ok o) recs objs ->
        Forall2 (fun r o => parse_oam_attrs (fst (fst r)) (snd (fst r))
                                            (snd r) = Ok o) recs' objs' ->
        composite tile_data palettes mult objs debug show
        = composite tile_data palettes mult objs' debug show).
Proof.
  split; [|split; [|split]].
  - intros tile_data palette1 palette2 mult debug show o0 o1 rest
           min_x max_x min_y max_y s0 s1 X Y p0 p1
           Hwf Hm Hen0 _ Hb Hs0 _ Hp0 Ha0 _ _.
    exact (composite_front_wins tile_data palette1 palette2 mult o0
             (o1 :: rest) debug show min_x max_x min_y max_y s0 X Y p0
             Hwf Hm Hen0 Hb Hs0 Hp0 Ha0).
  - intros. now apply composite_priority_blind.
  - intros. now apply parse_oam_attrs_priority_bits.
  - intros tile_data palettes mult debug show recs recs' objs objs'
           Hrecs Hobjs Hobjs'.
    apply composite_priority_blind.
    exact (parsed_records_priority_only recs recs' Hrecs objs objs'
             Hobjs Hobjs').
Qed.

Lemma composite_index0_on_top_priority_unused_witness :
  exists canvas,
    composite sample_tiles [sample_palette; []] 1
              [sample_obj 0 0 0 3 0; sample_obj 4 4 1 0 0] true false
    = Ok canvas
    /\ pixel_at canvas 5 5 = Some (255, 0, 0, 255).
Proof.
  eapply (proj1 composite_index0_on_top_priority_unused
            sample_tiles sample_palette [] 1 true false
            (sample_obj 0 0 0 3 0) (sample_obj 4 4 1 0 0) []
            0 12 0 12 _ _ 5 5 (255, 0, 0, 255) (0, 255, 0, 255)).
  - repeat constructor; cbn; lia.
  - lia.
  - reflexivity.
  - reflexivity.
  - reflexivity.
  - vm_compute. reflexivity.
  - vm_compute. reflexivity.
  - vm_compute. reflexivity.
  - reflexivity.
  - vm_compute. reflexivity.
  - reflexivity.
Defined.

(** C7 (as stated, refuted): with the debug override on, a cell whose
    tile lies outside the tile buffer is not left transparent; it keeps
    the raster's opaque white background. *)
Lemma skipped_cell_transparent_refuted :
  ~ (exists img,
        render_sprite [] (sample_obj 0 0 0 0 0) sample_palette 1 true = Ok img
        /\ pixel_at img 0 0 = Some (0, 0, 0, 0)).
Proof.
  intros (img & Hr & Hp). vm_compute in Hr. injection Hr as <-.
  vm_compute in Hp. discriminate.
Qed.

(** C7 (amended): rendering never fails on a tile outside the tile
    buffer.  Cell number [k] (row-major) always takes source tile
    [tile_number * multiplier + k]; when that tile's byte offset plus 32
    exceeds the buffer length the cell keeps the raster's background
    (fully transparent, or opaque white under the debug override), and
    otherwise it is decoded normally, whatever happened to the cells
    before it. *)
Theorem render_sprite_skips_missing_tiles (tile_data : list byte)
    (obj : oam_obj) (palette : list color) (mult : Z) (show : bool) :
  0 <= o_width obj -> 0 <= o_height obj -> 0 <= o_tile_number obj * mult ->
  exists img,
    render_sprite tile_data obj palette mult show = Ok img
    /\ im_width img = o_width obj /\ im_height img = o_height obj
    /\ (forall tx ty px py,
          0 <= tx < o_width obj / 8 -> 0 <= ty < o_height obj / 8 ->
          0 <= px < 8 -> 0 <= py < 8 ->
          let k := ty * (o_width obj / 8) + tx in
          let off := (o_tile_number obj * mult + k) * 32 in
          pixel_at img (unflip_x obj (tx * 8 + px)) (unflip_y obj (ty * 8 + py))
          = Some (if off + 32 >? len tile_data then background show
                  else shade palette show
                             (tile_value tile_data off (py * 8 + px))))
    /\ background false = (0, 0, 0, 0)
    /\ background true = (255, 255, 255, 255).
Proof.
  intros Hw Hh Hs.
  destruct (render_sprite_raster tile_data obj palette mult show Hw Hh Hs)
    as (img & Hr & _ & Hwi & Hhi & Hpix).
  exists img. split; [assumption|]. split; [assumption|].
  split; [assumption|]. split; [|split; reflexivity].
  intros tx ty px py Htx Hty Hpx Hpy k off.
  pose proof (tiles_fit obj Hw Hh) as (_ & Htw & _ & Hth).
  rewrite Hpix.
  - f_equal. now apply sprite_pixel_target.
  - apply unflip_x_range. lia.
  - apply unflip_y_range. lia.
Qed.

Lemma render_sprite_skips_missing_tiles_witness :
  exists img,
    render_sprite (replicate 32 x11) (sample_obj 0 0 1 0 0) sample_palette
                  1 false = Ok img
    /\ im_width img = 8 /\ im_height img = 8
    /\ (forall tx ty px py,
          0 <= tx < 8 / 8 -> 0 <= ty < 8 / 8 ->
          0 <= px < 8 -> 0 <= py < 8 ->
          let k := ty * (8 / 8) + tx in
          let off := (1 * 1 + k) * 32 in
          pixel_at img (unflip_x (sample_obj 0 0 1 0 0) (tx * 8 + px))
                       (unflip_y (sample_obj 0 0 1 0 0) (ty * 8 + py))
          = Some (if off + 32 >? len (replicate 32 x11) then background false
                  else shade sample_palette false
                             (tile_value (replicate 32 x11) off (py * 8 + px))))
    /\ background false = (0, 0, 0, 0)
    /\ background true = (255, 255, 255, 255).
Proof.
  apply (render_sprite_skips_missing_tiles (replicate 32 x11)
           (sample_obj 0 0 1 0 0) sample_palette 1 false); cbn; lia.
Defined.

Lemma paint_loop_enabled_only (tile_data : list byte)
    (palettes : list (list color)) (mult : Z) (show : bool)
    (min_x min_y : Z) (objects : list oam_obj) (canvas : Image) :
  paint_loop tile_data palettes mult show min_x min_y objects canvas
  = paint_loop tile_data palettes mult show min_x min_y
               (filter (fun o => o_obj_disable o = 0) objects) canvas.
Proof.
  rewrite !paint_loop_eq, <- filter_reverse. symmetry.
  apply for_each_filter. intros o c Hdis. unfold paint_obj, truthy.
  destruct (Z.eqb_spec (o_obj_disable o) 0); [contradiction | reflexivity].
Qed.

(** C8: a disabled object writes no pixel (the canvas is the one
    obtained by painting the enabled objects only, on the same canvas
    and with the same offsets), yet the enclosing box that fixes the
    canvas size and the paste offsets is taken over all the objects,
    disabled ones included; a disabled object away from the others
    therefore enlarges the canvas. *)
Theorem disabled_objects_only_bound :
  (forall (tile_data : list byte) (palettes : list (list color)) (mult : Z)
          (objects : list oam_obj) (debug show : bool),
      composite tile_data palettes mult objects debug show
      = (b <- bounds objects ;;
         let '(min_x, max_x, min_y, max_y) := b in
         canvas <- Image_new (max_x - min_x) (max_y - min_y) (0, 0, 0, 0) ;;
         paint_loop tile_data palettes mult show min_x min_y
                    (filter (fun o => o_obj_disable o = 0) objects) canvas))
  /\ (forall (tile_data : list byte) (palette1 palette2 : list color)
             (mult : Z) (objects : list oam_obj) (debug show : bool),
        objects <> [] -> Forall wf_obj objects -> 0 <= mult ->
        exists min_x max_x min_y max_y canvas,
          bounds objects = Ok (min_x, max_x, min_y, max_y)
          /\ composite tile_data [palette1; palette2] mult objects debug show
             = Ok canvas
          /\ im_width canvas = max_x - min_x
          /\ im_height canvas = max_y - min_y
          /\ (forall o, o ∈ objects ->
                min_x <= o_x o /\ o_x o + o_width o <= max_x
                /\ min_y <= o_y o /\ o_y o + o_height o <= max_y)
          /\ (exists o, o ∈ objects /\ o_x o = min_x)
          /\ (exists o, o ∈ objects /\ o_x o + o_width o = max_x)
          /\ (exists o, o ∈ objects /\ o_y o = min_y)
          /\ (exists o, o ∈ objects /\ o_y o + o_height o = max_y))
  /\ (exists canvas canvas',
        composite sample_tiles [sample_palette; []] 1
                  [sample_obj 0 0 0 0 0; sample_obj 100 50 0 0 1] true false
        = Ok canvas
        /\ composite sample_tiles [sample_palette; []] 1
                     [sample_obj 0 0 0 0 0] true false
           = Ok canvas'
        /\ (im_width canvas, im_height canvas) = (108, 58)
        /\ (im_width canvas', im_height canvas') = (8, 8)
        /\ pixel_at canvas 3 3 = Some (255, 0, 0, 255)
        /\ pixel_at canvas 103 53 = Some (0, 0, 0, 0)).
Proof.
  split; [|split].
  - intros. rewrite composite_eq.
    destruct (bounds objects) as [[[[min_x max_x] min_y] max_y]|];
      [|reflexivity].
    cbn [bind]. destruct (Image_new _ _ _) as [c|]; [|reflexivity].
    cbn [bind]. apply paint_loop_enabled_only.
  - intros tile_data palette1 palette2 mult objects debug show Hne Hwf Hm.
    destruct (composite_ok tile_data palette1 palette2 mult objects debug show
                Hne Hwf Hm)
      as (min_x & max_x & min_y & max_y & canvas & Hb & Hc & _ & Hw & Hh).
    destruct (bounds_spec objects Hne Hwf)
      as (mx & Mx & my & My & Hb' & Hall & E1 & E2 & E3 & E4 & _).
    rewrite Hb in Hb'. injection Hb' as <- <- <- <-.
    exists min_x, max_x, min_y, max_y, canvas. tauto.
  - do 2 eexists. split; [vm_compute; reflexivity|].
    split; [vm_compute; reflexivity|]. repeat split.
Qed.

(** C9 (as stated, refuted): with both debug flags on and nothing
    composited (the only object is disabled), the canvas is not opaque
    white. *)
Lemma canvas_white_in_debug_refuted :
  ~ (exists canvas,
        composite [] [[]; []] 1 [sample_obj 0 0 0 0 1] true true = Ok canvas
        /\ pixel_at canvas 0 0 = Some (255, 255, 255, 255)).
Proof.
  intros (canvas & Hc & Hp). vm_compute in Hc. injection Hc as <-.
  vm_compute in Hp. discriminate.
Qed.

(** C10: the compositor rejects the empty object sequence: the minimum
    over no elements raises before any canvas is created, and a
    document whose selected set holds no object makes the whole
    reconstruction fail in that way. *)
Theorem composite_empty_sequence_raises (tile_data : list byte)
    (palettes : list (list color)) (mult : Z) (debug show : bool) :
  composite tile_data palettes mult [] debug show = Err ValueError
  /\ bounds [] = Err ValueError
  /\ py_min [] = Err ValueError
  /\ reconstruct_portrait tile_data doc_no_records [] [] 1 debug show
     = Err ValueError
  /\ reconstruct_portrait tile_data doc_no_records [] [] 2 debug show
     = Err ValueError
  /\ (exists header,
        parse_custom_oam_format doc_no_records = Ok (header, [], [])).
Proof.
  repeat split; try reflexivity.
  eexists. reflexivity.
Qed.

(** * Further properties *)

(** ** parse_oam_attrs: every field *)

Lemma land_shiftr_bits (a k m : Z) :
  0 <= k -> 0 <= m -> Z.land (Z.shiftr a k) (Z.ones m) = bits a k m.
Proof.
  intros Hk Hm. unfold bits.
  now rewrite Z.land_ones, Z.shiftr_div_pow2 by assumption.
Qed.

Lemma land_bits (a m : Z) : 0 <= m -> Z.land a (Z.ones m) = bits a 0 m.
Proof.
  intros Hm. unfold bits. rewrite Z.land_ones by assumption.
  now rewrite Z.pow_0_r, Z.div_1_r.
Qed.

Lemma bits_range (a k m : Z) : 0 <= m -> 0 <= bits a k m < 2 ^ m.
Proof.
  intros Hm. unfold bits. apply Z.mod_pos_bound. now apply Z.pow_pos_nonneg.
Qed.

Lemma truthy_bit (b : Z) : 0 <= b < 2 -> truthy b = (b =? 1).
Proof.
  intros Hb. unfold truthy.
  destruct (Z.eqb_spec b 0), (Z.eqb_spec b 1); try reflexivity; lia.
Qed.

(** The parser's result, field by field, in terms of the words' bit
    fields. *)
Lemma parse_oam_attrs_fields (attr0 attr1 attr2 : Z) :
  exists obj,
    parse_oam_attrs attr0 attr1 attr2 = Ok obj
    /\ o_rot_scaling obj = bits attr0 8 1
    /\ o_double_size obj
       = (if bits attr0 8 1 =? 1 then bits attr0 9 1 else 0)
    /\ o_obj_disable obj
       = (if bits attr0 8 1 =? 1 then 0 else bits attr0 9 1)
    /\ o_obj_mode obj = bits attr0 10 2
    /\ o_mosaic obj = bits attr0 12 1
    /\ o_colors_palettes obj = bits attr0 13 1
    /\ o_shape obj = bits attr0 14 2
    /\ o_rot_scaling_param obj
       = (if bits attr0 8 1 =? 1 then bits attr1 9 5 else 0)
    /\ o_h_flip obj = (if bits attr0 8 1 =? 1 then 0 else bits attr1 12 1)
    /\ o_v_flip obj = (if bits attr0 8 1 =? 1 then 0 else bits attr1 13 1)
    /\ o_size obj = bits attr1 14 2
    /\ o_tile_number obj = bits attr2 0 10
    /\ o_priority obj = bits attr2 10 2
    /\ o_palette_number obj = bits attr2 12 4
    /\ SIZE_TABLE (o_shape obj) (o_size obj) = Ok (o_width obj, o_height obj)
    /\ o_x obj = (if 256 <=? bits attr1 0 9 then bits attr1 0 9 - 512
                  else bits attr1 0 9)
    /\ o_y obj = (if 192 <=? bits attr0 0 8 then bits attr0 0 8 - 256
                  else bits attr0 0 8).
Proof.
  unfold parse_oam_attrs.
  change 0xFF with (Z.ones 8). change 0x1 with (Z.ones 1).
  change 0x3 with (Z.ones 2). change 0x1FF with (Z.ones 9).
  change 0x1F with (Z.ones 5). change 0x3FF with (Z.ones 10).
  change 0xF with (Z.ones 4).
  rewrite !land_shiftr_bits, !land_bits by lia.
  rewrite (truthy_bit (bits attr0 8 1)) by (apply (bits_range attr0 8 1); lia).
  destruct (SIZE_TABLE_total (bits attr0 14 2) (bits attr1 14 2))
    as (w & h & Hwh & _);
    try (apply (bits_range _ 14 2); lia).
  rewrite Hwh. cbn [bind fst snd]. eexists. split; [reflexivity|].
  cbn [o_rot_scaling o_double_size o_obj_disable o_obj_mode o_mosaic
       o_colors_palettes o_shape o_rot_scaling_param o_h_flip o_v_flip
       o_size o_tile_number o_priority o_palette_number o_width o_height
       o_x o_y].
  unfold wrap_ds_coordinate. cbn [fst snd]. rewrite !Z.geb_leb.
  repeat split; try reflexivity. exact Hwh.
Qed.

(** X1: the parser never raises, and the size it derives is one of the
    table's: width and height are multiples of 8 between 8 and 64, a
    square shape has equal sides, and the prohibited shape 3 is 8x8
    whatever the size bits. *)
Theorem parse_oam_attrs_dimensions (attr0 attr1 attr2 : Z) :
  exists obj,
    parse_oam_attrs attr0 attr1 attr2 = Ok obj
    /\ o_shape obj = bits attr0 14 2 /\ o_size obj = bits attr1 14 2
    /\ SIZE_TABLE (o_shape obj) (o_size obj) = Ok (o_width obj, o_height obj)
    /\ (exists i j, 0 <= i <= 3 /\ 0 <= j <= 3
                    /\ o_width obj = 8 * 2 ^ i /\ o_height obj = 8 * 2 ^ j)
    /\ (o_shape obj = 0 ->
        o_width obj = 8 * 2 ^ o_size obj /\ o_height obj = o_width obj)
    /\ (o_shape obj = 1 -> o_height obj < o_width obj)
    /\ (o_shape obj = 2 -> o_width obj < o_height obj)
    /\ (o_shape obj = 3 -> o_width obj = 8 /\ o_height obj = 8).
Proof.
  destruct (parse_oam_attrs_fields attr0 attr1 attr2)
    as (obj & Hp & _ & _ & _ & _ & _ & _ & Hshape & _ & _ & _ & Hsize & _ & _
        & _ & Htab & _).
  exists obj. split; [assumption|]. split; [assumption|].
  split; [assumption|]. split; [assumption|].
  pose proof (bits_range attr0 14 2 ltac:(lia)) as Hs.
  pose proof (bits_range attr1 14 2 ltac:(lia)) as Hz.
  rewrite <- Hshape in Hs. rewrite <- Hsize in Hz.
  change (2 ^ 2) with 4 in Hs, Hz.
  assert (o_shape obj = 0 \/ o_shape obj = 1 \/ o_shape obj = 2
          \/ o_shape obj = 3) as Hs' by lia.
  assert (o_size obj = 0 \/ o_size obj = 1 \/ o_size obj = 2
          \/ o_size obj = 3) as Hz' by lia.
  destruct Hs' as [Es | [Es | [Es | Es]]],
           Hz' as [Ez | [Ez | [Ez | Ez]]];
    rewrite Es, Ez in Htab; injection Htab as <- <-; rewrite ?Es, ?Ez;
    (split; [first [ exists 0, 0; repeat split; try lia; reflexivity
                   | exists 1, 0; repeat split; try lia; reflexivity
                   | exists 0, 1; repeat split; try lia; reflexivity
                   | exists 1, 1; repeat split; try lia; reflexivity
                   | exists 2, 0; repeat split; try lia; reflexivity
                   | exists 0, 2; repeat split; try lia; reflexivity
                   | exists 2, 1; repeat split; try lia; reflexivity
                   | exists 1, 2; repeat split; try lia; reflexivity
                   | exists 2, 2; repeat split; try lia; reflexivity
                   | exists 3, 2; repeat split; try lia; reflexivity
                   | exists 2, 3; repeat split; try lia; reflexivity
                   | exists 3, 3; repeat split; try lia; reflexivity ]|]);
    repeat split; intros; try discriminate; try lia; reflexivity.
Qed.

(** X2: the rotation/scaling flag selects one reading of the shared
    bits.  With the flag set the object is never disabled and never
    flipped, and bit 9 of attr0 and bits 9-13 of attr1 are the double
    size flag and the parameter index; with the flag clear the double
    size flag and the parameter index are 0, and the same bits give
    obj_disable, h_flip and v_flip. *)
Theorem parse_oam_attrs_rotation_or_flip (attr0 attr1 attr2 : Z) :
  exists obj,
    parse_oam_attrs attr0 attr1 attr2 = Ok obj
    /\ o_rot_scaling obj = bits attr0 8 1
    /\ (o_rot_scaling obj = 1 ->
        o_obj_disable obj = 0 /\ o_h_flip obj = 0 /\ o_v_flip obj = 0
        /\ o_double_size obj = bits attr0 9 1
        /\ o_rot_scaling_param obj = bits attr1 9 5)
    /\ (o_rot_scaling obj = 0 ->
        o_double_size obj = 0 /\ o_rot_scaling_param obj = 0
        /\ o_obj_disable obj = bits attr0 9 1
        /\ o_h_flip obj = bits attr1 12 1
        /\ o_v_flip obj = bits attr1 13 1)
    /\ (o_rot_scaling obj = 0 \/ o_rot_scaling obj = 1).
Proof.
  destruct (parse_oam_attrs_fields attr0 attr1 attr2)
    as (obj & Hp & Hrot & Hds & Hdis & _ & _ & _ & _ & Hpar & Hh & Hv & _).
  exists obj. split; [assumption|]. split; [assumption|].
  rewrite Hds, Hdis, Hpar, Hh, Hv, Hrot.
  pose proof (bits_range attr0 8 1 ltac:(lia)) as Hb.
  change (2 ^ 1) with 2 in Hb.
  split; [|split].
  - intros ->. repeat split.
  - intros ->. repeat split.
  - lia.
Qed.

(** X3: the stored coordinates are signed screen coordinates in
    [-256, 256) and [-64, 192), and they keep the raw register value:
    x is congruent to attr1's 9-bit field modulo 512 and y to attr0's
    8-bit field modulo 256. *)
Theorem parse_oam_attrs_coordinate_range (attr0 attr1 attr2 : Z) :
  exists obj,
    parse_oam_attrs attr0 attr1 attr2 = Ok obj
    /\ -256 <= o_x obj < 256 /\ -64 <= o_y obj < 192
    /\ o_x obj mod 512 = bits attr1 0 9
    /\ o_y obj mod 256 = bits attr0 0 8.
Proof.
  destruct (parse_oam_attrs_fields attr0 attr1 attr2)
    as (obj & Hp & _ & _ & _ & _ & _ & _ & _ & _ & _ & _ & _ & _ & _ & _ & _
        & Hx & Hy).
  exists obj. split; [assumption|]. rewrite Hx, Hy.
  pose proof (bits_range attr1 0 9 ltac:(lia)) as Bx.
  pose proof (bits_range attr0 0 8 ltac:(lia)) as By.
  change (2 ^ 9) with 512 in Bx. change (2 ^ 8) with 256 in By.
  destruct (Z.leb_spec 256 (bits attr1 0 9)),
           (Z.leb_spec 192 (bits attr0 0 8));
    repeat split; try lia; Z.div_mod_to_equations; lia.
Qed.

Lemma bits_split (a k m n : Z) :
  0 <= k -> 0 <= m -> 0 <= n ->
  bits a k (m + n) = bits a k m + 2 ^ m * bits a (k + m) n.
Proof.
  intros Hk Hm Hn. unfold bits.
  rewrite !Z.pow_add_r by lia.
  rewrite <- Z.div_div by (try apply Z.pow_pos_nonneg; lia).
  pose proof (Z.pow_pos_nonneg 2 m ltac:(lia) Hm).
  pose proof (Z.pow_pos_nonneg 2 n ltac:(lia) Hn).
  rewrite Z.rem_mul_r by lia. reflexivity.
Qed.

Lemma bits_split_eq (a k m n t k' : Z) :
  0 <= k -> 0 <= m -> 0 <= n -> t = m + n -> k' = k + m ->
  bits a k t = bits a k m + 2 ^ m * bits a k' n.
Proof. intros Hk Hm Hn -> ->. now apply bits_split. Qed.

(** X4: parsing loses nothing of attr0 and attr2: the 16-bit words are
    rebuilt from the parsed fields (the raw y is the stored y modulo
    256).  Of attr1, the fields rebuild the word when rotation/scaling
    is on, and everything but bits 9-11 when it is off. *)
Theorem parse_oam_attrs_repack (attr0 attr1 attr2 : Z) :
  exists obj,
    parse_oam_attrs attr0 attr1 attr2 = Ok obj
    /\ attr2 mod 2 ^ 16
       = o_tile_number obj + 1024 * o_priority obj
         + 4096 * o_palette_number obj
    /\ attr0 mod 2 ^ 16
       = o_y obj mod 256 + 256 * o_rot_scaling obj
         + 512 * (o_obj_disable obj + o_double_size obj)
         + 1024 * o_obj_mode obj + 4096 * o_mosaic obj
         + 8192 * o_colors_palettes obj + 16384 * o_shape obj
    /\ (o_rot_scaling obj = 1 ->
        attr1 mod 2 ^ 16
        = o_x obj mod 512 + 512 * o_rot_scaling_param obj
          + 16384 * o_size obj)
    /\ (o_rot_scaling obj = 0 ->
        attr1 mod 2 ^ 16
        = o_x obj mod 512 + 512 * bits attr1 9 3 + 4096 * o_h_flip obj
          + 8192 * o_v_flip obj + 16384 * o_size obj).
Proof.
  destruct (parse_oam_attrs_fields attr0 attr1 attr2)
    as (obj & Hp & Hrot & Hds & Hdis & Hmode & Hmos & Hcol & Hshape & Hpar
        & Hh & Hv & Hsize & Htile & Hprio & Hpal & _ & Hx & Hy).
  exists obj. split; [assumption|].
  assert (o_x obj mod 512 = bits attr1 0 9) as ->.
  { rewrite Hx. pose proof (bits_range attr1 0 9 ltac:(lia)) as B.
    change (2 ^ 9) with 512 in B.
    destruct (Z.leb_spec 256 (bits attr1 0 9));
      Z.div_mod_to_equations; lia. }
  assert (o_y obj mod 256 = bits attr0 0 8) as ->.
  { rewrite Hy. pose proof (bits_range attr0 0 8 ltac:(lia)) as B.
    change (2 ^ 8) with 256 in B.
    destruct (Z.leb_spec 192 (bits attr0 0 8));
      Z.div_mod_to_equations; lia. }
  assert (forall a, a mod 2 ^ 16 = bits a 0 16) as Hword
    by (intros a; unfold bits; now rewrite Z.pow_0_r, Z.div_1_r).
  rewrite !Hword.
  rewrite Hds, Hdis, Hmode, Hmos, Hcol, Hshape, Hpar, Hh, Hv, Hsize, Htile,
          Hprio, Hpal, Hrot.
  pose proof (bits_range attr0 8 1 ltac:(lia)) as Hb.
  change (2 ^ 1) with 2 in Hb.
  split; [|split; [|split]].
  - rewrite (bits_split_eq attr2 0 10 6 16 10), (bits_split_eq attr2 10 2 4 6 12) by lia.
    lia.
  - rewrite (bits_split_eq attr0 0 8 8 16 8), (bits_split_eq attr0 8 1 7 8 9),
            (bits_split_eq attr0 9 1 6 7 10), (bits_split_eq attr0 10 2 4 6 12),
            (bits_split_eq attr0 12 1 3 4 13), (bits_split_eq attr0 13 1 2 3 14) by lia.
    destruct (Z.eqb_spec (bits attr0 8 1) 1); lia.
  - intros Hr. rewrite Hr. cbn [Z.eqb Pos.eqb].
    rewrite (bits_split_eq attr1 0 9 7 16 9), (bits_split_eq attr1 9 5 2 7 14) by lia.
    lia.
  - intros Hr. rewrite Hr. cbn [Z.eqb].
    rewrite (bits_split_eq attr1 0 9 7 16 9), (bits_split_eq attr1 9 3 4 7 12),
            (bits_split_eq attr1 12 1 3 4 13), (bits_split_eq attr1 13 1 2 3 14) by lia.
    lia.
Qed.

(** ** decode_4bpp_tile: other input sizes *)

(** The grid loops on any pixel list of at least 64 values. *)
Lemma grid_rows (pixels : list Z) :
  (64 <= length pixels)%nat ->
  for_each (range 8) []
    (fun y tile =>
       row <- for_each (range 8) []
                (fun x row =>
                   p <- index pixels (y * 8 + x) ;;
                   Ok (Next (row ++ [p]))) ;;
       Ok (Next (tile ++ [row])))
  = Ok (map (fun y => take 8 (drop (8 * y) pixels)) (seq 0 8)).
Proof.
  intros Hl.
  match goal with
  | |- for_each (range ?n) ?s ?b = _ =>
      destruct (for_range_inv
                  (fun y tile =>
                     tile = map (fun y => take 8 (drop (8 * y) pixels))
                                (seq 0 (Z.to_nat y)))
                  b n s) as (tile & Hloop & Htile)
  end.
  - lia.
  - reflexivity.
  - intros y tile Hy ->. cbv beta.
    match goal with
    | |- context [for_each (range ?n) ?s ?b] =>
        destruct (for_range_inv
                    (fun x row =>
                       row = take (Z.to_nat x) (drop (8 * Z.to_nat y) pixels))
                    b n s) as (row & Hrow & Hr)
    end.
    + lia.
    + reflexivity.
    + intros x row Hx ->. cbv beta.
      destruct (lookup_lt_is_Some_2 pixels (Z.to_nat (y * 8 + x)))
        as [p Hp]; [lia|].
      rewrite (index_ok pixels (y * 8 + x) p) by (lia || assumption).
      cbn [bind]. eexists. split; [reflexivity|].
      replace (Z.to_nat (x + 1)) with (Datatypes.S (Z.to_nat x)) by lia.
      symmetry. apply take_S_r. rewrite lookup_drop. rewrite <- Hp.
      f_equal. lia.
    + rewrite Hrow. cbn [bind]. eexists. split; [reflexivity|].
      replace (Z.to_nat (y + 1)) with (Datatypes.S (Z.to_nat y)) by lia.
      rewrite seq_S, map_app. cbn [map Nat.add]. now rewrite Hr.
  - rewrite Hloop. now rewrite Htile.
Qed.

Lemma nibble_values_take (l : list byte) (n : nat) :
  nibble_values (take n l) = take (2 * n) (nibble_values l).
Proof.
  revert n. induction l as [|b l IH]; intros [|n]; try reflexivity.
  replace (2 * Datatypes.S n)%nat with (Datatypes.S (Datatypes.S (2 * n)))
    by lia.
  cbn. f_equal. f_equal. apply IH.
Qed.

(** X5: the tile decoder needs 32 bytes and reads no more.  On fewer
    than 32 bytes it raises [IndexError] (the grid indexes past the
    pixel list); on more it decodes the first 32 and ignores the rest. *)
Theorem decode_4bpp_tile_other_sizes (tile_bytes : list byte) :
  ((length tile_bytes < 32)%nat ->
   decode_4bpp_tile tile_bytes = Err IndexError)
  /\ ((32 <= length tile_bytes)%nat ->
      decode_4bpp_tile tile_bytes = decode_4bpp_tile (take 32 tile_bytes)
      /\ exists grid, decode_4bpp_tile tile_bytes = Ok grid).
Proof.
  split.
  - intros Hl.
    do 32 (destruct tile_bytes as [|? tile_bytes]; [reflexivity|]).
    simpl in Hl. lia.
  - intros Hl.
    assert (forall l : list byte, (32 <= length l)%nat ->
              decode_4bpp_tile l
              = Ok (map (fun y => take 8 (drop (8 * y) (nibble_values l)))
                        (seq 0 8))) as Hdec.
    { intros l Hlen. unfold decode_4bpp_tile. rewrite decode_pixels_loop.
      cbn [bind app]. apply grid_rows. rewrite nibble_values_length. lia. }
    split; [|eexists; now apply Hdec].
    rewrite (Hdec tile_bytes Hl).
    rewrite (Hdec (take 32 tile_bytes)) by (rewrite length_take; lia).
    f_equal. apply map_ext_in. intros y Hy. apply in_seq in Hy.
    rewrite nibble_values_take.
    apply list_eq. intros i.
    destruct (decide (i < 8)%nat) as [Hi|Hi].
    + rewrite !lookup_take_lt by lia. rewrite !lookup_drop.
      rewrite lookup_take_lt by lia. reflexivity.
    + rewrite !lookup_take_ge by lia. reflexivity.
Qed.

Lemma byte_val_inj (b b' : byte) : byte_val b = byte_val b' -> b = b'.
Proof.
  unfold byte_val. intros H. apply N2Z.inj in H.
  pose proof (Byte.of_to_N b) as E. rewrite H, Byte.of_to_N in E.
  now injection E.
Qed.

Lemma nibble_values_inj (l l' : list byte) :
  nibble_values l = nibble_values l' -> l = l'.
Proof.
  revert l'. induction l as [|b l IH]; intros [|b' l'] H;
    try reflexivity; try discriminate.
  cbn in H. injection H as Hlo Hhi Hrest.
  f_equal; [|now apply IH].
  apply byte_val_inj.
  rewrite (Z.div_mod (byte_val b) 16), (Z.div_mod (byte_val b') 16) by lia.
  now rewrite Hlo, Hhi.
Qed.

(** X6: decoding a tile loses nothing: two 32-byte tiles that decode to
    the same grid are the same bytes. *)
Theorem decode_4bpp_tile_injective (t t' : list byte) :
  length t = 32%nat -> length t' = 32%nat ->
  decode_4bpp_tile t = decode_4bpp_tile t' -> t = t'.
Proof.
  intros Hl Hl' Heq.
  rewrite !decode_4bpp_tile_rows in Heq by assumption.
  assert (map (fun y => take 8 (drop (8 * y) (nibble_values t))) (seq 0 8)
          = map (fun y => take 8 (drop (8 * y) (nibble_values t'))) (seq 0 8))
    as Hrows by congruence.
  clear Heq.
  apply nibble_values_inj. apply list_eq. intros i.
  pose proof (nibble_values_length t) as Hn. rewrite Hl in Hn.
  pose proof (nibble_values_length t') as Hn'. rewrite Hl' in Hn'.
  destruct (decide (i < 64)%nat) as [Hi|Hi].
  - assert (take 8 (drop (8 * (i / 8)) (nibble_values t))
            = take 8 (drop (8 * (i / 8)) (nibble_values t'))) as Hrow.
    { assert (map (fun y => take 8 (drop (8 * y) (nibble_values t)))
                  (seq 0 8) !! (i / 8)%nat
              = map (fun y => take 8 (drop (8 * y) (nibble_values t')))
                    (seq 0 8) !! (i / 8)%nat) as Hlk by now rewrite Hrows.
      assert (i / 8 < 8)%nat by (apply Nat.Div0.div_lt_upper_bound; lia).
      rewrite !lookup_map, !lookup_seq_lt in Hlk by lia.
      now injection Hlk. }
    assert (forall v : list Z,
              v !! i = take 8 (drop (8 * (i / 8)) v) !! (i mod 8)%nat) as Hat.
    { intros v. rewrite lookup_take_lt by (apply Nat.mod_upper_bound; lia).
      rewrite lookup_drop. f_equal. apply Nat.div_mod_eq. }
    now rewrite (Hat (nibble_values t)), (Hat (nibble_values t')), Hrow.
  - rewrite !(proj2 (lookup_ge_None _ _)) by lia. reflexivity.
Qed.

Lemma decode_4bpp_tile_injective_witness :
  length tile_0x21 = 32%nat /\ tile_0x21 = tile_0x21.
Proof.
  split; [reflexivity|].
  apply (decode_4bpp_tile_injective tile_0x21 tile_0x21); reflexivity.
Defined.

(** ** load_ds_palette: the colours *)

Lemma spec_color_range (w : Z) :
  let '(r, g, b) := spec_color w in
  0 <= r <= 255 /\ 0 <= g <= 255 /\ 0 <= b <= 255.
Proof.
  unfold spec_color.
  pose proof (Z.mod_pos_bound w 32 ltac:(lia)).
  pose proof (Z.mod_pos_bound (w / 32) 32 ltac:(lia)).
  pose proof (Z.mod_pos_bound (w / 1024) 32 ltac:(lia)).
  repeat split; Z.div_mod_to_equations; lia.
Qed.

(** X7: every colour of a decoded palette has its three channels in
    [0, 255], with 0 decoding to black and 0x7FFF to white; bit 15 of a
    colour word is ignored. *)
Theorem load_ds_palette_channels :
  (forall (data : list byte) (palette : list color) (i : nat) (r g b : Z),
      load_ds_palette data = Ok palette ->
      palette !! i = Some (r, g, b) ->
      0 <= r <= 255 /\ 0 <= g <= 255 /\ 0 <= b <= 255)
  /\ (forall b0 b1 b1' : byte,
        byte_val b1 mod 128 = byte_val b1' mod 128 ->
        load_ds_palette [b0; b1] = load_ds_palette [b0; b1'])
  /\ load_ds_palette [x00; x00; xff; x7f] = Ok [(0, 0, 0); (255, 255, 255)].
Proof.
  split; [|split].
  - intros data palette i r g b Hload Hi.
    destruct (Z.even (len data)) eqn:Hev.
    + rewrite load_ds_palette_even in Hload by assumption.
      injection Hload as <-. rewrite lookup_map in Hi.
      destruct (seq 0 (Z.to_nat (len data / 2)) !! i) as [k|];
        [|discriminate].
      assert (spec_color (word_at data (2 * Z.of_nat k)) = (r, g, b))
        as Hc by (cbn in Hi; congruence).
      pose proof (spec_color_range (word_at data (2 * Z.of_nat k))) as Hr.
      rewrite Hc in Hr. exact Hr.
    + rewrite load_ds_palette_odd in Hload
        by (now rewrite <- Z.negb_even, Hev).
      discriminate.
  - intros b0 b1 b1' Hb.
    rewrite !load_ds_palette_even by reflexivity.
    change (Z.to_nat (len [b0; b1] / 2)) with 1%nat.
    change (Z.to_nat (len [b0; b1'] / 2)) with 1%nat.
    cbn [seq map]. do 2 f_equal.
    change (word_at [b0; b1] (2 * Z.of_nat 0))
      with (byte_val b0 + 256 * byte_val b1).
    change (word_at [b0; b1'] (2 * Z.of_nat 0))
      with (byte_val b0 + 256 * byte_val b1').
    pose proof (byte_val_range b0). pose proof (byte_val_range b1).
    pose proof (byte_val_range b1').
    unfold spec_color.
    assert (forall v, (byte_val b0 + 256 * v) mod 32 = byte_val b0 mod 32)
      as E1 by (intros v; Z.div_mod_to_equations; lia).
    assert (forall v, 0 <= v < 256 ->
              ((byte_val b0 + 256 * v) / 32) mod 32
              = (byte_val b0 / 32 + 8 * (v mod 4)) mod 32) as E2
      by (intros v Hv; Z.div_mod_to_equations; lia).
    assert (forall v, 0 <= v < 256 ->
              ((byte_val b0 + 256 * v) / 1024) mod 32
              = ((v mod 128) / 4)) as E3
      by (intros v Hv; Z.div_mod_to_equations; lia).
    rewrite !E1, !E2, !E3 by assumption. rewrite Hb.
    replace (byte_val b1 mod 4) with (byte_val b1' mod 4); [reflexivity|].
    Z.div_mod_to_equations. lia.
  - apply load_ds_palette_even. reflexivity.
Qed.

(** ** render_sprite: opacity, flips, truncated tile data *)

Lemma shade_cases (palette : list color) (show : bool) (idx : Z) :
  0 <= idx ->
  (shade palette show idx = background show
   /\ (negb show && (idx =? 0) = true \/ len palette <= idx))
  \/ (exists c, palette !! Z.to_nat idx = Some c
               /\ shade palette show idx = (c, 255)
               /\ negb show && (idx =? 0) = false /\ idx < len palette).
Proof.
  intros Hidx. unfold shade.
  destruct (negb show && (idx =? 0)) eqn:Hz; [left; auto|].
  destruct (palette !! Z.to_nat idx) as [c|] eqn:Hc.
  - right. exists c. apply lookup_lt_Some in Hc. unfold len.
    repeat split; try reflexivity; lia.
  - left. apply lookup_ge_None in Hc. unfold len. split; [reflexivity|].
    right. lia.
Qed.

(** X8: a rendered sprite has binary alpha.  Every pixel is either
    fully opaque or fully transparent; under the debug override every
    pixel is opaque; without it a pixel is opaque exactly when it lies
    in a tile cell whose tile fits in the buffer and its palette index
    is neither 0 nor outside the palette, and it then shows that
    palette colour, every other pixel being (0, 0, 0, 0). *)
Theorem render_sprite_binary_alpha (tile_data : list byte) (obj : oam_obj)
    (palette : list color) (mult : Z) (show : bool) :
  0 <= o_width obj -> 0 <= o_height obj -> 0 <= o_tile_number obj * mult ->
  exists img,
    render_sprite tile_data obj palette mult show = Ok img
    /\ forall X Y, 0 <= X < o_width obj -> 0 <= Y < o_height obj ->
       let x := unflip_x obj X in
       let y := unflip_y obj Y in
       let off := (o_tile_number obj * mult + cell_of obj x y) * 32 in
       let idx := tile_value tile_data off ((y mod 8) * 8 + x mod 8) in
       let drawn :=
         in_cells obj x y = true /\ off + 32 <= len tile_data
         /\ idx < len palette /\ (show = false -> idx <> 0) in
       exists p,
         pixel_at img X Y = Some p
         /\ (alpha p = 0 \/ alpha p = 255)
         /\ (show = true -> alpha p = 255)
         /\ (drawn -> exists c, palette !! Z.to_nat idx = Some c
                                /\ p = (c, 255))
         /\ (~ drawn -> p = background show).
Proof.
  intros Hw Hh Hs.
  destruct (render_sprite_raster tile_data obj palette mult show Hw Hh Hs)
    as (img & Hr & _ & _ & _ & Hpix).
  exists img. split; [assumption|].
  intros X Y HX HY x y off idx drawn.
  rewrite Hpix by assumption. eexists. split; [reflexivity|].
  unfold sprite_pixel. fold x y. fold off. fold idx.
  pose proof (tile_value_range tile_data off ((y mod 8) * 8 + x mod 8)) as Hi.
  fold idx in Hi.
  destruct (in_cells obj x y) eqn:Hin.
  2:{ split; [destruct show; auto|]. split; [now intros ->|].
      split; [intros (Hc & _); discriminate | reflexivity]. }
  destruct (Z.gtb_spec (off + 32) (len tile_data)) as [Hgt|Hle].
  { split; [destruct show; auto|]. split; [now intros ->|].
    split; [intros (_ & Hc & _); lia | reflexivity]. }
  destruct (shade_cases palette show idx ltac:(lia))
    as [(-> & Hblank) | (c & Hc & -> & Hz & Hlt)].
  - split; [destruct show; auto|]. split; [now intros ->|].
    split; [|reflexivity].
    intros (_ & _ & Hlt & Hnz). exfalso.
    destruct Hblank as [Hz|Hge]; [|lia].
    apply andb_true_iff in Hz as [Hsh Hz]. apply Z.eqb_eq in Hz.
    apply Hnz; [now destruct show | assumption].
  - split; [now right|]. split; [reflexivity|]. split.
    + intros _. now exists c.
    + intros Hnd. exfalso. apply Hnd. unfold drawn.
      repeat split; try assumption; try reflexivity.
      intros -> ->. discriminate.
Qed.

Lemma render_sprite_binary_alpha_witness :
  exists img,
    render_sprite sample_tiles (sample_obj 0 0 0 0 0) sample_palette 1 false
    = Ok img.
Proof.
  destruct (render_sprite_binary_alpha sample_tiles (sample_obj 0 0 0 0 0)
              sample_palette 1 false) as (img & Hr & _); cbn; try lia.
  exists img. exact Hr.
Defined.

Lemma sprite_pixel_h_mirror (tile_data : list byte) (o o' : oam_obj)
    (palette : list color) (mult : Z) (show : bool) (X Y : Z) :
  o_width o' = o_width o -> o_height o' = o_height o ->
  o_tile_number o' = o_tile_number o ->
  truthy (o_v_flip o') = truthy (o_v_flip o) ->
  truthy (o_h_flip o) = false -> truthy (o_h_flip o') = true ->
  sprite_pixel tile_data o' palette mult show X Y
  = sprite_pixel tile_data o palette mult show (o_width o - 1 - X) Y.
Proof.
  intros Hw Hh Ht Hv Hf Hf'.
  unfold sprite_pixel, unflip_x, unflip_y, in_cells, cell_of.
  now rewrite Hw, Hh, Ht, Hv, Hf, Hf'.
Qed.

Lemma sprite_pixel_v_mirror (tile_data : list byte) (o o' : oam_obj)
    (palette : list color) (mult : Z) (show : bool) (X Y : Z) :
  o_width o' = o_width o -> o_height o' = o_height o ->
  o_tile_number o' = o_tile_number o ->
  truthy (o_h_flip o') = truthy (o_h_flip o) ->
  truthy (o_v_flip o) = false -> truthy (o_v_flip o') = true ->
  sprite_pixel tile_data o' palette mult show X Y
  = sprite_pixel tile_data o palette mult show X (o_height o - 1 - Y).
Proof.
  intros Hw Hh Ht Hv Hf Hf'.
  unfold sprite_pixel, unflip_x, unflip_y, in_cells, cell_of.
  now rewrite Hw, Hh, Ht, Hv, Hf, Hf'.
Qed.

(** X9: a flip mirrors the whole sprite, not each tile.  If two objects
    have the same size and tile number and differ in h_flip only, the
    flipped one renders to the left-right mirror image of the other:
    its pixel (X, Y) is the other's pixel (width-1-X, Y).  Likewise
    v_flip gives the top-bottom mirror image. *)
Theorem render_sprite_flip_mirrors (tile_data : list byte) (o o' : oam_obj)
    (palette : list color) (mult : Z) (show : bool) :
  0 <= o_width o -> 0 <= o_height o -> 0 <= o_tile_number o * mult ->
  o_width o' = o_width o -> o_height o' = o_height o ->
  o_tile_number o' = o_tile_number o ->
  exists img img',
    render_sprite tile_data o palette mult show = Ok img
    /\ render_sprite tile_data o' palette mult show = Ok img'
    /\ (truthy (o_h_flip o) = false -> truthy (o_h_flip o') = true ->
        truthy (o_v_flip o') = truthy (o_v_flip o) ->
        forall X Y, 0 <= X < o_width o -> 0 <= Y < o_height o ->
          pixel_at img' X Y = pixel_at img (o_width o - 1 - X) Y)
    /\ (truthy (o_v_flip o) = false -> truthy (o_v_flip o') = true ->
        truthy (o_h_flip o') = truthy (o_h_flip o) ->
        forall X Y, 0 <= X < o_width o -> 0 <= Y < o_height o ->
          pixel_at img' X Y = pixel_at img X (o_height o - 1 - Y)).
Proof.
  intros Hw Hh Hs Ew Eh Et.
  destruct (render_sprite_raster tile_data o palette mult show Hw Hh Hs)
    as (img & Hr & _ & _ & _ & Hpix).
  destruct (render_sprite_raster tile_data o' palette mult show)
    as (img' & Hr' & _ & _ & _ & Hpix'); try (rewrite ?Ew, ?Eh, ?Et; assumption).
  rewrite Ew, Eh in Hpix'.
  exists img, img'. split; [assumption|]. split; [assumption|]. split.
  - intros Hf Hf' Hv X Y HX HY.
    rewrite Hpix', Hpix by lia. f_equal.
    now apply sprite_pixel_h_mirror.
  - intros Hf Hf' Hv X Y HX HY.
    rewrite Hpix', Hpix by lia. f_equal.
    now apply sprite_pixel_v_mirror.
Qed.

Lemma render_sprite_flip_mirrors_witness :
  exists img img',
    render_sprite tile_0x21 (sample_flipped 0 0) sample_palette 1 false
    = Ok img
    /\ render_sprite tile_0x21 (sample_flipped 1 0) sample_palette 1 false
       = Ok img'
    /\ pixel_at img 0 0 = Some (255, 0, 0, 255)
    /\ pixel_at img' 7 0 = Some (255, 0, 0, 255).
Proof.
  destruct (render_sprite_flip_mirrors tile_0x21 (sample_flipped 0 0)
              (sample_flipped 1 0) sample_palette 1 false)
    as (img & img' & Hr & Hr' & Hh & _); cbn; try lia; try reflexivity.
  exists img, img'. split; [assumption|]. split; [assumption|].
  assert (pixel_at img 0 0 = Some (255, 0, 0, 255)) as H0.
  { vm_compute in Hr. injection Hr as <-. reflexivity. }
  split; [assumption|].
  rewrite (Hh eq_refl eq_refl eq_refl 7 0) by (cbn; lia). exact H0.
Defined.

(** X10: tile data that ends early blanks the tail of a sprite: if the
    tile of cell [k] does not fit in the tile buffer, then that cell and
    every later cell of the object keep the background. *)
Theorem render_sprite_truncated_tail (tile_data : list byte) (obj : oam_obj)
    (palette : list color) (mult : Z) (show : bool) (k : Z) :
  0 <= o_width obj -> 0 <= o_height obj -> 0 <= o_tile_number obj * mult ->
  (o_tile_number obj * mult + k) * 32 + 32 > len tile_data ->
  exists img,
    render_sprite tile_data obj palette mult show = Ok img
    /\ forall X Y, 0 <= X < o_width obj -> 0 <= Y < o_height obj ->
       k <= cell_of obj (unflip_x obj X) (unflip_y obj Y) ->
       pixel_at img X Y = Some (background show).
Proof.
  intros Hw Hh Hs Hk.
  destruct (render_sprite_raster tile_data obj palette mult show Hw Hh Hs)
    as (img & Hr & _ & _ & _ & Hpix).
  exists img. split; [assumption|].
  intros X Y HX HY Hcell. rewrite Hpix by assumption. f_equal.
  unfold sprite_pixel.
  destruct (in_cells obj (unflip_x obj X) (unflip_y obj Y)); [|reflexivity].
  match goal with |- (if ?a >? ?b then _ else _) = _ =>
    destruct (Z.gtb_spec a b); [reflexivity | lia] end.
Qed.

Lemma render_sprite_truncated_tail_witness :
  exists img,
    render_sprite (replicate 32 x11) (sample_obj 0 0 1 0 0) sample_palette
                  1 true = Ok img
    /\ forall X Y, 0 <= X < 8 -> 0 <= Y < 8 ->
       0 <= cell_of (sample_obj 0 0 1 0 0)
                    (unflip_x (sample_obj 0 0 1 0 0) X)
                    (unflip_y (sample_obj 0 0 1 0 0) Y) ->
       pixel_at img X Y = Some (background true).
Proof.
  apply (render_sprite_truncated_tail (replicate 32 x11)
           (sample_obj 0 0 1 0 0) sample_palette 1 true 0);
    first [cbn; lia | vm_compute; reflexivity].
Defined.

(** ** composite: what the canvas shows *)

Lemma sprite_pixel_alpha (tile_data : list byte) (obj : oam_obj)
    (palette : list color) (mult : Z) (show : bool) (X Y : Z) :
  alpha (sprite_pixel tile_data obj palette mult show X Y) = 0
  \/ alpha (sprite_pixel tile_data obj palette mult show X Y) = 255.
Proof.
  assert (alpha (background show) = 0 \/ alpha (background show) = 255)
    as Hbg by (destruct show; auto).
  unfold sprite_pixel.
  destruct (in_cells _ _ _); [|exact Hbg].
  destruct (_ >? _); [exact Hbg|].
  unfold shade. destruct (negb show && _); [exact Hbg|].
  destruct (palette !! _); [now right | exact Hbg].
Qed.

(** Painting a sequence of objects onto any canvas: each pixel ends up
    showing the first object that is opaque there. *)
Lemma paint_shows_first (tile_data : list byte)
    (palette1 palette2 : list color) (mult : Z) (show : bool)
    (min_x min_y : Z) (objects : list oam_obj) :
  Forall wf_obj objects -> 0 <= mult ->
  forall canvas, wf_image canvas ->
    exists canvas',
      for_each (reverse objects) canvas
        (paint_obj tile_data [palette1; palette2] mult show min_x min_y)
      = Ok canvas'
      /\ wf_image canvas'
      /\ forall X Y,
           pixel_at canvas' X Y
           = match pixel_at canvas X Y with
             | None => None
             | Some d =>
                 Some (visible (sprite_on_canvas tile_data palette1 palette2
                                  mult show min_x min_y) objects X Y d)
             end.
Proof.
  intros Hwf Hm. induction Hwf as [|o rest Ho Hrest IH]; intros canvas Hc.
  - exists canvas. split; [reflexivity|]. split; [assumption|].
    intros X Y. cbn [visible]. now destruct (pixel_at canvas X Y).
  - rewrite reverse_cons.
    rewrite for_each_app by (intros; apply paint_obj_no_break).
    destruct (IH canvas Hc) as (c1 & -> & Hc1 & Hpix1).
    cbn [bind for_each]. unfold paint_obj at 1.
    cbn [visible]. unfold sprite_on_canvas at 1.
    destruct (truthy (o_obj_disable o)) eqn:Hdis.
    { exists c1. split; [reflexivity|]. split; [assumption|]. exact Hpix1. }
    destruct (obj_sprite_ok tile_data palette1 palette2 mult show o Ho Hm)
      as (pal & s & -> & -> & Hs & Hws & Hhs & Hspix).
    cbn [bind].
    destruct (paste_spec c1 s s (o_x o - min_x) (o_y o - min_y) Hc1)
      as (Hwf' & _ & _ & Hpaste).
    eexists. split; [reflexivity|]. split; [assumption|].
    intros X Y. rewrite Hpaste, Hpix1.
    destruct (pixel_at canvas X Y) as [d|]; [|reflexivity].
    set (sx := X - (o_x o - min_x)). set (sy := Y - (o_y o - min_y)).
    destruct ((0 <=? sx) && (sx <? o_width o) && (0 <=? sy)
              && (sy <? o_height o)) eqn:Hin.
    + assert (0 <= sx < o_width o /\ 0 <= sy < o_height o) as [Hsx Hsy].
      { rewrite !andb_true_iff, !Z.leb_le, !Z.ltb_lt in Hin. lia. }
      rewrite Hspix by assumption. f_equal. unfold paste_pixel.
      destruct (sprite_pixel_alpha tile_data o
                  (if o_palette_number o =? 1 then palette2 else palette1)
                  mult show sx sy) as [Ha|Ha]; rewrite Ha; reflexivity.
    + rewrite pixel_at_outside; [reflexivity|].
      rewrite Hws, Hhs. intros [Hsx Hsy].
      rewrite !andb_false_iff, !Z.leb_gt, !Z.ltb_ge in Hin. lia.
Qed.

(** X11: the composited canvas shows, at every position, the sprite
    pixel of the lowest-index enabled object that is opaque there, and
    is fully transparent where no object is opaque.  Each sprite is
    drawn with palette 2 when the object's palette number is 1 and with
    palette 1 for every other palette number. *)
Theorem composite_shows_topmost (tile_data : list byte)
    (palette1 palette2 : list color) (mult : Z) (objects : list oam_obj)
    (debug show : bool) :
  objects <> [] -> Forall wf_obj objects -> 0 <= mult ->
  exists min_x max_x min_y max_y canvas,
    bounds objects = Ok (min_x, max_x, min_y, max_y)
    /\ composite tile_data [palette1; palette2] mult objects debug show
       = Ok canvas
    /\ im_width canvas = max_x - min_x /\ im_height canvas = max_y - min_y
    /\ forall X Y, 0 <= X < max_x - min_x -> 0 <= Y < max_y - min_y ->
         pixel_at canvas X Y
         = Some (visible (sprite_on_canvas tile_data palette1 palette2 mult
                            show min_x min_y) objects X Y (0, 0, 0, 0)).
Proof.
  intros Hne Hwf Hm.
  destruct (bounds_spec objects Hne Hwf)
    as (min_x & max_x & min_y & max_y & Hb & _ & _ & _ & _ & _ & Hx & Hy).
  exists min_x, max_x, min_y, max_y.
  rewrite composite_eq, Hb. cbn [bind].
  destruct (Image_new_spec (max_x - min_x) (max_y - min_y) (0, 0, 0, 0))
    as (c0 & -> & Hwf0 & Hw0 & Hh0 & Hpix0); [lia | lia |].
  cbn [bind]. rewrite paint_loop_eq.
  destruct (paint_shows_first tile_data palette1 palette2 mult show
              min_x min_y objects Hwf Hm c0 Hwf0) as (c & Hc & Hwfc & Hpix).
  destruct (paint_objs_ok tile_data palette1 palette2 mult show min_x min_y
              (reverse objects) c0) as (c' & Hc' & _ & Hwc & Hhc);
    [now apply Forall_reverse | assumption | assumption |].
  rewrite Hc in Hc'. injection Hc' as <-.
  exists c. split; [reflexivity|]. split; [assumption|].
  split; [congruence|]. split; [congruence|].
  intros X Y HX HY. rewrite Hpix, Hpix0 by assumption. reflexivity.
Qed.

Lemma composite_shows_topmost_witness :
  exists canvas,
    composite sample_tiles [sample_palette; []] 1
              [sample_obj 0 0 0 0 0; sample_obj 4 4 1 0 0] true false
    = Ok canvas
    /\ pixel_at canvas 5 5 = Some (255, 0, 0, 255)
    /\ pixel_at canvas 9 9 = Some (0, 255, 0, 255)
    /\ pixel_at canvas 9 1 = Some (0, 0, 0, 0).
Proof.
  destruct (composite_shows_topmost sample_tiles sample_palette [] 1
              [sample_obj 0 0 0 0 0; sample_obj 4 4 1 0 0] true false)
    as (min_x & max_x & min_y & max_y & canvas & Hb & Hc & _ & _ & Hpix);
    [discriminate | repeat constructor; cbn; lia | lia |].
  injection Hb as <- <- <- <-.
  exists canvas. split; [assumption|].
  rewrite !Hpix by (cbn; lia). repeat split.
Defined.

(** ** parse_custom_oam_format and reconstruct_portrait: outcomes *)

Lemma length_zero_nil {A} (l : list A) : len l = 0 -> l = [].
Proof. destruct l; [reflexivity|]. unfold len. simpl. lia. Qed.

(** X12: the document parser never reads past the buffer, and a
    truncated Set 1 leaves no room for Set 2: if fewer Set-1 records
    were read than the header declares, Set 2 is empty. *)
Theorem parse_custom_oam_format_truncated_set1 (oam_data : list byte)
    (header : oam_header) (set1 set2 : list oam_obj) :
  parse_custom_oam_format oam_data = Ok (header, set1, set2) ->
  len set1 <= h_set1_count header
  /\ 10 + 6 * len set1 <= len oam_data
  /\ (set2 <> [] -> 10 + 6 * len set1 + 2 + 6 * len set2 <= len oam_data)
  /\ (len set1 < h_set1_count header -> set2 = []).
Proof.
  intros Hp.
  destruct (Z_lt_ge_dec (len oam_data) 10) as [Hlt|Hge].
  { rewrite parse_custom_oam_format_short in Hp by assumption. discriminate. }
  destruct (parse_custom_oam_format_long oam_data ltac:(lia))
    as (h & s1 & s2 & Hp' & _ & Hc & Hn1 & Hn2 & _).
  rewrite Hp in Hp'. injection Hp' as <- <- <-. cbv zeta in Hn2.
  pose proof (word_at_range oam_data 8) as Hw8.
  pose proof (word_at_range oam_data (10 + 6 * len set1)) as Hw2.
  pose proof (len_nonneg set1). pose proof (len_nonneg set2).
  assert (6 * ((len oam_data - 10) / 6) <= len oam_data - 10) as Hfit
    by (Z.div_mod_to_equations; lia).
  split; [lia|]. split; [lia|].
  destruct (Z.leb_spec (10 + 6 * len set1 + 2) (len oam_data)) as [Hle|Hgt].
  - assert (6 * ((len oam_data - (10 + 6 * len set1 + 2)) / 6)
            <= len oam_data - (10 + 6 * len set1 + 2)) as Hfit2
      by (Z.div_mod_to_equations; lia).
    split; [intros _; lia|].
    intros Htrunc. apply length_zero_nil.
    assert (len set1 = (len oam_data - 10) / 6) as E1 by lia.
    assert ((len oam_data - (10 + 6 * len set1 + 2)) / 6 = 0) as E2.
    { apply Z.div_small. rewrite E1. Z.div_mod_to_equations. lia. }
    lia.
  - split; [|intros _; now apply length_zero_nil].
    intros Hne. exfalso. apply Hne. now apply length_zero_nil.
Qed.

Lemma parse_custom_oam_format_truncated_set1_witness :
  exists header obj set2,
    parse_custom_oam_format doc_truncated = Ok (header, [obj], set2)
    /\ (len [obj] < h_set1_count header -> set2 = []).
Proof.
  assert (exists header obj set2,
             parse_custom_oam_format doc_truncated = Ok (header, [obj], set2))
    as (header & obj & set2 & Hp) by (do 3 eexists; reflexivity).
  exists header, obj, set2. split; [exact Hp|].
  exact (proj2 (proj2 (proj2
           (parse_custom_oam_format_truncated_set1 _ _ _ _ Hp)))).
Defined.

Lemma parsed_sets_sizes (oam_data : list byte) (header : oam_header)
    (set1 set2 : list oam_obj) :
  parse_custom_oam_format oam_data = Ok (header, set1, set2) ->
  Forall (fun o => 8 <= o_width o /\ 8 <= o_height o) set1
  /\ Forall (fun o => 8 <= o_width o /\ 8 <= o_height o) set2.
Proof.
  intros Hp.
  destruct (Z_lt_ge_dec (len oam_data) 10) as [Hlt|Hge].
  { rewrite parse_custom_oam_format_short in Hp by assumption. discriminate. }
  destruct (parse_custom_oam_format_long oam_data ltac:(lia))
    as (h & s1 & s2 & Hp' & _ & _ & _ & _ & H1 & H2).
  rewrite Hp in Hp'. injection Hp' as <- <- <-.
  assert (forall off o, record_at oam_data off = Ok o ->
            8 <= o_width o /\ 8 <= o_height o) as Hrec.
  { intros off o Ho. unfold record_at in Ho.
    destruct (parse_oam_attrs_total (word_at oam_data off)
                (word_at oam_data (off + 2)) (word_at oam_data (off + 4)))
      as (o' & Ho' & _ & _ & Hw & Hh & _).
    rewrite Ho in Ho'. injection Ho' as <-. lia. }
  split; apply Forall_lookup; intros j obj Hj.
  - destruct (H1 j obj Hj) as (_ & _ & o & Ho & ->). exact (Hrec _ o Ho).
  - destruct (H2 j obj Hj) as (_ & _ & o & Ho & ->). exact (Hrec _ o Ho).
Qed.

Lemma length_parity (data : list byte) :
  Z.odd (len data) = true \/ Z.even (len data) = true.
Proof. rewrite <- Z.negb_even. destruct (Z.even (len data)); auto. Qed.

Lemma reconstruct_portrait_struct_error (tile_data oam_data palette1_data
    palette2_data : list byte) (use_set : Z) (debug show : bool) :
  Z.odd (len palette1_data) = true \/ Z.odd (len palette2_data) = true
  \/ len oam_data < 10 ->
  reconstruct_portrait tile_data oam_data palette1_data palette2_data
                       use_set debug show = Err StructError.
Proof.
  intros Hcase. unfold reconstruct_portrait.
  destruct (length_parity palette1_data) as [Ho1|He1];
    [now rewrite (load_ds_palette_odd _ Ho1)|].
  rewrite (load_ds_palette_even _ He1). cbn [bind].
  destruct (length_parity palette2_data) as [Ho2|He2];
    [now rewrite (load_ds_palette_odd _ Ho2)|].
  rewrite (load_ds_palette_even _ He2). cbn [bind].
  destruct Hcase as [Ho|[Ho|Hshort]].
  - rewrite <- Z.negb_even, He1 in Ho. discriminate.
  - rewrite <- Z.negb_even, He2 in Ho. discriminate.
  - now rewrite parse_custom_oam_format_short.
Qed.

Lemma reconstruct_portrait_well_formed (tile_data oam_data palette1_data
    palette2_data : list byte) (use_set : Z) (debug show : bool) :
  Z.even (len palette1_data) = true ->
  Z.even (len palette2_data) = true ->
  10 <= len oam_data ->
  exists header set1 set2,
    parse_custom_oam_format oam_data = Ok (header, set1, set2)
    /\ ((if use_set =? 1 then set1 else set2) = [] ->
        reconstruct_portrait tile_data oam_data palette1_data
                             palette2_data use_set debug show
        = Err ValueError)
    /\ ((if use_set =? 1 then set1 else set2) <> [] ->
        exists canvas,
          reconstruct_portrait tile_data oam_data palette1_data
                               palette2_data use_set debug show
          = Ok canvas
          /\ 8 <= im_width canvas /\ 8 <= im_height canvas).
Proof.
  intros He1 He2 Hlen.
  destruct (parse_custom_oam_format_long oam_data Hlen)
    as (header & set1 & set2 & Hp & _).
  exists header, set1, set2. split; [assumption|].
  unfold reconstruct_portrait.
  rewrite (load_ds_palette_even _ He1), (load_ds_palette_even _ He2).
  cbn [bind]. rewrite Hp. cbn [bind].
  set (objects := if use_set =? 1 then set1 else set2).
  split.
  - intros ->. reflexivity.
  - intros Hne.
    destruct (parse_custom_oam_format_wf _ _ _ _ Hp) as (Hw1 & Hw2 & Hm).
    destruct (parsed_sets_sizes _ _ _ _ Hp) as (Hz1 & Hz2).
    assert (Forall wf_obj objects) as Hwf
      by (unfold objects; now destruct (use_set =? 1)).
    assert (Forall (fun o => 8 <= o_width o /\ 8 <= o_height o) objects)
      as Hsz by (unfold objects; now destruct (use_set =? 1)).
    match goal with
    | |- context [composite _ [?p1; ?p2] _ _ _ _] =>
        destruct (composite_ok tile_data p1 p2 (h_multiplier header)
                    objects debug show Hne Hwf Hm)
          as (min_x & max_x & min_y & max_y & canvas & Hb & Hc & _
              & Hcw & Hch)
    end.
    exists canvas. split; [exact Hc|].
    destruct (bounds_spec objects Hne Hwf)
      as (mx & Mx & my & My & Hb' & Hall & _).
    rewrite Hb in Hb'. injection Hb' as <- <- <- <-.
    destruct objects as [|o rest]; [congruence|].
    destruct (Hall o ltac:(left)) as (? & ? & ? & ?).
    apply Forall_cons in Hsz as [[? ?] _]. lia.
Qed.

(** What a reconstruction returns or raises, whatever its inputs. *)
Lemma reconstruct_portrait_result (tile_data oam_data palette1_data
    palette2_data : list byte) (use_set : Z) (debug show : bool) :
  match reconstruct_portrait tile_data oam_data palette1_data palette2_data
                             use_set debug show with
  | Ok canvas => 8 <= im_width canvas /\ 8 <= im_height canvas
  | Err e => e = StructError \/ e = ValueError
  end.
Proof.
  pose proof (reconstruct_portrait_struct_error tile_data oam_data
                palette1_data palette2_data use_set debug show) as Hbad.
  destruct (length_parity palette1_data) as [Ho1|He1];
    [rewrite Hbad by auto; now left|].
  destruct (length_parity palette2_data) as [Ho2|He2];
    [rewrite Hbad by auto; now left|].
  destruct (Z_lt_ge_dec (len oam_data) 10) as [Hlt|Hge];
    [rewrite Hbad by auto; now left|].
  destruct (reconstruct_portrait_well_formed tile_data oam_data palette1_data
              palette2_data use_set debug show He1 He2 ltac:(lia))
    as (header & set1 & set2 & _ & Hempty & Hfull).
  destruct (if use_set =? 1 then set1 else set2) as [|o rest].
  - rewrite Hempty by reflexivity. now right.
  - destruct Hfull as (canvas & -> & Hsize); [discriminate|]. exact Hsize.
Qed.

(** X13: the outcome of a whole reconstruction.  It raises
    [struct.error] when a palette file has odd length or the document
    has fewer than 10 bytes, [ValueError] when the selected set holds no
    object, and nothing else; in every other case it returns a canvas,
    at least 8 pixels wide and high. *)
Theorem reconstruct_portrait_outcome (tile_data oam_data palette1_data
    palette2_data : list byte) (use_set : Z) (debug show : bool) :
  (Z.odd (len palette1_data) = true \/ Z.odd (len palette2_data) = true
   \/ len oam_data < 10 ->
   reconstruct_portrait tile_data oam_data palette1_data palette2_data
                        use_set debug show = Err StructError)
  /\ (Z.even (len palette1_data) = true ->
      Z.even (len palette2_data) = true ->
      10 <= len oam_data ->
      exists header set1 set2,
        parse_custom_oam_format oam_data = Ok (header, set1, set2)
        /\ ((if use_set =? 1 then set1 else set2) = [] ->
            reconstruct_portrait tile_data oam_data palette1_data
                                 palette2_data use_set debug show
            = Err ValueError)
        /\ ((if use_set =? 1 then set1 else set2) <> [] ->
            exists canvas,
              reconstruct_portrait tile_data oam_data palette1_data
                                   palette2_data use_set debug show
              = Ok canvas
              /\ 8 <= im_width canvas /\ 8 <= im_height canvas))
  /\ (forall e,
        reconstruct_portrait tile_data oam_data palette1_data palette2_data
                             use_set debug show = Err e ->
        e = StructError \/ e = ValueError).
Proof.
  split; [apply reconstruct_portrait_struct_error|].
  split; [apply reconstruct_portrait_well_formed|].
  intros e He.
  pose proof (reconstruct_portrait_result tile_data oam_data palette1_data
                palette2_data use_set debug show) as Hres.
  now rewrite He in Hres.
Qed.

(** ** What the canvas and the rasters start from *)

(** Where no object of the sequence is opaque, the background is seen. *)
Lemma visible_uncovered (sprite_at : oam_obj -> Z -> Z -> option rgba)
    (objects : list oam_obj) (X Y : Z) (d : rgba) :
  (forall o p, o ∈ objects -> sprite_at o X Y = Some p -> alpha p <> 255) ->
  visible sprite_at objects X Y d = d.
Proof.
  induction objects as [|o rest IH]; intros Hclear; cbn [visible];
    [reflexivity|].
  assert (visible sprite_at rest X Y d = d) as Hrest.
  { apply IH. intros o' p Ho'. apply Hclear. now right. }
  destruct (sprite_at o X Y) as [p|] eqn:Hp; [|exact Hrest].
  destruct (Z.eqb_spec (alpha p) 255) as [Ha|_]; [|exact Hrest].
  exfalso. apply (Hclear o p); [left | exact Hp | exact Ha].
Qed.

(** A raster pixel that the renderer does not write keeps the
    background. *)
Lemma sprite_pixel_unwritten (tile_data : list byte) (obj : oam_obj)
    (palette : list color) (mult : Z) (show : bool) (X Y : Z) :
  written tile_data obj palette mult show X Y = false ->
  sprite_pixel tile_data obj palette mult show X Y = background show.
Proof.
  unfold written, sprite_pixel. cbv zeta.
  destruct (in_cells obj (unflip_x obj X) (unflip_y obj Y));
    [|reflexivity].
  match goal with
  | |- context [?off + 32 >? len tile_data] =>
      destruct (Z.gtb_spec (off + 32) (len tile_data)) as [|Hfit];
        [reflexivity|];
      destruct (Z.leb_spec (off + 32) (len tile_data)); [|lia]
  end.
  cbn [andb]. unfold shade.
  match goal with
  | |- context [tile_value tile_data ?off ?j] =>
      pose proof (tile_value_range tile_data off j) as Hidx;
      set (idx := tile_value tile_data off j) in *
  end.
  destruct show; cbn [negb orb andb].
  - intros Hout. apply Z.ltb_ge in Hout.
    rewrite lookup_ge_None_2; [reflexivity|]. unfold len in Hout. lia.
  - destruct (Z.eqb_spec idx 0); cbn [negb andb]; [reflexivity|].
    intros Hout. apply Z.ltb_ge in Hout.
    rewrite lookup_ge_None_2; [reflexivity|]. unfold len in Hout. lia.
Qed.

(** C9 (amended): the compositor's canvas is initialised to fully
    transparent whatever the debug flags and whatever is composited
    afterwards: the painting loop starts from an image of the size of
    the enclosing box whose pixels are all (0, 0, 0, 0), and in the
    result every position at which no enabled object has an opaque
    sprite pixel is still (0, 0, 0, 0).  It is the renderer's
    per-object raster that starts opaque white under the debug override
    and fully transparent otherwise: every raster pixel that the
    renderer does not write has that colour. *)
Theorem canvas_starts_transparent (tile_data : list byte)
    (palette1 palette2 : list color) (mult : Z) (objects : list oam_obj)
    (debug show : bool) :
  objects <> [] -> Forall wf_obj objects -> 0 <= mult ->
  (exists min_x max_x min_y max_y canvas0 canvas,
      bounds objects = Ok (min_x, max_x, min_y, max_y)
      /\ Image_new (max_x - min_x) (max_y - min_y) (0, 0, 0, 0) = Ok canvas0
      /\ (forall X Y, 0 <= X < max_x - min_x -> 0 <= Y < max_y - min_y ->
            pixel_at canvas0 X Y = Some (0, 0, 0, 0))
      /\ composite tile_data [palette1; palette2] mult objects debug show
         = paint_loop tile_data [palette1; palette2] mult show min_x min_y
                      objects canvas0
      /\ composite tile_data [palette1; palette2] mult objects debug show
         = Ok canvas
      /\ (forall X Y, 0 <= X < max_x - min_x -> 0 <= Y < max_y - min_y ->
            (forall o p, o ∈ objects ->
               sprite_on_canvas tile_data palette1 palette2 mult show
                                min_x min_y o X Y = Some p ->
               alpha p <> 255) ->
            pixel_at canvas X Y = Some (0, 0, 0, 0)))
  /\ (forall o palette, o ∈ objects ->
        exists raster,
          render_sprite tile_data o palette mult show = Ok raster
          /\ (forall X Y, 0 <= X < o_width o -> 0 <= Y < o_height o ->
                written tile_data o palette mult show X Y = false ->
                pixel_at raster X Y
                = Some (if show then (255, 255, 255, 255)
                        else (0, 0, 0, 0)))).
Proof.
  intros Hne Hwf Hm. split.
  - destruct (bounds_spec objects Hne Hwf)
      as (min_x & max_x & min_y & max_y & Hb & _ & _ & _ & _ & _ & Hx & Hy).
    destruct (Image_new_spec (max_x - min_x) (max_y - min_y) (0, 0, 0, 0))
      as (c0 & Hnew & Hwf0 & Hw0 & Hh0 & Hpix0); [lia | lia |].
    assert (composite tile_data [palette1; palette2] mult objects debug show
            = paint_loop tile_data [palette1; palette2] mult show min_x min_y
                         objects c0) as Hloop.
    { rewrite composite_eq, Hb. cbn [bind]. rewrite Hnew. reflexivity. }
    destruct (paint_shows_first tile_data palette1 palette2 mult show
                min_x min_y objects Hwf Hm c0 Hwf0) as (c & Hc & _ & Hpix).
    rewrite <- paint_loop_eq in Hc.
    exists min_x, max_x, min_y, max_y, c0, c.
    split; [exact Hb|]. split; [exact Hnew|]. split; [exact Hpix0|].
    split; [exact Hloop|]. split; [now rewrite Hloop|].
    intros X Y HX HY Hclear.
    rewrite Hpix, Hpix0 by assumption.
    now rewrite visible_uncovered.
  - intros o palette Ho. rewrite Forall_forall in Hwf.
    destruct (Hwf o Ho) as (Hw & Hh & Ht & _).
    destruct (render_sprite_raster tile_data o palette mult show Hw Hh)
      as (raster & Hr & _ & _ & _ & Hpix); [nia|].
    exists raster. split; [exact Hr|].
    intros X Y HX HY Hun. rewrite Hpix by assumption.
    rewrite sprite_pixel_unwritten by assumption. now destruct show.
Qed.

Lemma canvas_starts_transparent_witness :
  (exists min_x max_x min_y max_y canvas0 canvas,
      bounds [sample_obj 0 0 0 0 0; sample_obj 100 50 0 0 1]
      = Ok (min_x, max_x, min_y, max_y)
      /\ Image_new (max_x - min_x) (max_y - min_y) (0, 0, 0, 0) = Ok canvas0
      /\ (forall X Y, 0 <= X < max_x - min_x -> 0 <= Y < max_y - min_y ->
            pixel_at canvas0 X Y = Some (0, 0, 0, 0))
      /\ composite [] [sample_palette; []] 1
                   [sample_obj 0 0 0 0 0; sample_obj 100 50 0 0 1] true true
         = paint_loop [] [sample_palette; []] 1 true min_x min_y
                      [sample_obj 0 0 0 0 0; sample_obj 100 50 0 0 1] canvas0
      /\ composite [] [sample_palette; []] 1
                   [sample_obj 0 0 0 0 0; sample_obj 100 50 0 0 1] true true
         = Ok canvas
      /\ (forall X Y, 0 <= X < max_x - min_x -> 0 <= Y < max_y - min_y ->
            (forall o p,
               o ∈ [sample_obj 0 0 0 0 0; sample_obj 100 50 0 0 1] ->
               sprite_on_canvas [] sample_palette [] 1 true
                                min_x min_y o X Y = Some p ->
               alpha p <> 255) ->
            pixel_at canvas X Y = Some (0, 0, 0, 0)))
  /\ (forall o palette,
        o ∈ [sample_obj 0 0 0 0 0; sample_obj 100 50 0 0 1] ->
        exists raster,
          render_sprite [] o palette 1 true = Ok raster
          /\ (forall X Y, 0 <= X < o_width o -> 0 <= Y < o_height o ->
                written [] o palette 1 true X Y = false ->
                pixel_at raster X Y
                = Some (if true then (255, 255, 255, 255)
                        else (0, 0, 0, 0)))).
Proof.
  apply (canvas_starts_transparent [] sample_palette [] 1
           [sample_obj 0 0 0 0 0; sample_obj 100 50 0 0 1] true true).
  - discriminate.
  - repeat constructor; cbn; lia.
  - lia.
Defined.

(** ** The document parser and the bytes it does not use *)

Lemma word_at_agree (data data' : list byte) (off : Z) :
  data !! Z.to_nat off = data' !! Z.to_nat off ->
  data !! Z.to_nat (off + 1) = data' !! Z.to_nat (off + 1) ->
  word_at data off = word_at data' off.
Proof. intros H0 H1. unfold word_at. now rewrite H0, H1. Qed.

Lemma word_at_app (data extra : list byte) (off : Z) :
  0 <= off -> off + 2 <= len data ->
  word_at (data ++ extra) off = word_at data off.
Proof.
  intros H0 H2. unfold len in H2.
  apply word_at_agree; apply lookup_app_l; lia.
Qed.

Lemma record_at_app (data extra : list byte) (off : Z) :
  0 <= off -> off + 6 <= len data ->
  record_at (data ++ extra) off = record_at data off.
Proof.
  intros H0 H6. unfold record_at.
  now rewrite !word_at_app by lia.
Qed.

(** Two lists of tagged records of the same length are equal when the
    records they were read from are. *)
Lemma tagged_lists_eq (data data' : list byte) (set_no off : Z)
    (objs objs' : list oam_obj) :
  length objs = length objs' ->
  (forall (j : nat) obj, objs !! j = Some obj ->
     exists o, record_at data (off + 6 * Z.of_nat j) = Ok o
               /\ obj = tag_obj set_no (Z.of_nat j) o) ->
  (forall (j : nat) obj, objs' !! j = Some obj ->
     exists o, record_at data' (off + 6 * Z.of_nat j) = Ok o
               /\ obj = tag_obj set_no (Z.of_nat j) o) ->
  (forall j : nat, (j < length objs)%nat ->
     record_at data (off + 6 * Z.of_nat j)
     = record_at data' (off + 6 * Z.of_nat j)) ->
  objs = objs'.
Proof.
  intros Hlen Hall Hall' Hrec.
  apply (list_eq_same_length _ _ (length objs)); [easy | easy |].
  intros j x y Hj Hx Hy.
  destruct (Hall j x Hx) as (o & Ho & ->).
  destruct (Hall' j y Hy) as (o' & Ho' & ->).
  rewrite (Hrec j Hj), Ho' in Ho. congruence.
Qed.

(** The header that is returned holds the first five words. *)
Lemma parse_custom_oam_format_header (oam_data : list byte)
    (header : oam_header) (set1 set2 : list oam_obj) :
  parse_custom_oam_format oam_data = Ok (header, set1, set2) ->
  header = {| h_total_size := word_at oam_data 0;
              h_byte_2_3 := word_at oam_data 2;
              h_multiplier := word_at oam_data 4;
              h_set2_offset_adjust := word_at oam_data 6;
              h_set1_count := word_at oam_data 8 |}.
Proof.
  intros Hp.
  destruct (Z_lt_ge_dec (len oam_data) 10) as [Hlt|Hge].
  { rewrite parse_custom_oam_format_short in Hp by assumption. discriminate. }
  unfold parse_custom_oam_format in Hp.
  rewrite (unpack_H_slice_to oam_data 0 2) in Hp by lia.
  rewrite (unpack_H_slice_to oam_data 2 4) in Hp by lia.
  rewrite (unpack_H_slice_to oam_data 4 6) in Hp by lia.
  rewrite (unpack_H_slice_to oam_data 6 8) in Hp by lia.
  rewrite (unpack_H_slice_to oam_data 8 10) in Hp by lia.
  cbn [bind h_set1_count] in Hp.
  destruct (parse_set oam_data 1 (word_at oam_data 8) 10) as [st|];
    cbn [bind] in Hp; [|discriminate].
  destruct (fst st + 2 <=? len oam_data).
  - destruct (unpack_H _) as [set2_count|]; cbn [bind] in Hp; [|discriminate].
    destruct (parse_set oam_data 2 set2_count (fst st + 2)) as [st2|];
      cbn [bind] in Hp; [|discriminate].
    congruence.
  - congruence.
Qed.

Lemma len_app {A} (l l' : list A) : len (l ++ l') = len l + len l'.
Proof. unfold len. rewrite length_app. lia. Qed.

Lemma div6_exact (a n : Z) : 0 <= n -> 6 * n <= a -> Z.min n (a / 6) = n.
Proof. intros Hn Ha. assert (n <= a / 6) by (Z.div_mod_to_equations; lia). lia. Qed.

(** X19: a complete document is parsed the same whatever follows it.
    When the buffer holds every record that its two counts declare, the
    parser returns exactly that many records in each set, and bytes
    appended to the buffer change nothing in the result. *)
Theorem parse_custom_oam_format_trailing (oam_data extra : list byte) :
  complete oam_data ->
  parse_custom_oam_format (oam_data ++ extra)
  = parse_custom_oam_format oam_data
  /\ exists header set1 set2,
       parse_custom_oam_format oam_data = Ok (header, set1, set2)
       /\ len set1 = h_set1_count header
       /\ len set2 = word_at oam_data (10 + 6 * len set1).
Proof.
  intros Hcomplete. unfold complete in Hcomplete. cbn zeta in Hcomplete.
  pose proof (word_at_range oam_data 8) as Hc1.
  pose proof (word_at_range oam_data (10 + 6 * word_at oam_data 8)) as Hc2.
  assert (10 <= len oam_data) as Hlen by lia.
  pose proof (len_nonneg extra) as Hextra.
  destruct (parse_custom_oam_format_long oam_data Hlen)
    as (h & s1 & s2 & Hp & _ & Hcount & Hn1 & Hn2 & Hall1 & Hall2).
  destruct (parse_custom_oam_format_long (oam_data ++ extra))
    as (h' & s1' & s2' & Hp' & _ & Hcount' & Hn1' & Hn2' & Hall1' & Hall2');
    [rewrite len_app; lia|].
  pose proof (parse_custom_oam_format_header _ _ _ _ Hp) as Hh.
  pose proof (parse_custom_oam_format_header _ _ _ _ Hp') as Hh'.
  rewrite !word_at_app in Hh' by lia. rewrite <- Hh in Hh'. subst h'.
  rewrite Hcount in Hn1, Hn1'.
  rewrite div6_exact in Hn1 by lia.
  rewrite len_app, div6_exact in Hn1' by lia.
  cbv zeta in Hn2, Hn2'. rewrite Hn1 in Hn2. rewrite Hn1' in Hn2'.
  rewrite len_app, word_at_app in Hn2' by lia.
  destruct (Z.leb_spec (10 + 6 * word_at oam_data 8 + 2) (len oam_data));
    [|lia].
  destruct (Z.leb_spec (10 + 6 * word_at oam_data 8 + 2)
              (len oam_data + len extra)); [|lia].
  rewrite div6_exact in Hn2 by lia. rewrite div6_exact in Hn2' by lia.
  assert (s1' = s1) as ->.
  { apply (tagged_lists_eq (oam_data ++ extra) oam_data 1 10).
    - unfold len in Hn1, Hn1'. lia.
    - intros j obj Hj. now destruct (Hall1' j obj Hj) as (_ & _ & Ho).
    - intros j obj Hj. now destruct (Hall1 j obj Hj) as (_ & _ & Ho).
    - intros j Hj. apply record_at_app; unfold len in Hn1'; lia. }
  assert (s2' = s2) as ->.
  { apply (tagged_lists_eq (oam_data ++ extra) oam_data 2
             (10 + 6 * len s1 + 2)).
    - unfold len in Hn2, Hn2'. lia.
    - intros j obj Hj. now destruct (Hall2' j obj Hj) as (_ & _ & Ho).
    - intros j obj Hj. now destruct (Hall2 j obj Hj) as (_ & _ & Ho).
    - intros j Hj. apply record_at_app; unfold len in Hn2'; lia. }
  split; [now rewrite Hp, Hp'|].
  exists h, s1, s2. split; [exact Hp|]. split; [lia|].
  rewrite Hn2, Hn1. reflexivity.
Qed.

Lemma parse_custom_oam_format_trailing_witness :
  complete doc_one_record
  /\ parse_custom_oam_format (doc_one_record ++ [xff; xff; xff])
     = parse_custom_oam_format doc_one_record.
Proof.
  assert (complete doc_one_record) as Hc by (vm_compute; discriminate).
  split; [exact Hc|].
  exact (proj1 (parse_custom_oam_format_trailing doc_one_record
                  [xff; xff; xff] Hc)).
Defined.

(** Two buffers that agree outside the unused header bytes yield the
    same sets and the same multiplier. *)
Lemma parse_custom_oam_format_agree (data data' : list byte) :
  length data = length data' ->
  (forall i : nat, ~ unused_header_byte i -> data !! i = data' !! i) ->
  match parse_custom_oam_format data, parse_custom_oam_format data' with
  | Ok (h, s1, s2), Ok (h', s1', s2') =>
      s1 = s1' /\ s2 = s2' /\ h_multiplier h = h_multiplier h'
      /\ h_set1_count h = h_set1_count h'
  | Err e, Err e' => e = e'
  | _, _ => False
  end.
Proof.
  intros Hlength Hsame.
  assert (len data = len data') as Hlen by (unfold len; lia).
  assert (forall off, off = 4 \/ 8 <= off ->
            word_at data off = word_at data' off) as Hword.
  { intros off Hoff. apply word_at_agree; apply Hsame;
      unfold unused_header_byte; lia. }
  assert (forall off, 8 <= off -> record_at data off = record_at data' off)
    as Hrec.
  { intros off Hoff. unfold record_at. now rewrite !Hword by lia. }
  destruct (Z_lt_ge_dec (len data) 10) as [Hlt|Hge].
  { rewrite !parse_custom_oam_format_short by lia. reflexivity. }
  destruct (parse_custom_oam_format_long data ltac:(lia))
    as (h & s1 & s2 & -> & Hm & Hcount & Hn1 & Hn2 & Hall1 & Hall2).
  destruct (parse_custom_oam_format_long data' ltac:(lia))
    as (h' & s1' & s2' & -> & Hm' & Hcount' & Hn1' & Hn2' & Hall1' & Hall2').
  rewrite Hcount in Hn1. rewrite Hcount', <- Hlen, <- Hword in Hn1' by lia.
  assert (s1 = s1') as <-.
  { apply (tagged_lists_eq data data' 1 10).
    - unfold len in Hn1, Hn1'. lia.
    - intros j obj Hj. now destruct (Hall1 j obj Hj) as (_ & _ & Ho).
    - intros j obj Hj. now destruct (Hall1' j obj Hj) as (_ & _ & Ho).
    - intros j Hj. apply Hrec. lia. }
  cbv zeta in Hn2, Hn2'.
  pose proof (len_nonneg s1) as Hs1.
  rewrite <- Hlen, <- Hword in Hn2' by lia.
  assert (s2 = s2') as <-.
  { apply (tagged_lists_eq data data' 2 (10 + 6 * len s1 + 2)).
    - unfold len in Hn2, Hn2' |- *. lia.
    - intros j obj Hj. now destruct (Hall2 j obj Hj) as (_ & _ & Ho).
    - intros j obj Hj. now destruct (Hall2' j obj Hj) as (_ & _ & Ho).
    - intros j Hj. apply Hrec. lia. }
  rewrite Hm, Hm', Hcount, Hcount', !Hword by lia. easy.
Qed.

(** X20: the total size, bytes 2-3 and the Set-2 offset adjustment of
    the header are read and then never used.  Two OAM buffers of the
    same length that differ only in those six bytes give the same
    reconstruction: the same canvas or the same exception; Set 2 is
    always looked for right after the records of Set 1. *)
Theorem reconstruct_portrait_ignores_header_bytes (tile_data oam_data
    oam_data' palette1_data palette2_data : list byte) (use_set : Z)
    (debug show : bool) :
  length oam_data = length oam_data' ->
  (forall i : nat, ~ unused_header_byte i ->
     oam_data !! i = oam_data' !! i) ->
  reconstruct_portrait tile_data oam_data palette1_data palette2_data
                       use_set debug show
  = reconstruct_portrait tile_data oam_data' palette1_data palette2_data
                         use_set debug show.
Proof.
  intros Hlength Hsame.
  pose proof (parse_custom_oam_format_agree oam_data oam_data' Hlength Hsame)
    as Hagree.
  unfold reconstruct_portrait.
  destruct (load_ds_palette palette1_data); cbn [bind]; [|reflexivity].
  destruct (load_ds_palette palette2_data); cbn [bind]; [|reflexivity].
  destruct (parse_custom_oam_format oam_data) as [[[h s1] s2]|e],
           (parse_custom_oam_format oam_data') as [[[h' s1'] s2']|e'];
    cbn [bind]; try easy.
  - destruct Hagree as (<- & <- & <- & _). reflexivity.
  - now subst.
Qed.

Lemma reconstruct_portrait_ignores_header_bytes_witness :
  reconstruct_portrait sample_tiles doc_one_record sample_palette_file
                       sample_palette_file 1 true false
  = reconstruct_portrait sample_tiles
      ([xff; xff; xff; xff; x04; x00; xff; xff] ++ drop 8 doc_one_record)
      sample_palette_file sample_palette_file 1 true false.
Proof.
  apply reconstruct_portrait_ignores_header_bytes; [reflexivity|].
  intros i Hi. unfold unused_header_byte in Hi.
  do 8 (destruct i as [|i]; [first [reflexivity | exfalso; lia]|]).
  reflexivity.
Defined.

(** * The batch driver *)

(** ** Strings *)

Lemma append_nil_r (s : path) : String.append s ""%string = s.
Proof. induction s as [|c s IH]; cbn; congruence. Qed.

Lemma append_assoc (a b c : path) :
  String.append (String.append a b) c = String.append a (String.append b c).
Proof. induction a as [|x a IH]; cbn; congruence. Qed.

Lemma length_append (a b : path) :
  String.length (String.append a b) = (String.length a + String.length b)%nat.
Proof. induction a as [|x a IH]; cbn; congruence. Qed.

Lemma endswith_spec (s suffix : path) :
  endswith s suffix = true <-> exists stem, s = String.append stem suffix.
Proof.
  induction s as [|c s IH]; cbn [endswith].
  - rewrite orb_false_r, String.eqb_eq. split.
    + intros <-. now exists ""%string.
    + intros ([|x stem] & Hs); [exact Hs | discriminate].
  - rewrite orb_true_iff, String.eqb_eq, IH. split.
    + intros [<- | (stem & ->)].
      * now exists ""%string.
      * now exists (String.String c stem).
    + intros ([|x stem] & Hs).
      * now left.
      * right. exists stem. cbn in Hs. congruence.
Qed.

Lemma prefix_nil (s : path) : String.prefix ""%string s = true.
Proof. now destruct s. Qed.

Lemma prefix_split (p s : path) :
  String.prefix p s = true -> exists rest, s = String.append p rest.
Proof.
  revert s. induction p as [|c p IH]; intros s Hp.
  - now exists s.
  - destruct s as [|x s]; [discriminate|]. cbn in Hp.
    destruct (Ascii.ascii_dec c x) as [<-|]; [|discriminate].
    destruct (IH s Hp) as (rest & ->). now exists rest.
Qed.

Lemma prefix_length (p s : path) :
  String.prefix p s = true -> (String.length p <= String.length s)%nat.
Proof.
  intros Hp. destruct (prefix_split p s Hp) as (rest & ->).
  rewrite length_append. lia.
Qed.

Lemma prefix_append (p rest : path) :
  String.prefix p (String.append p rest) = true.
Proof.
  induction p as [|c p IH]; cbn.
  - apply prefix_nil.
  - destruct (Ascii.ascii_dec c c); [exact IH | congruence].
Qed.

(** The marker [_tiles.bin] has no border: where a name continues with
    the marker, an occurrence of the marker that starts inside the name
    ends inside it. *)
Lemma prefix_marker_app (x : path) :
  x <> ""%string ->
  String.prefix "_tiles.bin" (String.append x "_tiles.bin")
  = String.prefix "_tiles.bin" x.
Proof.
  intros Hx. destruct x as [|c x]; [congruence|]. clear Hx.
  cbn [String.append String.prefix].
  destruct (Ascii.ascii_dec _ c) as [<-|]; [|reflexivity].
  do 9 (destruct x as [|c x]; [reflexivity|];
        cbn [String.append String.prefix];
        destruct (Ascii.ascii_dec _ c) as [<-|]; [|reflexivity]).
  now rewrite !prefix_nil.
Qed.

Lemma str_contains_append (a s old : path) :
  str_contains s old = true -> str_contains (String.append a s) old = true.
Proof.
  intros Hs. induction a as [|c a IH]; [exact Hs|].
  cbn [String.append str_contains]. rewrite IH. apply orb_true_r.
Qed.

Lemma str_contains_self (old rest : path) :
  str_contains (String.append old rest) old = true.
Proof.
  pose proof (prefix_append old rest) as Hp.
  destruct (String.append old rest); cbn [str_contains]; now rewrite Hp.
Qed.

Lemma remove_from_length (old : path) (skip : nat) (s : path) :
  (String.length (remove_from old skip s) <= String.length s - skip)%nat.
Proof.
  revert skip. induction s as [|c s IH]; intros skip;
    cbn [remove_from String.length]; [lia|].
  destruct skip as [|k].
  - destruct (String.prefix old (String.String c s)) eqn:Hp.
    + specialize (IH (String.length old - 1)%nat). lia.
    + cbn [String.length]. specialize (IH 0%nat). lia.
  - apply IH.
Qed.

Lemma remove_from_skip (old rest : path) (skipped : path) :
  remove_from old (String.length skipped) (String.append skipped rest)
  = remove_from old 0 rest.
Proof. induction skipped as [|c k IH]; cbn; [reflexivity | exact IH]. Qed.

(** Where the marker occurs, removing it shortens the name by its
    length at least. *)
Lemma remove_marker_shorter (s : path) :
  str_contains s "_tiles.bin" = true ->
  (String.length (remove_from "_tiles.bin" 0 s) + 10 <= String.length s)%nat.
Proof.
  induction s as [|c s IH]; intros Hc; [discriminate|].
  cbn [remove_from]. cbn [str_contains] in Hc.
  destruct (String.prefix "_tiles.bin" (String.String c s)) eqn:Hp.
  - apply prefix_length in Hp. cbn in Hp.
    pose proof (remove_from_length "_tiles.bin" 9 s). cbn. lia.
  - cbn [orb] in Hc. specialize (IH Hc). cbn. lia.
Qed.

Lemma remove_marker_free (stem : path) :
  str_contains stem "_tiles.bin" = false ->
  remove_from "_tiles.bin" 0 (String.append stem "_tiles.bin") = stem.
Proof.
  induction stem as [|c stem IH]; intros Hc; [reflexivity|].
  cbn [str_contains] in Hc. apply orb_false_iff in Hc as [Hp Hc].
  cbn [String.append remove_from].
  change (String.String c (String.append stem "_tiles.bin"))
    with (String.append (String.String c stem) "_tiles.bin").
  rewrite prefix_marker_app by discriminate. rewrite Hp.
  now rewrite (IH Hc).
Qed.

Lemma remove_marker_twice (stem : path) :
  str_contains stem "_tiles.bin" = true ->
  (String.length (remove_from "_tiles.bin" 0
                    (String.append stem "_tiles.bin")) + 10
   <= String.length stem)%nat.
Proof.
  induction stem as [|c stem IH]; intros Hc; [discriminate|].
  cbn [str_contains] in Hc.
  cbn [String.append remove_from].
  change (String.String c (String.append stem "_tiles.bin"))
    with (String.append (String.String c stem) "_tiles.bin").
  rewrite prefix_marker_app by discriminate.
  destruct (String.prefix "_tiles.bin" (String.String c stem)) eqn:Hp.
  - destruct (prefix_split _ _ Hp) as (rest & Hrest).
    assert (stem = String.append "tiles.bin" rest) as ->
      by (cbn in Hrest |- *; congruence).
    change (String.length "_tiles.bin" - 1)%nat
      with (String.length "tiles.bin").
    rewrite append_assoc, remove_from_skip.
    pose proof (remove_marker_shorter (String.append rest "_tiles.bin")
                  (str_contains_append rest _ _
                     (str_contains_self "_tiles.bin" ""))) as Hlen.
    rewrite length_append in Hlen. cbn [String.length].
    rewrite length_append. cbn [String.length] in Hlen |- *. lia.
  - cbn [orb] in Hc. specialize (IH Hc). cbn. lia.
Qed.

(** X15: the expression name of a tiles file.  For a file named
    [stem_tiles.bin], the name recovered by removing the marker is
    [stem] exactly when [stem] does not itself contain [_tiles.bin];
    so only then is the tiles file that is read the file that was
    listed.  Otherwise the recovered name is at least ten characters
    shorter than the stem. *)
Theorem expression_name_round_trip (stem : path) :
  endswith (String.append stem "_tiles.bin") "_tiles.bin" = true
  /\ (expr_name_of (String.append stem "_tiles.bin") = stem
      <-> str_contains stem "_tiles.bin" = false)
  /\ (str_contains stem "_tiles.bin" = true ->
      (String.length (expr_name_of (String.append stem "_tiles.bin")) + 10
       <= String.length stem)%nat).
Proof.
  split; [apply endswith_spec; now exists stem|].
  assert (str_contains stem "_tiles.bin" = true ->
          (String.length (expr_name_of (String.append stem "_tiles.bin")) + 10
           <= String.length stem)%nat) as Hshort
    by exact (remove_marker_twice stem).
  split; [|exact Hshort]. split.
  - intros Heq. destruct (str_contains stem "_tiles.bin"); [|reflexivity].
    specialize (Hshort eq_refl). rewrite Heq in Hshort. lia.
  - exact (remove_marker_free stem).
Qed.

(** ** Sorting *)

Lemma string_leb_trans (a b c : path) :
  String.leb a b = true -> String.leb b c = true -> String.leb a c = true.
Proof.
  revert b c. induction a as [|x a IH]; intros [|y b] [|z c];
    unfold String.leb; cbn [String.compare]; try easy.
  specialize (IH b c). unfold String.leb in IH.
  unfold Ascii.compare.
  destruct (N.compare_spec (Ascii.N_of_ascii x) (Ascii.N_of_ascii y)),
           (N.compare_spec (Ascii.N_of_ascii y) (Ascii.N_of_ascii z)),
           (N.compare_spec (Ascii.N_of_ascii x) (Ascii.N_of_ascii z));
    try easy; lia.
Qed.

Lemma str_le_trans : Transitive str_le.
Proof.
  intros a b c Hab Hbc. unfold str_le in *.
  apply Is_true_true. apply Is_true_true in Hab, Hbc.
  exact (string_leb_trans a b c Hab Hbc).
Qed.

Lemma str_le_total : Total str_le.
Proof.
  intros a b. unfold str_le. rewrite !Is_true_true. apply String.leb_total.
Qed.

Lemma str_le_antisym : AntiSymm eq str_le.
Proof.
  intros a b Hab Hba. unfold str_le in *.
  apply Is_true_true in Hab, Hba. now apply String.leb_antisym.
Qed.

Lemma elem_of_sort (x : path) (l : list path) : x ∈ sort l <-> x ∈ l.
Proof. unfold sort. now rewrite merge_sort_Permutation. Qed.

(** The sorted list does not depend on the order of the input. *)
Lemma sort_Permutation (l l' : list path) : l ≡ₚ l' -> sort l = sort l'.
Proof.
  intros Hperm. unfold sort.
  apply (@StronglySorted_unique _ str_le str_le_antisym).
  - apply (@StronglySorted_merge_sort _ str_le _ str_le_trans str_le_total).
  - apply (@StronglySorted_merge_sort _ str_le _ str_le_trans str_le_total).
  - now rewrite !merge_sort_Permutation.
Qed.

(** ** One reconstruction, from files *)

Lemma reconstruct_portrait_files_read (fs : file_system)
    (tiles_path oam_path palette1_path palette2_path output_path : path)
    (use_set : Z) (debug show : bool)
    (tile_data oam_data palette1_data palette2_data : list byte) :
  fs_read fs tiles_path = Some tile_data ->
  fs_read fs oam_path = Some oam_data ->
  fs_read fs palette1_path = Some palette1_data ->
  fs_read fs palette2_path = Some palette2_data ->
  reconstruct_portrait_files fs tiles_path oam_path palette1_path
                             palette2_path output_path use_set debug show
  = match reconstruct_portrait tile_data oam_data palette1_data
                               palette2_data use_set debug show with
    | Ok canvas => if fs_save fs output_path then inr canvas else inl OSError
    | Err e => inl (Raised e)
    end.
Proof.
  intros Ht Ho H1 H2.
  unfold reconstruct_portrait_files, reconstruct_portrait,
    load_ds_palette_file, read_file.
  rewrite Ht, Ho, H1, H2. cbn [io_bind].
  destruct (load_ds_palette palette1_data) as [palette1|e];
    cbn [lift io_bind bind]; [|reflexivity].
  destruct (load_ds_palette palette2_data) as [palette2|e];
    cbn [lift io_bind bind]; [|reflexivity].
  destruct (parse_custom_oam_format oam_data) as [[[header set1] set2]|e];
    cbn [lift io_bind bind]; [|reflexivity].
  destruct (composite tile_data [palette1; palette2] (h_multiplier header)
              (if use_set =? 1 then set1 else set2) debug show);
    reflexivity.
Qed.

Lemma reconstruct_portrait_files_unreadable (fs : file_system)
    (tiles_path oam_path palette1_path palette2_path output_path : path)
    (use_set : Z) (debug show : bool) :
  fs_read fs tiles_path = None \/ fs_read fs oam_path = None
  \/ fs_read fs palette1_path = None ->
  reconstruct_portrait_files fs tiles_path oam_path palette1_path
                             palette2_path output_path use_set debug show
  = inl OSError.
Proof.
  unfold reconstruct_portrait_files, load_ds_palette_file, read_file.
  intros Hnone.
  destruct (fs_read fs tiles_path); cbn [io_bind]; [|reflexivity].
  destruct (fs_read fs oam_path); cbn [io_bind]; [|reflexivity].
  destruct (fs_read fs palette1_path); cbn [io_bind]; [|reflexivity].
  destruct Hnone as [?|[?|?]]; discriminate.
Qed.

Lemma reconstruct_portrait_files_palette2 (fs : file_system)
    (tiles_path oam_path palette1_path palette2_path output_path : path)
    (use_set : Z) (debug show : bool) (palette1_data : list byte) :
  is_Some (fs_read fs tiles_path) ->
  is_Some (fs_read fs oam_path) ->
  fs_read fs palette1_path = Some palette1_data ->
  fs_read fs palette2_path = None ->
  reconstruct_portrait_files fs tiles_path oam_path palette1_path
                             palette2_path output_path use_set debug show
  = if Z.odd (len palette1_data) then inl (Raised StructError)
    else inl OSError.
Proof.
  intros [tile_data Ht] [oam_data Ho] H1 H2.
  unfold reconstruct_portrait_files, load_ds_palette_file, read_file.
  rewrite Ht, Ho, H1, H2. cbn [io_bind].
  destruct (length_parity palette1_data) as [Hodd|Heven].
  - rewrite Hodd, (load_ds_palette_odd _ Hodd). reflexivity.
  - rewrite <- Z.negb_even, Heven, (load_ds_palette_even _ Heven).
    reflexivity.
Qed.



(** ** The loops *)

(** What one expression reports. *)
Lemma expression_cases (fs : file_system) (output_dir char_folder bin_dir
    expr_file : path) :
  let expr_name := expr_name_of expr_file in
  let oam_path := path_join bin_dir (String.append expr_name "_oam.bin") in
  match expression fs output_dir char_folder bin_dir expr_file with
  | Skipped n => n = expr_name /\ fs_exists fs oam_path = false
  | Saved output_path canvas =>
      output_path
      = path_join output_dir
          (String.append char_folder
             (String.append "_" (String.append expr_name ".png")))
      /\ fs_exists fs oam_path = true
      /\ fs_save fs output_path = true
      /\ 8 <= im_width canvas /\ 8 <= im_height canvas
      /\ exists tile_data oam_data palette1_data palette2_data,
           fs_read fs (path_join bin_dir
                         (String.append expr_name "_tiles.bin"))
           = Some tile_data
           /\ fs_read fs oam_path = Some oam_data
           /\ fs_read fs (path_join bin_dir "palette1.bin")
              = Some palette1_data
           /\ fs_read fs (path_join bin_dir "palette2.bin")
              = Some palette2_data
           /\ reconstruct_portrait tile_data oam_data palette1_data
                                   palette2_data 1 true false = Ok canvas
  | Failed n e =>
      n = expr_name /\ fs_exists fs oam_path = true
      /\ (e = OSError \/ e = Raised StructError \/ e = Raised ValueError)
  end.
Proof.
  cbn zeta. unfold expression.
  destruct (fs_exists fs _) eqn:Hex; cbn [negb]; [|now split].
  match goal with
  | |- context [reconstruct_portrait_files fs ?tp ?op ?p1 ?p2 ?out ?u ?d ?s] =>
      pose proof (reconstruct_portrait_files_read fs tp op p1 p2 out u d s)
        as Hread;
      pose proof (reconstruct_portrait_files_unreadable
                    fs tp op p1 p2 out u d s) as Hnone;
      pose proof (reconstruct_portrait_files_palette2
                    fs tp op p1 p2 out u d s) as Hp2;
      destruct (fs_read fs tp) as [tile_data|] eqn:Ht;
        [|rewrite Hnone by auto; auto];
      destruct (fs_read fs op) as [oam_data|] eqn:Ho;
        [|rewrite Hnone by auto; auto];
      destruct (fs_read fs p1) as [palette1_data|] eqn:H1;
        [|rewrite Hnone by auto; auto];
      destruct (fs_read fs p2) as [palette2_data|] eqn:H2
  end.
  - rewrite (Hread _ _ _ _ eq_refl eq_refl eq_refl eq_refl).
    pose proof (reconstruct_portrait_result tile_data oam_data palette1_data
                  palette2_data 1 true false) as Hres.
    destruct (reconstruct_portrait _ _ _ _ _ _ _) as [canvas|e] eqn:Hrec.
    + destruct (fs_save fs _) eqn:Hsave; [|auto].
      split; [reflexivity|]. split; [reflexivity|]. split; [exact Hsave|].
      split; [apply Hres|]. split; [apply Hres|].
      now exists tile_data, oam_data, palette1_data, palette2_data.
    + split; [reflexivity|]. split; [reflexivity|].
      destruct Hres as [-> | ->]; auto.
  - rewrite (Hp2 palette1_data) by (eauto || reflexivity).
    destruct (Z.odd (len palette1_data)); auto.
Qed.

(** The tiles files of a folder, as the loop takes them. *)
Lemma elem_of_expression_files (names : list path) (f : path) :
  f ∈ sort (filter (fun filename => Is_true (endswith filename "_tiles.bin"))
                   names)
  <-> f ∈ names /\ endswith f "_tiles.bin" = true.
Proof.
  rewrite elem_of_sort, list_elem_of_filter, Is_true_true. tauto.
Qed.

(** The loop over the folders ends without an exception exactly when the
    [binFiles] of every folder can be listed; no other exception leaves
    it. *)
Lemma characters_status (fs : file_system) (characters_dir output_dir : path)
    (folders : list path) (log : list event) :
  (snd (characters fs characters_dir output_dir folders log) = None
   <-> Forall (fun c => is_Some (fs_listdir fs (bin_dir_of characters_dir c)))
              folders)
  /\ (snd (characters fs characters_dir output_dir folders log) = None
      \/ snd (characters fs characters_dir output_dir folders log)
         = Some OSError).
Proof.
  revert log. induction folders as [|c rest IH]; intros log;
    cbn [characters].
  - split; [|now left]. split; [constructor | reflexivity].
  - destruct (fs_listdir fs (bin_dir_of characters_dir c)) as [names|] eqn:Hl.
    + destruct (IH (log ++ map (expression fs output_dir c
                                  (bin_dir_of characters_dir c))
                          (sort (filter (fun filename =>
                                   Is_true (endswith filename "_tiles.bin"))
                                   names)))) as [Hiff Hor].
      split; [|exact Hor]. rewrite Hiff, Forall_cons, Hl.
      split; [intros ?; split; [eexists; reflexivity | assumption] | tauto].
    + split; [|now right]. cbn [snd]. split; [discriminate|].
      intros Hall. apply Forall_cons in Hall as [[? Hsome] _].
      rewrite Hl in Hsome. discriminate.
Qed.

(** Every event of the loop comes from a tiles file of one of the
    folders. *)
Lemma characters_sound (fs : file_system) (characters_dir output_dir : path)
    (folders : list path) (log : list event) (ev : event) :
  ev ∈ fst (characters fs characters_dir output_dir folders log) ->
  ev ∈ log
  \/ exists c names f,
       c ∈ folders
       /\ fs_listdir fs (bin_dir_of characters_dir c) = Some names
       /\ f ∈ names /\ endswith f "_tiles.bin" = true
       /\ ev = expression fs output_dir c (bin_dir_of characters_dir c) f.
Proof.
  revert log. induction folders as [|c rest IH]; intros log;
    cbn [characters].
  - now left.
  - destruct (fs_listdir fs (bin_dir_of characters_dir c)) as [names|] eqn:Hl;
      [|now left].
    intros Hev. destruct (IH _ Hev) as [Hin | (c' & names' & f & Hc & Hrest)].
    + apply elem_of_app in Hin as [Hin|Hin]; [now left|]. right.
      apply list_elem_of_fmap in Hin as (f & -> & Hf).
      apply elem_of_expression_files in Hf as [Hf Hend].
      exists c, names, f. split; [left|]. now repeat split.
    + right. exists c', names', f. split; [now right | exact Hrest].
Qed.

(** When the loop ends without an exception, every tiles file of every
    folder has its event, and the earlier events are kept. *)
Lemma characters_complete (fs : file_system)
    (characters_dir output_dir : path) (folders : list path)
    (log : list event) :
  snd (characters fs characters_dir output_dir folders log) = None ->
  (forall ev, ev ∈ log ->
     ev ∈ fst (characters fs characters_dir output_dir folders log))
  /\ forall c names f,
       c ∈ folders ->
       fs_listdir fs (bin_dir_of characters_dir c) = Some names ->
       f ∈ names -> endswith f "_tiles.bin" = true ->
       expression fs output_dir c (bin_dir_of characters_dir c) f
       ∈ fst (characters fs characters_dir output_dir folders log).
Proof.
  revert log. induction folders as [|c rest IH]; intros log;
    cbn [characters].
  - intros _. split; [auto|]. intros c names f Hc. inversion Hc.
  - destruct (fs_listdir fs (bin_dir_of characters_dir c)) as [names|] eqn:Hl;
      [|discriminate].
    intros Hnone. destruct (IH _ Hnone) as [Hkeep Hall]. split.
    + intros ev Hev. apply Hkeep, elem_of_app. now left.
    + intros c' names' f Hc Hl' Hf Hend.
      apply elem_of_cons in Hc as [-> | Hc]; [|now apply (Hall c' names' f)].
      rewrite Hl in Hl'. injection Hl' as <-.
      apply Hkeep, elem_of_app. right.
      apply list_elem_of_fmap. exists f. split; [reflexivity|].
      now apply elem_of_expression_files.
Qed.

Lemma elem_of_character_folders (fs : file_system) (characters_dir : path)
    (items : list path) (c : path) :
  c ∈ sort (filter (fun item =>
                      Is_true (fs_isdir fs (path_join characters_dir item)))
                   items)
  <-> c ∈ items /\ fs_isdir fs (path_join characters_dir c) = true.
Proof.
  rewrite elem_of_sort, list_elem_of_filter, Is_true_true. tauto.
Qed.

(** X16: a run that ends without an exception.  Then the output
    directory was made, the characters directory was listed, every
    directory listed in it has a [binFiles] that was listed, and every
    file of these whose name ends in [_tiles.bin] has been reported.
    So a character folder without a listable [binFiles] stops the
    batch: that listing is outside the [try]. *)
Theorem reconstruct_all_characters_normal_run (fs : file_system)
    (characters_dir output_dir : path) :
  snd (reconstruct_all_characters fs characters_dir output_dir) = None ->
  fs_makedirs fs output_dir = true
  /\ (exists items,
        fs_listdir fs characters_dir = Some items
        /\ forall item,
             item ∈ items ->
             fs_isdir fs (path_join characters_dir item) = true ->
             is_Some (fs_listdir fs (bin_dir_of characters_dir item)))
  /\ (forall char_folder expr_file,
        listed fs characters_dir char_folder expr_file ->
        expression fs output_dir char_folder
                   (bin_dir_of characters_dir char_folder) expr_file
        ∈ fst (reconstruct_all_characters fs characters_dir output_dir)).
Proof.
  unfold reconstruct_all_characters.
  destruct (fs_makedirs fs output_dir); cbn [negb]; [|discriminate].
  destruct (fs_listdir fs characters_dir) as [items|] eqn:Hl;
    [|discriminate].
  intros Hnone.
  match goal with
  | |- context [characters fs characters_dir output_dir ?folders []] =>
      destruct (characters_status fs characters_dir output_dir folders [])
        as [Hiff _];
      destruct (characters_complete fs characters_dir output_dir folders []
                  Hnone) as [_ Hall]
  end.
  apply Hiff in Hnone. rewrite Forall_forall in Hnone.
  split; [reflexivity|]. split.
  - exists items. split; [reflexivity|]. intros item Hitem Hdir.
    apply Hnone. now apply elem_of_character_folders.
  - intros c f (items' & names & Heq & Hc & Hdir & Hn & Hf & Hend).
    assert (items' = items) as -> by congruence.
    apply (Hall c names f); try assumption.
    now apply elem_of_character_folders.
Qed.

Lemma reconstruct_all_characters_normal_run_witness :
  fs_makedirs (sample_tree sample_listing) "out" = true
  /\ (exists items,
        fs_listdir (sample_tree sample_listing) "chars" = Some items
        /\ forall item,
             item ∈ items ->
             fs_isdir (sample_tree sample_listing) (path_join "chars" item)
             = true ->
             is_Some (fs_listdir (sample_tree sample_listing)
                                 (bin_dir_of "chars" item)))
  /\ (forall char_folder expr_file,
        listed (sample_tree sample_listing) "chars" char_folder expr_file ->
        expression (sample_tree sample_listing) "out" char_folder
                   (bin_dir_of "chars" char_folder) expr_file
        ∈ fst (reconstruct_all_characters (sample_tree sample_listing)
                                          "chars" "out")).
Proof.
  apply (reconstruct_all_characters_normal_run (sample_tree sample_listing)
           "chars" "out").
  vm_compute. reflexivity.
Defined.

(** X17: what the batch reports.  Every event of a run, also of one
    that an exception ended, comes from a tiles file of a character
    folder.  A saved image is the Set-1 canvas, without the debug
    override, of the folder's files of that expression and of its
    [palette1.bin] and [palette2.bin]; it is at least 8 pixels wide and
    high and is written to [<folder>_<expression>.png] in the output
    directory.  An expression is skipped only when its OAM file does
    not exist, and a failure that is caught is an [OSError], a
    [struct.error] or a [ValueError]. *)
Theorem reconstruct_all_characters_events (fs : file_system)
    (characters_dir output_dir : path) (ev : event) :
  ev ∈ fst (reconstruct_all_characters fs characters_dir output_dir) ->
  exists char_folder expr_file,
    listed fs characters_dir char_folder expr_file
    /\ let bin_dir := bin_dir_of characters_dir char_folder in
       let expr_name := expr_name_of expr_file in
       let oam_path :=
         path_join bin_dir (String.append expr_name "_oam.bin") in
       match ev with
       | Skipped n => n = expr_name /\ fs_exists fs oam_path = false
       | Saved output_path canvas =>
           output_path
           = path_join output_dir
               (String.append char_folder
                  (String.append "_" (String.append expr_name ".png")))
           /\ fs_exists fs oam_path = true
           /\ fs_save fs output_path = true
           /\ 8 <= im_width canvas /\ 8 <= im_height canvas
           /\ exists tile_data oam_data palette1_data palette2_data,
                fs_read fs (path_join bin_dir
                              (String.append expr_name "_tiles.bin"))
                = Some tile_data
                /\ fs_read fs oam_path = Some oam_data
                /\ fs_read fs (path_join bin_dir "palette1.bin")
                   = Some palette1_data
                /\ fs_read fs (path_join bin_dir "palette2.bin")
                   = Some palette2_data
                /\ reconstruct_portrait tile_data oam_data palette1_data
                                        palette2_data 1 true false
                   = Ok canvas
       | Failed n e =>
           n = expr_name /\ fs_exists fs oam_path = true
           /\ (e = OSError \/ e = Raised StructError
               \/ e = Raised ValueError)
       end.
Proof.
  unfold reconstruct_all_characters.
  destruct (fs_makedirs fs output_dir); cbn [negb fst];
    [|intros Hev; inversion Hev].
  destruct (fs_listdir fs characters_dir) as [items|] eqn:Hl;
    [|intros Hev; inversion Hev].
  intros Hev.
  apply characters_sound in Hev
    as [Hev | (c & names & f & Hc & Hn & Hf & Hend & ->)];
    [inversion Hev|].
  apply elem_of_character_folders in Hc as [Hc Hdir].
  exists c, f. split.
  - exists items, names. now repeat split.
  - exact (expression_cases fs output_dir c (bin_dir_of characters_dir c) f).
Qed.

Lemma reconstruct_all_characters_events_witness :
  exists char_folder expr_file,
    listed (sample_tree sample_listing) "chars" char_folder expr_file
    /\ expr_name_of expr_file = "01_happy"%string
    /\ fs_exists (sample_tree sample_listing)
         (path_join (bin_dir_of "chars" char_folder) "01_happy_oam.bin")
       = false.
Proof.
  destruct (reconstruct_all_characters_events (sample_tree sample_listing)
              "chars" "out" (Skipped "01_happy"))
    as (c & f & Hlisted & Hname & Hex).
  - vm_compute. right. left.
  - exists c, f. split; [exact Hlisted|]. split; [now rewrite <- Hname|].
    rewrite <- Hname in Hex. exact Hex.
Defined.

(** ** The order of the listings *)

Lemma reconstruct_portrait_files_ext (fs fs' : file_system)
    (tiles_path oam_path palette1_path palette2_path output_path : path)
    (use_set : Z) (debug show : bool) :
  (forall p, fs_read fs p = fs_read fs' p) ->
  (forall p, fs_save fs p = fs_save fs' p) ->
  reconstruct_portrait_files fs tiles_path oam_path palette1_path
                             palette2_path output_path use_set debug show
  = reconstruct_portrait_files fs' tiles_path oam_path palette1_path
                               palette2_path output_path use_set debug show.
Proof.
  intros Hread Hsave.
  unfold reconstruct_portrait_files, load_ds_palette_file, read_file.
  now rewrite !Hread, Hsave.
Qed.

Lemma expression_ext (fs fs' : file_system) (output_dir char_folder bin_dir
    expr_file : path) :
  (forall p, fs_exists fs p = fs_exists fs' p) ->
  (forall p, fs_read fs p = fs_read fs' p) ->
  (forall p, fs_save fs p = fs_save fs' p) ->
  expression fs output_dir char_folder bin_dir expr_file
  = expression fs' output_dir char_folder bin_dir expr_file.
Proof.
  intros Hex Hread Hsave. unfold expression.
  rewrite Hex.
  match goal with
  | |- context [reconstruct_portrait_files fs ?tp ?op ?p1 ?p2 ?out ?u ?d ?s] =>
      rewrite (reconstruct_portrait_files_ext fs fs' tp op p1 p2 out u d s
                 Hread Hsave)
  end.
  reflexivity.
Qed.

Lemma characters_ext (fs fs' : file_system) (characters_dir output_dir : path)
    (folders : list path) (log : list event) :
  same_up_to_listing_order fs fs' ->
  characters fs characters_dir output_dir folders log
  = characters fs' characters_dir output_dir folders log.
Proof.
  intros (_ & Hlist & _ & Hex & Hread & Hsave).
  revert log. induction folders as [|c rest IH]; intros log;
    cbn [characters]; [reflexivity|].
  specialize (Hlist (bin_dir_of characters_dir c)).
  destruct (fs_listdir fs (bin_dir_of characters_dir c)) as [names|],
           (fs_listdir fs' (bin_dir_of characters_dir c)) as [names'|];
    try easy.
  rewrite (sort_Permutation
             (filter (fun filename =>
                        Is_true (endswith filename "_tiles.bin")) names)
             (filter (fun filename =>
                        Is_true (endswith filename "_tiles.bin")) names'))
    by now rewrite Hlist.
  rewrite IH. f_equal. f_equal. apply map_ext. intros f.
  now apply expression_ext.
Qed.

(** X18: the order in which the operating system lists a directory
    does not matter.  Two file systems that differ only in the order of
    their listings give the same run: the same events in the same
    order, and the same exception. *)
Theorem reconstruct_all_characters_listing_order (fs fs' : file_system)
    (characters_dir output_dir : path) :
  same_up_to_listing_order fs fs' ->
  reconstruct_all_characters fs characters_dir output_dir
  = reconstruct_all_characters fs' characters_dir output_dir.
Proof.
  intros Hsame. pose proof Hsame as (Hmk & Hlist & Hdir & _).
  unfold reconstruct_all_characters. rewrite Hmk.
  destruct (fs_makedirs fs' output_dir); cbn [negb]; [|reflexivity].
  specialize (Hlist characters_dir).
  destruct (fs_listdir fs characters_dir) as [items|],
           (fs_listdir fs' characters_dir) as [items'|]; try easy.
  rewrite (sort_Permutation
             (filter (fun item =>
                        Is_true (fs_isdir fs (path_join characters_dir item)))
                     items)
             (filter (fun item =>
                        Is_true (fs_isdir fs'
                                   (path_join characters_dir item)))
                     items')).
  - now apply characters_ext.
  - rewrite Hlist.
    rewrite (list_filter_iff _
               (fun item =>
                  Is_true (fs_isdir fs' (path_join characters_dir item))));
      [reflexivity|].
    intros item. now rewrite Hdir.
Qed.

Lemma reconstruct_all_characters_listing_order_witness :
  same_up_to_listing_order (sample_tree sample_listing)
                           (sample_tree (reverse sample_listing))
  /\ reconstruct_all_characters (sample_tree sample_listing) "chars" "out"
     = reconstruct_all_characters (sample_tree (reverse sample_listing))
                                  "chars" "out".
Proof.
  assert (same_up_to_listing_order (sample_tree sample_listing)
                                   (sample_tree (reverse sample_listing)))
    as Hsame.
  { repeat split; try reflexivity; intros p;
      cbn [sample_tree tree fs_listdir fs_isdir fs_exists assoc];
      repeat (destruct (String.eqb p _); [try reflexivity|]);
      try reflexivity.
    symmetry. apply reverse_Permutation. }
  split; [exact Hsame|].
  exact (reconstruct_all_characters_listing_order _ _ "chars" "out" Hsame).
Defined.
